(** * data-explainer: the analyze-data edge function and its caller

    A shallow embedding of the decision logic of the repository:
    - [detectDownloadableContent], the response classifier of
      supabase/functions/analyze-data/index.ts (latest revision, the one
      carrying the [model] parameter);
    - the request handler [serve] of the same file: file resolution,
      prompt assembly, model-specific request shaping, text extraction,
      usage normalisation and the empty-text fallback;
    - the handler as it stands under
      supabase/functions/analyze-data/index.ts, the revision without
      the [model] parameter ([FixedModel]);
    - [handleAnalyze] and [handleFileSelection], the submit and
      selection handlers of the page AnalyzeData;
    - [handleUpload] and [handleDelete] of the component CSVUpload, as
      far as they decide the object paths the handler reads.

    JavaScript strings are sequences of UTF-16 code units; they are
    modelled as [list N].  The built-ins the source calls ([trim],
    [includes], [split], [startsWith], [endsWith], regular expressions,
    [JSON.parse]) are modelled after ECMA-262. *)

From stdpp Require Import gmap list strings.
From Stdlib Require Import QArith.

Local Open Scope N_scope.
Local Open Scope list_scope.

(** ** JavaScript strings *)

Abbreviation cu := N.
Abbreviation jsstring := (list N).

(** Code units of an ASCII literal. *)
Fixpoint js (s : string) : jsstring :=
  match s with
  | EmptyString => []
  | String a s' => Ascii.N_of_ascii a :: js s'
  end.

Module JS.

Definition TAB : cu := 9.
Definition LF : cu := 10.
Definition CR : cu := 13.
Definition QUOTE : cu := 34.
Definition COMMA : cu := 44.
Definition BACKSLASH : cu := 92.

(** LineTerminator :: LF | CR | LS | PS *)
Definition isLineTerminator (c : cu) : bool :=
  (c =? 10) || (c =? 13) || (c =? 8232) || (c =? 8233).

(** WhiteSpace :: TAB | VT | FF | ZWNBSP | USP (category Zs) *)
Definition isWhiteSpace (c : cu) : bool :=
  (c =? 9) || (c =? 11) || (c =? 12) || (c =? 32) || (c =? 160)
  || (c =? 5760) || ((8192 <=? c) && (c <=? 8202))
  || (c =? 8239) || (c =? 8287) || (c =? 12288) || (c =? 65279).

(** The code units removed by [String.prototype.trim] and matched by
    the class escape [\s]. *)
Definition isTrimmable (c : cu) : bool :=
  isWhiteSpace c || isLineTerminator c.

Fixpoint trimStart (s : jsstring) : jsstring :=
  match s with
  | [] => []
  | c :: t => if isTrimmable c then trimStart t else s
  end.

Definition trimEnd (s : jsstring) : jsstring :=
  rev (trimStart (rev s)).

Definition trim (s : jsstring) : jsstring :=
  trimEnd (trimStart s).

Fixpoint startsWith (s p : jsstring) : bool :=
  match p, s with
  | [], _ => true
  | a :: p', b :: s' => (a =? b) && startsWith s' p'
  | _ :: _, [] => false
  end.

Definition endsWith (s p : jsstring) : bool :=
  startsWith (rev s) (rev p).

Fixpoint includes (s sub : jsstring) : bool :=
  startsWith s sub ||
  match s with
  | [] => false
  | _ :: t => includes t sub
  end.

(** [s.split(sep)] for a separator of one code unit, the only use in
    the source ([split('\n')]). *)
Fixpoint split (s : jsstring) (sep : cu) : list jsstring :=
  match s with
  | [] => [[]]
  | a :: t =>
      if a =? sep then [] :: split t sep
      else match split t sep with
           | l :: ls => (a :: l) :: ls
           | [] => [[a]]
           end
  end.

(** Truthiness of a string: non-empty. *)
Definition truthy (s : jsstring) : bool :=
  match s with [] => false | _ => true end.

(** Decimal rendering of an integer, as template literals print it. *)
Fixpoint digits (fuel : nat) (n : N) (acc : jsstring) : jsstring :=
  match fuel with
  | O => acc
  | S f =>
      let acc' := (48 + n mod 10) :: acc in
      if n / 10 =? 0 then acc' else digits f (n / 10) acc'
  end.

Definition numberToString (z : Z) : jsstring :=
  match z with
  | Z0 => [48]
  | Zpos p => digits (S (N.to_nat (N.log2 (Npos p)))) (Npos p) []
  | Zneg p => 45 :: digits (S (N.to_nat (N.log2 (Npos p)))) (Npos p) []
  end.

End JS.

(** ** Regular expressions (ECMA-262, 22.2.2 Pattern Semantics)

    A backtracking matcher in continuation-passing style, as the
    standard defines it.  Only the constructs the source's patterns use
    are present: pattern characters, character classes with the class
    escapes [\s] and [\S], the assertions [^] and [$], sequence,
    disjunction, quantifiers (greedy and lazy) and capturing groups; a
    non-capturing group [(?: )] is plain nesting. *)

Module RegExp.

Inductive ClassAtom : Type :=
| CChar (c : cu)
| CWhite            (* \s *)
| CNonWhite.        (* \S *)

Inductive Regex : Type :=
| REmpty
| RChar (c : cu)
| RClass (invert : bool) (atoms : list ClassAtom)
| RBol              (* ^ *)
| REol              (* $ *)
| RSeq (a b : Regex)
| RAlt (a b : Regex)
| RQuant (a : Regex) (min : nat) (max : option nat) (greedy : bool)
| RGroup (n : nat) (a : Regex).

Record Flags : Type := mkFlags { ignoreCase : bool; multiline : bool }.

Record RegExpLiteral : Type := mkRegExp { source : Regex; flags : Flags }.

(** The position in the input is a zipper: the code units before the
    end index (latest first) and those from it on. *)
#[projections(primitive)]
Record MatchState : Type := mkState {
  consumed : jsstring;
  remaining : jsstring;
  captures : list (nat * jsstring)
}.

Definition MatchResult : Type := option MatchState.
Definition Continuation : Type := MatchState -> MatchResult.
Definition Matcher : Type := MatchState -> Continuation -> MatchResult.

(** Canonicalize, without the [u] flag.  Exact on ASCII; a code unit
    of 128 or more never canonicalizes to an ASCII one, so it is left
    as it is: the patterns of the source hold ASCII only. *)
Definition Canonicalize (fl : Flags) (c : cu) : cu :=
  if ignoreCase fl && (97 <=? c) && (c <=? 122) then c - 32 else c.

Definition atomMatches (fl : Flags) (a : ClassAtom) (c : cu) : bool :=
  match a with
  | CChar a => Canonicalize fl a =? Canonicalize fl c
  | CWhite => JS.isTrimmable c
  | CNonWhite => negb (JS.isTrimmable c)
  end.

Definition classMatches (fl : Flags) (invert : bool)
    (atoms : list ClassAtom) (c : cu) : bool :=
  xorb invert (existsb (fun a => atomMatches fl a c) atoms).

(** CharacterSetMatcher: consume one code unit satisfying [p]. *)
Definition CharacterSetMatcher (p : cu -> bool) : Matcher :=
  fun x c =>
    match remaining x with
    | [] => None
    | ch :: rest =>
        if p ch
        then c (mkState (ch :: consumed x) rest (captures x))
        else None
    end.

Definition atBol (fl : Flags) (x : MatchState) : bool :=
  match consumed x with
  | [] => true
  | ch :: _ => multiline fl && JS.isLineTerminator ch
  end.

Definition atEol (fl : Flags) (x : MatchState) : bool :=
  match remaining x with
  | [] => true
  | ch :: _ => multiline fl && JS.isLineTerminator ch
  end.

(** Group numbers inside a term, cleared at each iteration of a
    quantifier around it. *)
Fixpoint groups (r : Regex) : list nat :=
  match r with
  | RSeq a b | RAlt a b => groups a ++ groups b
  | RQuant a _ _ _ => groups a
  | RGroup n a => n :: groups a
  | _ => []
  end.

Definition clearCaptures (parens : list nat) (x : MatchState) : MatchState :=
  mkState (consumed x) (remaining x)
    (filter (fun p => p.1 ∉ parens) (captures x)).

Definition setCapture (n : nat) (x y : MatchState) : MatchState :=
  mkState (consumed y) (remaining y)
    ((n, take (length (remaining x) - length (remaining y)) (remaining x))
       :: captures y).

Definition isZero (n : nat) : bool := match n with O => true | _ => false end.

(** RepeatMatcher.  An iteration that consumes nothing once [min] is
    reached fails, so every further iteration shortens the remaining
    input: [min + length remaining + 1] rounds are enough, and the
    caller passes that many. *)
Fixpoint RepeatMatcher (m : Matcher) (parens : list nat) (fuel : nat)
    (min : nat) (max : option nat) (greedy : bool)
    (x : MatchState) (c : Continuation) {struct fuel} : MatchResult :=
  match fuel with
  | O => None
  | S fuel' =>
      match max with
      | Some O => c x
      | _ =>
          let d : Continuation := fun y =>
            if isZero min && (length (remaining y) =? length (remaining x))%nat
            then None
            else RepeatMatcher m parens fuel' (pred min) (pred <$> max)
                   greedy y c in
          let xr := clearCaptures parens x in
          if negb (isZero min) then m xr d
          else if negb greedy then
            match c x with
            | Some z => Some z
            | None => m xr d
            end
          else
            match m xr d with
            | Some z => Some z
            | None => c x
            end
      end
  end.

Fixpoint matcher (fl : Flags) (r : Regex) : Matcher :=
  fun x c =>
    match r with
    | REmpty => c x
    | RChar ch =>
        CharacterSetMatcher
          (fun a => Canonicalize fl ch =? Canonicalize fl a) x c
    | RClass invert atoms =>
        CharacterSetMatcher (classMatches fl invert atoms) x c
    | RBol => if atBol fl x then c x else None
    | REol => if atEol fl x then c x else None
    | RSeq a b => matcher fl a x (fun y => matcher fl b y c)
    | RAlt a b =>
        match matcher fl a x c with
        | Some z => Some z
        | None => matcher fl b x c
        end
    | RQuant a min max greedy =>
        RepeatMatcher (matcher fl a) (groups a)
          (min + length (remaining x) + 1) min max greedy x c
    | RGroup n a => matcher fl a x (fun y => c (setCapture n x y))
    end.

(** RegExpBuiltinExec for a regular expression without the [g] and
    [y] flags: try every start index from 0 on, leftmost first. *)
Fixpoint execFrom (re : RegExpLiteral) (before after : jsstring)
    : option (MatchState * MatchState) :=
  let x := mkState before after [] in
  match matcher (flags re) (source re) x Some with
  | Some y => Some (x, y)
  | None =>
      match after with
      | [] => None
      | ch :: rest => execFrom re (ch :: before) rest
      end
  end.

Definition lookupCapture (y : MatchState) (n : nat) : option jsstring :=
  snd <$> List.find (fun p => Nat.eqb (fst p) n) (captures y).

(** The result array: the matched substring, then one entry per
    capturing group ([None] is [undefined]). *)
Definition exec (re : RegExpLiteral) (s : jsstring)
    : option (list (option jsstring)) :=
  match execFrom re [] s with
  | None => None
  | Some (x, y) =>
      Some (Some (take (length (remaining x) - length (remaining y))
                    (remaining x))
            :: map (lookupCapture y) (seq 1 (length (groups (source re)))))
  end.

(** RegExp.prototype.test *)
Definition test (re : RegExpLiteral) (s : jsstring) : bool :=
  match exec re s with Some _ => true | None => false end.

(** String.prototype.match with a non-global regular expression. *)
Definition String_match (s : jsstring) (re : RegExpLiteral)
    : option (list (option jsstring)) :=
  exec re s.

(** Pattern text to syntax. *)
Fixpoint chars (s : string) : Regex :=
  match s with
  | EmptyString => REmpty
  | String a EmptyString => RChar (Ascii.N_of_ascii a)
  | String a s' => RSeq (RChar (Ascii.N_of_ascii a)) (chars s')
  end.

(** A disjunction of literal alternatives, [(?:a|b)]. *)
Fixpoint alts (ss : list string) : Regex :=
  match ss with
  | [] => REmpty
  | [s] => chars s
  | s :: ss' => RAlt (chars s) (alts ss')
  end.

Fixpoint cat (rs : list Regex) : Regex :=
  match rs with
  | [] => REmpty
  | [r] => r
  | r :: rs' => RSeq r (cat rs')
  end.

Definition star (r : Regex) : Regex := RQuant r 0 None true.
Definition plus (r : Regex) : Regex := RQuant r 1 None true.
Definition opt (r : Regex) : Regex := RQuant r 0 (Some 1%nat) true.
Definition lazyStar (r : Regex) : Regex := RQuant r 0 None false.

End RegExp.

(** ** JSON.parse (ECMA-262, 25.5.1; the grammar of ECMA-404)

    Only whether the text parses matters to the source, which discards
    the value: [JSON_parse_ok] is the recogniser of the JSON grammar. *)

Module JSON.

Definition isJSONWhiteSpace (c : cu) : bool :=
  (c =? 9) || (c =? 10) || (c =? 13) || (c =? 32).

Fixpoint skipWhiteSpace (s : jsstring) : jsstring :=
  match s with
  | [] => []
  | c :: t => if isJSONWhiteSpace c then skipWhiteSpace t else s
  end.

Definition isDigit (c : cu) : bool := (48 <=? c) && (c <=? 57).

Definition isHexDigit (c : cu) : bool :=
  isDigit c || ((65 <=? c) && (c <=? 70)) || ((97 <=? c) && (c <=? 102)).

Fixpoint skipDigits (s : jsstring) : jsstring :=
  match s with
  | [] => []
  | c :: t => if isDigit c then skipDigits t else s
  end.

(** One of the single-character escapes: quote, slash, backslash,
    b, f, n, r, t. *)
Definition isSimpleEscape (c : cu) : bool :=
  (c =? 34) || (c =? 47) || (c =? 92) || (c =? 98) || (c =? 102)
  || (c =? 110) || (c =? 114) || (c =? 116).

(** The rest of a JSONString after its opening quote; returns what
    follows the closing quote. *)
Fixpoint stringBody (s : jsstring) : option jsstring :=
  match s with
  | [] => None
  | c :: t =>
      if c =? 34 then Some t
      else if c =? 92 then
        match t with
        | [] => None
        | e :: t1 =>
            if isSimpleEscape e then stringBody t1
            else if e =? 117 then
              match t1 with
              | h1 :: h2 :: h3 :: h4 :: t2 =>
                  if isHexDigit h1 && isHexDigit h2
                     && isHexDigit h3 && isHexDigit h4
                  then stringBody t2 else None
              | _ => None
              end
            else None
        end
      else if c <? 32 then None
      else stringBody t
  end.

(** JSONFraction (optional) and ExponentPart (optional). *)
Definition fractionAndExponent (s : jsstring) : option jsstring :=
  let afterFraction :=
    match s with
    | c :: t =>
        if c =? 46 then
          match t with
          | d :: t1 => if isDigit d then Some (skipDigits t1) else None
          | [] => None
          end
        else Some s
    | [] => Some s
    end in
  match afterFraction with
  | None => None
  | Some s1 =>
      match s1 with
      | c :: t =>
          if (c =? 101) || (c =? 69) then
            let t1 := match t with
                      | g :: t' => if (g =? 43) || (g =? 45) then t' else t
                      | [] => t
                      end in
            match t1 with
            | d :: t2 => if isDigit d then Some (skipDigits t2) else None
            | [] => None
            end
          else Some s1
      | [] => Some s1
      end
  end.

Definition number (s : jsstring) : option jsstring :=
  let s1 := match s with
            | c :: t => if c =? 45 then t else s
            | [] => s
            end in
  match s1 with
  | [] => None
  | d :: t =>
      if d =? 48 then fractionAndExponent t
      else if isDigit d then fractionAndExponent (skipDigits t)
      else None
  end.

(** JSONValue, JSONMemberList and JSONElementList.  Of two calls in a
    row at least one consumes a code unit, so a budget of two calls per
    code unit, plus two, is never used up. *)
Fixpoint value (fuel : nat) (s : jsstring) {struct fuel} : option jsstring :=
  match fuel with
  | O => None
  | S f =>
      match s with
      | [] => None
      | c :: t =>
          if c =? 123 then
            match skipWhiteSpace t with
            | [] => None
            | c1 :: r => if c1 =? 125 then Some r else members f (c1 :: r)
            end
          else if c =? 91 then
            match skipWhiteSpace t with
            | [] => None
            | c1 :: r => if c1 =? 93 then Some r else elements f (c1 :: r)
            end
          else if c =? 34 then stringBody t
          else if JS.startsWith s (js "true") then Some (drop 4 s)
          else if JS.startsWith s (js "false") then Some (drop 5 s)
          else if JS.startsWith s (js "null") then Some (drop 4 s)
          else number s
      end
  end
with members (fuel : nat) (s : jsstring) {struct fuel} : option jsstring :=
  match fuel with
  | O => None
  | S f =>
      match s with
      | [] => None
      | q :: t =>
          if q =? 34 then
            match stringBody t with
            | None => None
            | Some r =>
                match skipWhiteSpace r with
                | [] => None
                | colon :: r1 =>
                    if colon =? 58 then
                      match value f (skipWhiteSpace r1) with
                      | None => None
                      | Some r2 =>
                          match skipWhiteSpace r2 with
                          | [] => None
                          | c :: r3 =>
                              if c =? 44 then members f (skipWhiteSpace r3)
                              else if c =? 125 then Some r3
                              else None
                          end
                      end
                    else None
                end
            end
          else None
      end
  end
with elements (fuel : nat) (s : jsstring) {struct fuel} : option jsstring :=
  match fuel with
  | O => None
  | S f =>
      match value f s with
      | None => None
      | Some r =>
          match skipWhiteSpace r with
          | [] => None
          | c :: r1 =>
              if c =? 44 then elements f (skipWhiteSpace r1)
              else if c =? 93 then Some r1
              else None
          end
      end
  end.

(** [true] when [JSON.parse s] returns, [false] when it throws a
    SyntaxError. *)
Definition JSON_parse_ok (s : jsstring) : bool :=
  match value (2 * length s + 2) (skipWhiteSpace s) with
  | None => false
  | Some r => match skipWhiteSpace r with [] => true | _ => false end
  end.

End JSON.

(** ** The response classifier (index.ts, detectDownloadableContent) *)

Module Classifier.
Import RegExp.

Record FileInfo : Type := mkFileInfo {
  hasFile : bool;
  content : jsstring;
  filename : jsstring;
  extension : jsstring;
  mimeType : jsstring;
  type : jsstring
}.

Record Pattern : Type := mkPattern {
  p_type : jsstring;
  p_pattern : RegExpLiteral;
  p_extension : jsstring;
  p_mimeType : jsstring
}.

(** [[\s\S]] *)
Definition anything : Regex := RClass false [CWhite; CNonWhite].

(** The literals of the table, with blanks added between the parts:
    ```<tag> \n ( [\s\S]*? ) \n ```   under the flag i. *)
Definition fence (tags : list string) : RegExpLiteral :=
  mkRegExp
    (cat [chars "```"; alts tags; RChar JS.LF;
          RGroup 1 (lazyStar anything);
          RChar JS.LF; chars "```"])
    (mkFlags true false).

Definition patterns : list Pattern :=
  [ mkPattern (js "csv") (fence ["csv"])
      (js "csv") (js "text/csv");
    mkPattern (js "json") (fence ["json"])
      (js "json") (js "application/json");
    mkPattern (js "xml") (fence ["xml"])
      (js "xml") (js "application/xml");
    mkPattern (js "txt") (fence ["txt"; "text"])
      (js "txt") (js "text/plain");
    mkPattern (js "sql") (fence ["sql"])
      (js "sql") (js "text/plain");
    mkPattern (js "python") (fence ["python"])
      (js "py") (js "text/plain");
    mkPattern (js "javascript") (fence ["javascript"; "js"])
      (js "js") (js "text/plain") ].

(** [[^,\n]] *)
Definition cell : Regex := RClass true [CChar JS.COMMA; CChar JS.LF].

(** The literal of the source, with blanks added between its parts:
    ^ [^,\n]+ (?: , [^,\n]+ )* \n (?: [^,\n]* (?: , [^,\n]* )* \n? )+ $
    under the flag m. *)
Definition csvLikePattern : RegExpLiteral :=
  mkRegExp
    (cat [RBol;
          plus cell;
          star (RSeq (RChar JS.COMMA) (plus cell));
          RChar JS.LF;
          plus (cat [star cell;
                     star (RSeq (RChar JS.COMMA) (star cell));
                     opt (RChar JS.LF)]);
          REol])
    (mkFlags false true).

(** The block that returns the csv artifact for CSV-like raw text. *)
Definition csvLikeRule (text : jsstring) : option FileInfo :=
  if test csvLikePattern (JS.trim text) && JS.includes text [JS.COMMA] then
    let lines := JS.split (JS.trim text) JS.LF in
    if (1 <? length lines)%nat
       && JS.includes (hd [] lines) [JS.COMMA]
    then Some (mkFileInfo true (JS.trim text) (js "analysis_result.csv")
                 (js "csv") (js "text/csv") (js "csv"))
    else None
  else None.

(** One round of the loop over [patterns]. *)
Definition tryPattern (text : jsstring) (p : Pattern) : option FileInfo :=
  match String_match text (p_pattern p) with
  | Some (_ :: Some m1 :: _) =>
      if JS.truthy m1 then
        Some (mkFileInfo true (JS.trim m1)
                (js "analysis_result." ++ p_extension p)
                (p_extension p) (p_mimeType p) (p_type p))
      else None
  | _ => None
  end.

(** The loop over [patterns]: the first round that returns. *)
Fixpoint codeBlockRule (text : jsstring) (ps : list Pattern) : option FileInfo :=
  match ps with
  | [] => None
  | p :: ps' =>
      match tryPattern text p with
      | Some fi => Some fi
      | None => codeBlockRule text ps'
      end
  end.

(** The try block around [JSON.parse]; a SyntaxError is caught and
    the function goes on to return null. *)
Definition bareJsonRule (text : jsstring) : option FileInfo :=
  let trimmed := JS.trim text in
  if (JS.startsWith trimmed (js "{") && JS.endsWith trimmed (js "}"))
     || (JS.startsWith trimmed (js "[") && JS.endsWith trimmed (js "]"))
  then
    if JSON.JSON_parse_ok trimmed then
      Some (mkFileInfo true trimmed (js "analysis_result.json")
              (js "json") (js "application/json") (js "json"))
    else None
  else None.

Definition detectDownloadableContent (text : jsstring) : option FileInfo :=
  if negb (JS.truthy text) then None
  else
    match csvLikeRule text with
    | Some fi => Some fi
    | None =>
        match codeBlockRule text patterns with
        | Some fi => Some fi
        | None => bareJsonRule text
        end
    end.

End Classifier.

(** ** The request handler (index.ts, the function given to serve) *)

Module EdgeFunction.
Import Classifier.

(** The JSON body of the request; an absent field is [None]. *)
Record AnalysisRequest : Type := mkAnalysisRequest {
  selectedFiles : list jsstring;
  prompt : jsstring;
  temperature : option Q;
  maxTokens : option Z;
  model : option jsstring
}.

Record Request : Type := mkRequest {
  method : jsstring;
  authorization : option jsstring;
  body : AnalysisRequest
}.

Record Message : Type := mkMessage { role : jsstring; msg_content : jsstring }.

(** [openAIRequestBody]; a property that is never assigned is [None]
    and is left out of the serialised body. *)
Record OpenAIRequestBody : Type := mkBody {
  b_model : jsstring;
  b_messages : list Message;
  b_max_completion_tokens : option Z;
  b_max_tokens : option Z;
  b_temperature : option Q
}.

(** The provider's reply, as far as the handler reads it. *)
Inductive Part : Type :=
| PartString (s : jsstring)
| PartObject (text : option jsstring) (content : option jsstring).

Inductive Content : Type :=
| ContentOther                       (* absent, or neither string nor array *)
| ContentString (s : jsstring)
| ContentArray (parts : list Part).

Record CompletionTokensDetails : Type := mkDetails {
  d_reasoning_tokens : option Z
}.

Record Usage : Type := mkUsage {
  input_tokens : option Z;
  prompt_tokens : option Z;
  output_tokens : option Z;
  completion_tokens : option Z;
  reasoning_tokens : option Z;
  completion_tokens_details : option CompletionTokensDetails;
  total_tokens : option Z
}.

Record ProviderData : Type := mkData {
  message_content : Content;        (* choices[0].message.content *)
  choice_content : Content;         (* choices[0].content *)
  output_text : option jsstring;
  usage : option Usage
}.

Record ProviderResponse : Type := mkProviderResponse {
  ok : bool;
  status : Z;
  errorText : jsstring;             (* response.text() of a failure *)
  data : ProviderData               (* response.json() of a success *)
}.

Record DownloadResult : Type := mkDownload {
  dl_data : option jsstring;
  dl_error : option jsstring
}.

(** What the handler reaches outside itself: the secrets, the auth
    service, the storage bucket csv-files (object path to text), the
    provider and the clock. *)
Record Env : Type := mkEnv {
  OPENAI_API_KEY : option jsstring;
  getUser : jsstring -> option jsstring;      (* user id, [None] on error *)
  bucket : gmap jsstring jsstring;
  openai : OpenAIRequestBody -> ProviderResponse;
  processingTime : Q                (* seconds, already rounded to 2 places *)
}.

Inductive Event : Type :=
| ConsoleError (about : jsstring)
| Fetch (body : OpenAIRequestBody).

Record Statistics : Type := mkStatistics {
  s_processingTime : Q;
  inputTokens : Z;
  outputTokens : Z;
  reasoningTokens : Z;
  totalTokens : Z;
  s_model : jsstring
}.

Record AnalysisResult : Type := mkResult {
  generatedText : jsstring;
  fileInfo : option FileInfo;
  statistics : Statistics
}.

Inductive Response : Type :=
| Preflight
| ErrorResponse (status : Z) (error : jsstring)
| ResultResponse (result : AnalysisResult).

(** [supabase.storage.from('csv-files').download(path)] *)
Definition download (env : Env) (path : jsstring) : DownloadResult :=
  match bucket env !! path with
  | Some text => mkDownload (Some text) None
  | None => mkDownload None (Some (js "Object not found"))
  end.

Definition farmDataPath (uid fileName : jsstring) : jsstring :=
  uid ++ js "/farm-data/" ++ fileName.

Definition certificationPath (uid fileName : jsstring) : jsstring :=
  uid ++ js "/certification-requirements/" ++ fileName.

Definition fileSection (fileName text : jsstring) : jsstring :=
  [JS.LF; JS.LF] ++ js "=== File: " ++ fileName ++ js " ===" ++ [JS.LF] ++ text.

(** The loop over [selectedFiles]; returns [fileContents] and the
    errors logged on the way. *)
Fixpoint readFiles (env : Env) (uid : jsstring) (names : list jsstring)
    (fileContents : jsstring) (log : list Event) : jsstring * list Event :=
  match names with
  | [] => (fileContents, log)
  | fileName :: rest =>
      let r1 := download env (farmDataPath uid fileName) in
      match dl_error r1 with
      | Some _ =>
          let result := download env (certificationPath uid fileName) in
          match dl_error result with
          | Some _ =>
              (* console.error; continue *)
              readFiles env uid rest fileContents
                (log ++ [ConsoleError fileName])
          | None =>
              match dl_data result with
              | Some text =>
                  readFiles env uid rest
                    (fileContents ++ fileSection fileName text) log
              | None => readFiles env uid rest fileContents log
              end
          end
      | None =>
          match dl_data r1 with
          | Some text =>
              readFiles env uid rest
                (fileContents ++ fileSection fileName text) log
          | None => readFiles env uid rest fileContents log
          end
      end
  end.

Definition fullPrompt (prompt fileContents : jsstring) : jsstring :=
  prompt ++ [JS.LF; JS.LF]
    ++ js "Here are the contents of the selected data files:" ++ [JS.LF]
    ++ fileContents ++ [JS.LF; JS.LF]
    ++ js "Please analyze this data according to the prompt above.".

Definition systemMessage : jsstring :=
  js "You are a helpful data analyst. Analyze the provided data files according to the user's prompt and provide detailed insights, patterns, and recommendations. Always provide a clear, concise response in your output.".

(** [s || d] on an optional string. *)
Definition orString (s : option jsstring) (d : jsstring) : jsstring :=
  match s with
  | Some v => if JS.truthy v then v else d
  | None => d
  end.

(** [n || d] on an optional integer. *)
Definition orInt (n : option Z) (d : Z) : Z :=
  match n with
  | Some v => if (v =? 0)%Z then d else v
  | None => d
  end.

(** [t || d] on an optional number. *)
Definition orNumber (t : option Q) (d : Q) : Q :=
  match t with
  | Some v => if Qeq_bool v 0 then d else v
  | None => d
  end.

Definition isGPT5OrNewer (model : option jsstring) : bool :=
  JS.includes (orString model []) (js "gpt-5")
  || JS.includes (orString model []) (js "o3")
  || JS.includes (orString model []) (js "o4")
  || JS.includes (orString model []) (js "gpt-4.1").

Definition buildRequestBody (req : AnalysisRequest) (fullPrompt : jsstring)
    : OpenAIRequestBody :=
  let model := orString (model req) (js "gpt-5-2025-08-07") in
  let messages := [ mkMessage (js "system") systemMessage;
                    mkMessage (js "user") fullPrompt ] in
  if isGPT5OrNewer (EdgeFunction.model req) then
    mkBody model messages
      (Some (Z.max (orInt (maxTokens req) 2000) 1000)) None None
  else
    mkBody model messages None
      (Some (orInt (maxTokens req) 2000))
      (Some (orNumber (temperature req) (7 # 10))).

(** [part => typeof part === 'string' ? part : (part?.text ?? part?.content ?? '')] *)
Definition partText (p : Part) : jsstring :=
  match p with
  | PartString s => s
  | PartObject (Some t) _ => t
  | PartObject None (Some c) => c
  | PartObject None None => []
  end.

Definition joinParts (parts : list Part) : jsstring :=
  concat (map partText parts).

Definition extractGeneratedText (d : ProviderData) : jsstring :=
  let generatedText :=
    match message_content d with
    | ContentString s => s
    | ContentArray parts => joinParts parts
    | ContentOther => []
    end in
  let generatedText :=
    if JS.truthy generatedText then generatedText
    else match choice_content d with
         | ContentString s => s
         | ContentArray parts => joinParts parts
         | ContentOther => generatedText
         end in
  if JS.truthy generatedText then generatedText
  else match output_text d with
       | Some s => s
       | None => generatedText
       end.

(** [a ?? b] *)
Definition nullish {A : Type} (a : option A) (b : A) : A :=
  match a with Some v => v | None => b end.

Definition emptyUsage : Usage := mkUsage None None None None None None None.

Definition normalizeUsage (u : option Usage) : Z * Z * Z * Z :=
  let usage := nullish u emptyUsage in
  let inputTokens :=
    nullish (input_tokens usage) (nullish (prompt_tokens usage) 0%Z) in
  let outputTokens :=
    nullish (output_tokens usage) (nullish (completion_tokens usage) 0%Z) in
  let reasoningTokens :=
    nullish (reasoning_tokens usage)
      (nullish (completion_tokens_details usage ≫= d_reasoning_tokens) 0%Z) in
  let totalTokens :=
    nullish (total_tokens usage) (inputTokens + outputTokens)%Z in
  (inputTokens, outputTokens, reasoningTokens, totalTokens).

Definition reasoningMessage (reasoningTokens : Z) (maxTokens : option Z) : jsstring :=
  js "The model completed internal reasoning using "
    ++ JS.numberToString reasoningTokens
    ++ js " tokens but produced no visible output. This suggests the max_completion_tokens ("
    ++ JS.numberToString (orInt maxTokens 2000)
    ++ js ") may be too low for this complex analysis. Try increasing to 4000+ tokens or simplifying your prompt.".

Definition emptyContentMessage : jsstring :=
  js "The model processed your request but returned empty content. Try rephrasing your prompt or increasing the max tokens setting.".

(** The check for empty content despite used tokens. *)
Definition substituteEmpty (generatedText : jsstring)
    (reasoningTokens outputTokens : Z) (maxTokens : option Z) : jsstring :=
  if negb (JS.truthy generatedText)
     && ((0 <? reasoningTokens)%Z || (0 <? outputTokens)%Z)
  then
    if (0 <? reasoningTokens)%Z
    then reasoningMessage reasoningTokens maxTokens
    else emptyContentMessage
  else generatedText.

(** Everything after a successful reply of the provider. *)
Definition assembleResult (env : Env) (req : AnalysisRequest)
    (sent : OpenAIRequestBody) (d : ProviderData) : AnalysisResult :=
  let generatedText := extractGeneratedText d in
  let '(inputTokens, outputTokens, reasoningTokens, totalTokens) :=
    normalizeUsage (usage d) in
  let generatedText :=
    substituteEmpty generatedText reasoningTokens outputTokens (maxTokens req) in
  let fileInfo := detectDownloadableContent generatedText in
  mkResult (JS.trim generatedText) fileInfo
    (mkStatistics (processingTime env) inputTokens outputTokens
       reasoningTokens totalTokens (b_model sent)).

(** The handler.  It returns the events it caused, in order, and its
    response.  The events are the console.error calls and the call of
    the provider; informational console.log calls are left out.  The
    request body is taken as parsed, and the responses are taken as
    built: the outer catch, which answers 500 when [req.json] or a
    [Response] constructor throws, is not part of the model. *)
Definition serve (env : Env) (req : Request) : list Event * Response :=
  if bool_decide (method req = js "OPTIONS") then ([], Preflight)
  else
    let r := body req in
    if negb (JS.truthy (orString (OPENAI_API_KEY env) [])) then
      ([], ErrorResponse 500
             (js "OpenAI API key not configured. Please add your OPENAI_API_KEY to Supabase Edge Functions secrets."))
    else
      match authorization req with
      | None => ([], ErrorResponse 401 (js "No authorization header"))
      | Some authHeader =>
          if negb (JS.truthy authHeader) then
            ([], ErrorResponse 401 (js "No authorization header"))
          else
            match getUser env authHeader with
            | None => ([], ErrorResponse 401 (js "Unauthorized"))
            | Some uid =>
                let '(fileContents, log) :=
                  readFiles env uid (selectedFiles r) [] [] in
                if negb (JS.truthy fileContents) then
                  (log, ErrorResponse 400
                          (js "No file contents could be read from the selected files"))
                else
                  let sent := buildRequestBody r (fullPrompt (prompt r) fileContents) in
                  let response := openai env sent in
                  if negb (ok response) then
                    (log ++ [Fetch sent; ConsoleError (errorText response)],
                     ErrorResponse (status response)
                       (js "OpenAI API error: "
                          ++ JS.numberToString (status response)
                          ++ js " - " ++ errorText response))
                  else
                    (log ++ [Fetch sent],
                     ResultResponse (assembleResult env r sent (data response)))
            end
      end.

Definition isFetch (e : Event) : bool :=
  match e with Fetch _ => true | _ => false end.

(** The provider calls among the events. *)
Definition providerCalls (events : list Event) : list Event :=
  List.filter isFetch events.

End EdgeFunction.

(** ** The page AnalyzeData (handleAnalyze, handleFileSelection) *)

Module Client.
Import EdgeFunction.

Record PageState : Type := mkPage {
  selectedFiles : list jsstring;
  prompt : jsstring;
  temperature : Q;
  maxTokens : Z;
  session : option jsstring         (* the bearer token the client attaches *)
}.

Inductive UiEvent : Type :=
| ToastError (msg : jsstring)
| ToastSuccess (msg : jsstring)
| Invoke (fn : jsstring) (body : AnalysisRequest).

(** The two guards of [handleAnalyze] and the call of the edge
    function; the state setters around it are left out. *)
Definition handleAnalyze (st : PageState) : list UiEvent :=
  if (length (selectedFiles st) =? 0)%nat then
    [ToastError (js "Please select at least one data file first")]
  else if negb (JS.truthy (JS.trim (prompt st))) then
    [ToastError (js "Please enter a prompt")]
  else
    [ToastSuccess (js "Analysis submitted!");
     Invoke (js "analyze-data")
       (mkAnalysisRequest (selectedFiles st) (prompt st)
          (Some (temperature st)) (Some (maxTokens st)) None)].

(** The requests that reach the edge function, and what it does with
    them. *)
Fixpoint dispatch (env : Env) (st : PageState) (evs : list UiEvent)
    : list (list Event * Response) :=
  match evs with
  | [] => []
  | Invoke _ body :: rest =>
      serve env (mkRequest (js "POST") (session st) body)
        :: dispatch env st rest
  | _ :: rest => dispatch env st rest
  end.

(** All server-side events caused by one click on Analyze. *)
Definition analyze (env : Env) (st : PageState) : list Event :=
  concat (map fst (dispatch env st (handleAnalyze st))).

(** [handleFileSelection]: the list [setSelectedFiles] leaves, from the
    list [prev] it is given. *)
Definition handleFileSelection (fileName : jsstring) (isSelected : bool)
    (prev : list jsstring) : list jsstring :=
  if isSelected then prev ++ [fileName]
  else filter (fun f => f <> fileName) prev.

(** The [onClick] of the row of a file,
    [handleFileSelection(file.name, !selectedFiles.includes(file.name))].
    The test reads [rendered], the value of [selectedFiles] in the
    render the handler was created in; the update is applied to
    [prev], the list the state holds when the update runs.  The two
    differ when another update was queued from the same render, as
    the [onCheckedChange] of the checkbox inside the row does. *)
Definition rowClick (fileName : jsstring) (rendered prev : list jsstring)
    : list jsstring :=
  handleFileSelection fileName (negb (bool_decide (fileName ∈ rendered))) prev.

End Client.

(** ** The handler of supabase/functions/analyze-data/index.ts

    The revision of the handler under the path the page invokes.  It
    reads no [model], always names gpt-5-2025-08-07, never sends a
    temperature, and has one message for an empty reply. *)

Module FixedModel.
Import EdgeFunction.

Record Statistics : Type := mkStatistics {
  s_processingTime : Q;
  inputTokens : Z;
  outputTokens : Z;
  reasoningTokens : Z;
  totalTokens : Z
}.

Record AnalysisResult : Type := mkResult {
  generatedText : jsstring;
  statistics : Statistics
}.

Inductive Response : Type :=
| Preflight
| ErrorResponse (status : Z) (error : jsstring)
| ResultResponse (result : AnalysisResult).

Definition buildRequestBody (req : AnalysisRequest) (fullPrompt : jsstring)
    : OpenAIRequestBody :=
  mkBody (js "gpt-5-2025-08-07")
    [ mkMessage (js "system") systemMessage;
      mkMessage (js "user") fullPrompt ]
    (Some (Z.max (orInt (maxTokens req) 2000) 1000)) None None.

Definition normalizeUsage (u : option Usage) : Z * Z * Z * Z :=
  let usage := nullish u emptyUsage in
  let inputTokens :=
    nullish (input_tokens usage) (nullish (prompt_tokens usage) 0%Z) in
  let outputTokens :=
    nullish (output_tokens usage) (nullish (completion_tokens usage) 0%Z) in
  let reasoningTokens := nullish (reasoning_tokens usage) 0%Z in
  let totalTokens :=
    nullish (total_tokens usage) (inputTokens + outputTokens)%Z in
  (inputTokens, outputTokens, reasoningTokens, totalTokens).

Definition emptyContentMessage : jsstring :=
  js "The analysis used reasoning tokens but did not produce visible output. This can happen with GPT-5 when all tokens are used for internal reasoning. Try increasing max tokens or simplifying your prompt.".

Definition substituteEmpty (generatedText : jsstring) (reasoningTokens : Z)
    : jsstring :=
  if negb (JS.truthy generatedText) && (0 <? reasoningTokens)%Z
  then emptyContentMessage
  else generatedText.

Definition assembleResult (env : Env) (d : ProviderData) : AnalysisResult :=
  let generatedText := extractGeneratedText d in
  let '(inputTokens, outputTokens, reasoningTokens, totalTokens) :=
    normalizeUsage (usage d) in
  let generatedText := substituteEmpty generatedText reasoningTokens in
  mkResult (JS.trim generatedText)
    (mkStatistics (processingTime env) inputTokens outputTokens
       reasoningTokens totalTokens).

(** The handler, with the events it caused; informational console.log
    calls are left out, as in [EdgeFunction.serve]. *)
Definition serve (env : Env) (req : Request) : list Event * Response :=
  if bool_decide (method req = js "OPTIONS") then ([], Preflight)
  else
    let r := body req in
    if negb (JS.truthy (orString (OPENAI_API_KEY env) [])) then
      ([], ErrorResponse 500
             (js "OpenAI API key not configured. Please add your OPENAI_API_KEY to Supabase Edge Functions secrets."))
    else
      match authorization req with
      | None => ([], ErrorResponse 401 (js "No authorization header"))
      | Some authHeader =>
          if negb (JS.truthy authHeader) then
            ([], ErrorResponse 401 (js "No authorization header"))
          else
            match getUser env authHeader with
            | None => ([], ErrorResponse 401 (js "Unauthorized"))
            | Some uid =>
                let '(fileContents, log) :=
                  readFiles env uid (selectedFiles r) [] [] in
                if negb (JS.truthy fileContents) then
                  (log, ErrorResponse 400
                          (js "No file contents could be read from the selected files"))
                else
                  let sent := buildRequestBody r (fullPrompt (prompt r) fileContents) in
                  let response := openai env sent in
                  if negb (ok response) then
                    (log ++ [Fetch sent; ConsoleError (errorText response)],
                     ErrorResponse (EdgeFunction.status response)
                       (js "OpenAI API error: "
                          ++ JS.numberToString (EdgeFunction.status response)
                          ++ js " - " ++ errorText response))
                  else
                    (log ++ [Fetch sent],
                     ResultResponse (assembleResult env (data response)))
            end
      end.

(** The requests of the page that reach this handler. *)
Fixpoint dispatch (env : Env) (st : Client.PageState) (evs : list Client.UiEvent)
    : list (list Event * Response) :=
  match evs with
  | [] => []
  | Client.Invoke _ body :: rest =>
      serve env (mkRequest (js "POST") (Client.session st) body)
        :: dispatch env st rest
  | _ :: rest => dispatch env st rest
  end.

(** All events this handler causes for one click on Analyze. *)
Definition analyze (env : Env) (st : Client.PageState) : list Event :=
  concat (map fst (dispatch env st (Client.handleAnalyze st))).

End FixedModel.

(** ** The component CSVUpload (handleUpload, handleDelete) *)

Module Upload.
Import EdgeFunction.

Inductive FileType : Type := FarmData | CertificationRequirements.

Definition folderName (t : FileType) : jsstring :=
  match t with
  | FarmData => js "farm-data"
  | CertificationRequirements => js "certification-requirements"
  end.

(** The chosen file, and an entry of the listing. *)
Record File : Type := mkFile { f_name : jsstring; f_text : jsstring }.
Record UploadedFile : Type := mkUploaded { u_name : jsstring; u_type : FileType }.

Inductive Toast : Type :=
| Success (msg : jsstring)
| Failure (msg : jsstring).

(** A code unit that stands for itself in the path of a URL: a
    letter, a digit, or one of [-], [.], [_]. *)
Definition isPlain (c : cu) : bool :=
  ((48 <=? c) && (c <=? 57)) || ((65 <=? c) && (c <=? 90))
  || ((97 <=? c) && (c <=? 122))
  || (c =? 45) || (c =? 46) || (c =? 95).

(** [storage.from('csv-files').upload(path, file)], called without
    upsert: an object already at the path is an error.  The object is
    stored under the path as given; that is what the storage service
    does for a path of plain code units and slashes (the client puts
    the path into a URL as it is, so a [#] or [?] would cut it). *)
Definition storageUpload (b : gmap jsstring jsstring) (path text : jsstring)
    : option (gmap jsstring jsstring) :=
  match b !! path with
  | Some _ => None
  | None => Some (<[ path := text ]> b)
  end.

(** [storage.from('csv-files').remove([path])] *)
Definition storageRemove (b : gmap jsstring jsstring) (path : jsstring)
    : gmap jsstring jsstring :=
  delete path b.

(** The template [user.id / fileType / Date.now() _ file.name]. *)
Definition uploadPath (uid : jsstring) (fileType : FileType) (now : Z)
    (name : jsstring) : jsstring :=
  uid ++ js "/" ++ folderName fileType ++ js "/"
    ++ JS.numberToString now ++ js "_" ++ name.

(** The name the listing of the folder shows for the object. *)
Definition objectName (now : Z) (name : jsstring) : jsstring :=
  JS.numberToString now ++ js "_" ++ name.

(** [handleUpload]: the bucket it leaves and the toast it shows;
    [user] is the signed-in user's id, [now] the value of Date.now(). *)
Definition handleUpload (b : gmap jsstring jsstring) (user : option jsstring)
    (file : option File) (fileType : FileType) (now : Z)
    : gmap jsstring jsstring * Toast :=
  match file with
  | None => (b, Failure (js "Please select a file first"))
  | Some f =>
      match user with
      | None => (b, Failure (js "Failed to upload file"))
      | Some uid =>
          match storageUpload b (uploadPath uid fileType now (f_name f)) (f_text f) with
          | None => (b, Failure (js "Failed to upload file"))
          | Some b' => (b', Success (js "File uploaded successfully!"))
          end
      end
  end.

(** [handleDelete] *)
Definition handleDelete (b : gmap jsstring jsstring) (user : option jsstring)
    (uploadedFile : UploadedFile) : gmap jsstring jsstring * Toast :=
  match user with
  | None => (b, Failure (js "You must be logged in to delete files"))
  | Some uid =>
      (storageRemove b
         (uid ++ js "/" ++ folderName (u_type uploadedFile) ++ js "/"
            ++ u_name uploadedFile),
       Success (js "File deleted successfully!"))
  end.

End Upload.

(** * Specifications *)

(** ** Reading a rendered number back *)

Module JSSpec.

(** The number a run of decimal digits stands for, after [a]. *)
Definition decimalValue (a : N) (ds : jsstring) : N :=
  fold_left (fun a d => 10 * a + (d - 48)) ds a.
End JSSpec.

(** ** Matches of a regular expression, without the order of trial *)

Module RegExpSpec.
Import RegExp.

(** One code unit satisfying [p] is consumed between [x] and [y]. *)
Definition Step (p : cu -> bool) (x y : MatchState) : Prop :=
  exists ch rest,
    remaining x = ch :: rest /\ p ch = true /\
    y = mkState (ch :: consumed x) rest (captures x).

(** Iterations of a quantified term, without their order of trial. *)
Inductive Rep (R : MatchState -> MatchState -> Prop) (parens : list nat)
    : nat -> option nat -> MatchState -> MatchState -> Prop :=
| Rep_done min max x :
    min = O \/ max = Some O ->
    Rep R parens min max x x
| Rep_step min max x y z :
    max <> Some O ->
    R (clearCaptures parens x) y ->
    (min = O -> length (remaining y) <> length (remaining x)) ->
    Rep R parens (pred min) (pred <$> max) y z ->
    Rep R parens min max x z.

(** [Matches fl r x y]: the term [r] can match from [x] to [y]. *)
Fixpoint Matches (fl : Flags) (r : Regex) (x y : MatchState) : Prop :=
  match r with
  | REmpty => y = x
  | RChar ch => Step (fun a => Canonicalize fl ch =? Canonicalize fl a) x y
  | RClass invert atoms => Step (classMatches fl invert atoms) x y
  | RBol => atBol fl x = true /\ y = x
  | REol => atEol fl x = true /\ y = x
  | RSeq a b => exists m, Matches fl a x m /\ Matches fl b m y
  | RAlt a b => Matches fl a x y \/ Matches fl b x y
  | RQuant a min max _ => Rep (Matches fl a) (groups a) min max x y
  | RGroup n a => exists y', Matches fl a x y' /\ y = setCapture n x y'
  end.
End RegExpSpec.

(** ** What the rules of the classifier accept *)

Module ClassifierSpec.
Import JS Classifier.

(** A code unit that may stand in a cell: neither comma nor line feed. *)
Definition isCell (c : cu) : bool := negb ((c =? JS.COMMA) || (c =? JS.LF)).

(** A line of one or more non-empty comma-separated cells. *)
Definition HeaderLine (line : jsstring) : Prop :=
  (JS.LF ∉ line) /\ Forall (fun f => f <> []) (JS.split line JS.COMMA).

(** The start of the text, or just after a line terminator. *)
Definition LineStart (pre : jsstring) : Prop :=
  pre = [] \/ exists p c, pre = p ++ [c] /\ JS.isLineTerminator c = true.

Definition HasHeaderLine (t : jsstring) : Prop :=
  exists pre line post,
    t = pre ++ line ++ JS.LF :: post /\ LineStart pre /\ HeaderLine line.

(** What the CSV-like rule accepts, on the trimmed text. *)
Definition CsvLike (t : jsstring) : Prop :=
  HasHeaderLine t /\
  (2 <= length (JS.split t JS.LF))%nat /\
  JS.COMMA ∈ hd [] (JS.split t JS.LF).

Definition csvArtifact (t : jsstring) : FileInfo :=
  mkFileInfo true t (js "analysis_result.csv") (js "csv") (js "text/csv") (js "csv").


Definition closingFence : jsstring := LF :: js "```".

(** The text up to the first line feed that a closing fence follows. *)
Fixpoint untilClosingFence (s : jsstring) : option jsstring :=
  if startsWith s closingFence then Some []
  else match s with
       | [] => None
       | ch :: t => cons ch <$> untilClosingFence t
       end.

Definition upper (c : cu) : cu :=
  if (97 <=? c) && (c <=? 122) then c - 32 else c.

Fixpoint startsWithIgnoreCase (s p : jsstring) : bool :=
  match p, s with
  | [], _ => true
  | a :: p', b :: s' => (upper a =? upper b) && startsWithIgnoreCase s' p'
  | _ :: _, [] => false
  end.

Definition opener (tag : string) : jsstring := js "```" ++ js tag ++ [LF].

(** The inner content of a block that opens at the very start of [s]
    under one of the tags. *)
Fixpoint blockAt (tags : list string) (s : jsstring) : option jsstring :=
  match tags with
  | [] => None
  | tag :: tags' =>
      match (if startsWithIgnoreCase s (opener tag)
             then untilClosingFence (drop (length (opener tag)) s)
             else None) with
      | Some inner => Some inner
      | None => blockAt tags' s
      end
  end.

(** The inner content of the leftmost block under one of the tags. *)
Fixpoint firstBlock (tags : list string) (s : jsstring) : option jsstring :=
  match blockAt tags s with
  | Some inner => Some inner
  | None =>
      match s with
      | [] => None
      | _ :: t => firstBlock tags t
      end
  end.

(** A block under one of the tags, with its inner content, stands in
    the text. *)
Definition HasBlock (tags : list string) (text inner : jsstring) : Prop :=
  exists pre tag tag' post,
    tag ∈ tags /\ map upper tag' = map upper (js tag) /\
    text = pre ++ js "```" ++ tag' ++ [LF] ++ inner ++ closingFence ++ post.


(** Rule 1 in the words of the specification: every line holds a
    comma, the text holds a comma, and there are two lines or more. *)
Definition SpecCsvLike (t : jsstring) : Prop :=
  Forall (fun line => COMMA ∈ line) (split t LF) /\
  COMMA ∈ t /\
  (2 <= length (split t LF))%nat.

Record FenceRule : Type := mkFenceRule {
  r_tags : list string;
  r_type : jsstring;
  r_extension : jsstring;
  r_mimeType : jsstring
}.

(** The tags in their order, with the kind, extension and MIME type
    of each. *)
Definition fenceRules : list FenceRule :=
  [ mkFenceRule ["csv"] (js "csv") (js "csv") (js "text/csv");
    mkFenceRule ["json"] (js "json") (js "json") (js "application/json");
    mkFenceRule ["xml"] (js "xml") (js "xml") (js "application/xml");
    mkFenceRule ["txt"; "text"] (js "txt") (js "txt") (js "text/plain");
    mkFenceRule ["sql"] (js "sql") (js "sql") (js "text/plain");
    mkFenceRule ["python"] (js "python") (js "py") (js "text/plain");
    mkFenceRule ["javascript"; "js"] (js "javascript") (js "js") (js "text/plain") ].

Definition patternOf (r : FenceRule) : Pattern :=
  mkPattern (r_type r) (fence (r_tags r)) (r_extension r) (r_mimeType r).

Definition blockArtifact (r : FenceRule) (inner : jsstring) : FileInfo :=
  mkFileInfo true (trim inner) (js "analysis_result." ++ r_extension r)
    (r_extension r) (r_mimeType r) (r_type r).

(** The leftmost block of the rule is missing or empty. *)
Definition NoContent (text : jsstring) (r : FenceRule) : Prop :=
  firstBlock (r_tags r) text = None \/ firstBlock (r_tags r) text = Some [].

Definition bracketed (t : jsstring) : bool :=
  (startsWith t (js "{") && endsWith t (js "}"))
  || (startsWith t (js "[") && endsWith t (js "]")).

Definition jsonArtifact (t : jsstring) : FileInfo :=
  mkFileInfo true t (js "analysis_result.json") (js "json")
    (js "application/json") (js "json").
End ClassifierSpec.

(** ** Auxiliary notions of the proofs *)

Module Aux.
Import JS RegExp Classifier ClassifierSpec.

(** The flags of the CSV-like pattern and of the fence patterns. *)
Definition csvFlags : Flags := mkFlags false true.
Definition fenceFlags : Flags := mkFlags true false.

(** The parts of the CSV-like pattern: a comma and the cell after it,
    the first line with its line feed, and one round of what follows. *)
Definition commaCells : Regex := RSeq (RChar COMMA) (plus cell).
Definition header : Regex := RSeq (plus cell) (RSeq (star commaCells) (RChar LF)).
Definition body : Regex :=
  RSeq (star cell) (RSeq (star (RSeq (RChar COMMA) (star cell))) (opt (RChar LF))).

(** A non-empty run of cell code units. *)
Definition CellRun (g : jsstring) : Prop :=
  g <> [] /\ Forall (fun c => isCell c = true) g.

(** The state [n] code units further on. *)
Definition advance (n : nat) (x : MatchState) : MatchState :=
  mkState (rev (take n (remaining x)) ++ consumed x) (drop n (remaining x)) (captures x).

(** A code unit that only matches itself when case is ignored. *)
Definition caseless (a : cu) : Prop := forall b, (upper a =? upper b) = (a =? b).

(** The lazy star over [[\s\S]]: the continuation is tried at every
    suffix in turn, the nearest first. *)
Fixpoint scan (K : Continuation) (bef rem : jsstring) : MatchResult :=
  match K (mkState bef rem []) with
  | Some z => Some z
  | None =>
      match rem with
      | [] => None
      | ch :: t => scan K (ch :: bef) t
      end
  end.

(** What the fence patterns do after the capturing group. *)
Definition closeK (x3 : MatchState) : Continuation :=
  fun y => matcher fenceFlags (RSeq (RChar LF) (chars "```")) (setCapture 1 x3 y) Some.

(** The first tag for which [f] answers. *)
Fixpoint firstTag {A : Type} (tags : list string) (f : string -> option A) : option A :=
  match tags with
  | [] => None
  | t :: ts => match f t with
               | Some z => Some z
               | None => firstTag ts f
               end
  end.
End Aux.

(** ** The handler, once the request is authenticated *)

Module ServeSpec.
Import EdgeFunction.

(** The text a file identifier resolves to: the farm-data object if
    there is one, else the certification-requirements object. *)
Definition resolve (env : Env) (uid name : jsstring) : option jsstring :=
  match bucket env !! farmDataPath uid name with
  | Some text => Some text
  | None => bucket env !! certificationPath uid name
  end.

(** A request that passes the checks made before any file is read. *)
Definition Authenticated (env : Env) (request : Request) (uid : jsstring) : Prop :=
  method request <> js "OPTIONS" /\
  (exists key, OPENAI_API_KEY env = Some key /\ key <> []) /\
  (exists header, authorization request = Some header /\ header <> [] /\
                  getUser env header = Some uid).

Definition noReadableContent : Response :=
  ErrorResponse 400 (js "No file contents could be read from the selected files").

Definition sections (env : Env) (uid : jsstring) (names : list jsstring) : jsstring :=
  concat (map (fun n => match resolve env uid n with
                        | Some text => fileSection n text
                        | None => []
                        end) names).

Definition skipped (env : Env) (uid : jsstring) (names : list jsstring) : list Event :=
  concat (map (fun n => match resolve env uid n with
                        | Some _ => []
                        | None => [ConsoleError n]
                        end) names).
(** The environment with another bucket. *)
Definition withBucket (env : Env) (b : gmap jsstring jsstring) : Env :=
  mkEnv (OPENAI_API_KEY env) (getUser env) b (openai env) (processingTime env).


(** The identifiers the model check looks for. *)
Definition markers : list string := ["gpt-5"; "o3"; "o4"; "gpt-4.1"].

(** The kinds of artifact: type, extension and MIME type. *)
Definition kinds : list (jsstring * jsstring * jsstring) :=
  [ (js "csv", js "csv", js "text/csv");
    (js "json", js "json", js "application/json");
    (js "xml", js "xml", js "application/xml");
    (js "txt", js "txt", js "text/plain");
    (js "sql", js "sql", js "text/plain");
    (js "python", js "py", js "text/plain");
    (js "javascript", js "js", js "text/plain") ].

(** A status that [new Response(body, { status })] accepts together
    with a body: 200 to 599, except the null-body statuses 204, 205
    and 304.  For any other status the constructor throws. *)
Definition admitsBody (status : Z) : bool :=
  (200 <=? status)%Z && (status <=? 599)%Z
  && negb (status =? 204)%Z && negb (status =? 205)%Z && negb (status =? 304)%Z.

(** Only code units that [trim] removes. *)
Definition Blank (s : jsstring) : Prop :=
  Forall (fun c => JS.isTrimmable c = true) s.
End ServeSpec.

(** ** The selection of files on the page *)

Module ClientSpec.
Import Client.

(** Calls [handleFileSelection(name, isSelected)], one after another,
    on the list the state holds. *)
Definition updates (calls : list (jsstring * bool)) (prev : list jsstring)
    : list jsstring :=
  foldl (fun acc c => handleFileSelection c.1 c.2 acc) prev calls.

(** The names selected by [calls] and not deselected by a later one,
    one entry per such selection, in the order of the selections. *)
Fixpoint surviving (calls : list (jsstring * bool)) : list jsstring :=
  match calls with
  | [] => []
  | (name, true) :: rest =>
      if bool_decide ((name, false) ∈ rest) then surviving rest
      else name :: surviving rest
  | (_, false) :: rest => surviving rest
  end.
End ClientSpec.

(** ** Sample environments and requests *)

Module Samples.
Import EdgeFunction Client.

Definition uid0 : jsstring := js "u1".
Definition token0 : jsstring := js "Bearer t".

Definition usage15 : Usage :=
  mkUsage None (Some 10%Z) None (Some 5%Z) None None None.

Definition usageReasoning : Usage :=
  mkUsage None (Some 10%Z) None (Some 42%Z) None
    (Some (mkDetails (Some 42%Z))) (Some 52%Z).

Definition reply (text : jsstring) (u : Usage) : ProviderResponse :=
  mkProviderResponse true 200 []
    (mkData (ContentString text) ContentOther None (Some u)).

(** Both folders hold a.csv; b.csv is in the requirements folder
    only; a.csv was stored first. *)
Definition bucket0 : gmap jsstring jsstring :=
  <[ certificationPath uid0 (js "b.csv") := js "x,y" ]>
    (<[ certificationPath uid0 (js "a.csv") := js "old" ]>
       (<[ farmDataPath uid0 (js "a.csv") := js "k,v" ]> ∅)).

Definition env0 (r : ProviderResponse) : Env :=
  mkEnv (Some (js "sk-test"))
    (fun h => if bool_decide (h = token0) then Some uid0 else None)
    bucket0 (fun _ => r) (1 # 2).

Definition post (b : AnalysisRequest) : Request :=
  mkRequest (js "POST") (Some token0) b.

Definition page0 (files : list jsstring) (prompt : jsstring) : PageState :=
  mkPage files prompt (7 # 10) 1000 (Some token0).
End Samples.

(** * Theorems *)

Section RegExpTheory.
Import RegExp RegExpSpec.

(** *** The quantifier, over any matcher that follows a relation *)

Section Repeat.
Variable m : Matcher.
Variable R : MatchState -> MatchState -> Prop.
Variable parens : list nat.

Hypothesis m_sound :
  forall x c z, m x c = Some z -> exists y, R x y /\ c y = Some z.
Hypothesis m_complete :
  forall x y c, R x y -> is_Some (c y) -> is_Some (m x c).
Hypothesis R_length :
  forall x y, R x y -> (length (remaining y) <= length (remaining x))%nat.

Lemma Repeat_sound : forall fuel min max g x c z,
  RepeatMatcher m parens fuel min max g x c = Some z ->
  exists y, Rep R parens min max x y /\ c y = Some z.
Proof.
  induction fuel as [|fuel IH]; intros min max g x c z H; [discriminate|].
  simpl in H.
  assert (Hstop : c x = Some z -> min = O \/ max = Some O ->
                  exists y, Rep R parens min max x y /\ c y = Some z).
  { intros Hc Hz. exists x. split; [by constructor|done]. }
  assert (Hiter : max <> Some O ->
    m (clearCaptures parens x)
      (fun y => if isZero min && (length (remaining y) =? length (remaining x))%nat
                then None
                else RepeatMatcher m parens fuel (pred min) (pred <$> max) g y c)
      = Some z ->
    exists y, Rep R parens min max x y /\ c y = Some z).
  { intros Hmax Hit. apply m_sound in Hit as (y & HR & Hd).
    destruct (isZero min && (length (remaining y) =? length (remaining x))%nat) eqn:E;
      [discriminate|].
    apply IH in Hd as (y' & Hrep & Hc). exists y'. split; [|done].
    eapply Rep_step; eauto.
    intros ->. simpl in E. apply Nat.eqb_neq in E. done. }
  destruct max as [[|k]|]; [apply Hstop; auto | |];
    (destruct (isZero min) eqn:Emin; simpl in H;
     [|apply Hiter; [done|exact H]]);
    (destruct min; [|discriminate]); destruct g; simpl in H.
  - destruct (m _ _) eqn:E1 in H.
    + inversion H; subst. apply Hiter; [done|exact E1].
    + apply Hstop; auto.
  - destruct (c x) eqn:E1.
    + inversion H; subst. apply Hstop; auto.
    + apply Hiter; [done|exact H].
  - destruct (m _ _) eqn:E1 in H.
    + inversion H; subst. apply Hiter; [done|exact E1].
    + apply Hstop; auto.
  - destruct (c x) eqn:E1.
    + inversion H; subst. apply Hstop; auto.
    + apply Hiter; [done|exact H].
Qed.

Lemma Repeat_complete : forall min max x y,
  Rep R parens min max x y ->
  forall fuel g c,
    (min + length (remaining x) < fuel)%nat ->
    is_Some (c y) ->
    is_Some (RepeatMatcher m parens fuel min max g x c).
Proof.
  intros min max x y Hrep.
  induction Hrep as [min max x Hz | min max x y z Hmax HR Hne Hrep IH];
    intros fuel g c Hfuel Hc; (destruct fuel as [|fuel]; [lia|]); simpl.
  - destruct max as [[|k]|]; [done| |];
      (destruct Hz as [-> | ?]; [|done]); simpl; destruct g; simpl;
      first [by destruct (m _ _) | by destruct (c x)].
  - pose proof (R_length _ _ HR) as Hle.
    change (remaining (clearCaptures parens x)) with (remaining x) in Hle.
    assert (Hiter : is_Some (m (clearCaptures parens x)
      (fun y => if isZero min && (length (remaining y) =? length (remaining x))%nat
                then None
                else RepeatMatcher m parens fuel (pred min) (pred <$> max) g y c))).
    { eapply m_complete; [exact HR|]. simpl.
      destruct min as [|min']; simpl.
      - specialize (Hne eq_refl). pose proof Hne as Hne'.
        apply Nat.eqb_neq in Hne'. rewrite Hne'.
        apply IH; [simpl; lia | done].
      - apply IH; [simpl; lia | done]. }
    destruct max as [[|k]|]; [done| |];
      (destruct (isZero min); simpl; [|done]); destruct g; simpl;
      first [ destruct (m _ _); [done|]; by destruct Hiter
            | by destruct (c x) ].
Qed.

Lemma Rep_length : forall min max x y,
  Rep R parens min max x y ->
  (length (remaining y) <= length (remaining x))%nat.
Proof.
  intros min max x y H. induction H as [|min max x y z _ HR _ _ IH]; [done|].
  apply R_length in HR. simpl in HR. lia.
Qed.
End Repeat.

(** *** The matcher of a term *)

Lemma Matches_length fl r : forall x y,
  Matches fl r x y -> (length (remaining y) <= length (remaining x))%nat.
Proof.
  induction r as [|ch|inv atoms| | |a IHa b IHb|a IHa b IHb|a IHa min max g|n a IHa];
    intros x y H; simpl in H.
  - by subst.
  - destruct H as (c & rest & Hx & _ & ->). rewrite Hx. simpl. lia.
  - destruct H as (c & rest & Hx & _ & ->). rewrite Hx. simpl. lia.
  - by destruct H as [_ ->].
  - by destruct H as [_ ->].
  - destruct H as (m & H1 & H2). apply IHa in H1. apply IHb in H2. lia.
  - destruct H as [H|H]; auto.
  - eapply Rep_length; eauto.
  - destruct H as (y' & H & ->). apply IHa in H. done.
Qed.

Lemma CharacterSetMatcher_sound p x c z :
  CharacterSetMatcher p x c = Some z -> exists y, Step p x y /\ c y = Some z.
Proof.
  unfold CharacterSetMatcher, Step. destruct (remaining x) as [|ch rest] eqn:E; [done|].
  destruct (p ch) eqn:Ep; [|done]. intros H. eexists. split; [|exact H]. eauto.
Qed.

Lemma CharacterSetMatcher_complete p x y c :
  Step p x y -> is_Some (c y) -> is_Some (CharacterSetMatcher p x c).
Proof.
  intros (ch & rest & Hx & Hp & ->) Hc. unfold CharacterSetMatcher.
  rewrite Hx, Hp. done.
Qed.

(** The matcher only succeeds along a match of the term... *)
Theorem matcher_sound fl r : forall x c z,
  matcher fl r x c = Some z -> exists y, Matches fl r x y /\ c y = Some z.
Proof.
  induction r as [|ch|inv atoms| | |a IHa b IHb|a IHa b IHb|a IHa min max g|n a IHa];
    intros x c z H; simpl in H |- *.
  - eauto.
  - by apply CharacterSetMatcher_sound.
  - by apply CharacterSetMatcher_sound.
  - destruct (atBol fl x) eqn:E; [|done]. eauto.
  - destruct (atEol fl x) eqn:E; [|done]. eauto.
  - apply IHa in H as (m & Ha & H). apply IHb in H as (y & Hb & H). eauto.
  - destruct (matcher fl a x c) eqn:E.
    + inversion H; subst. apply IHa in E as (y & ? & ?). eauto.
    + apply IHb in H as (y & ? & ?). eauto.
  - eapply Repeat_sound; eauto.
  - apply IHa in H as (y & Ha & H). eauto.
Qed.

(** ... and succeeds whenever some match of the term lets the
    continuation succeed. *)
Theorem matcher_complete fl r : forall x y c,
  Matches fl r x y -> is_Some (c y) -> is_Some (matcher fl r x c).
Proof.
  induction r as [|ch|inv atoms| | |a IHa b IHb|a IHa b IHb|a IHa min max g|n a IHa];
    intros x y c H Hc; simpl in H |- *.
  - by subst.
  - by eapply CharacterSetMatcher_complete.
  - by eapply CharacterSetMatcher_complete.
  - destruct H as [-> ->]. done.
  - destruct H as [-> ->]. done.
  - destruct H as (m & Ha & Hb). eapply IHa; [exact Ha|]. simpl. eapply IHb; eauto.
  - destruct (matcher fl a x c) eqn:E; [done|].
    destruct H as [H|H].
    + eapply IHa in H; [|exact Hc]. rewrite E in H. by destruct H.
    + eapply IHb; eauto.
  - eapply Repeat_complete; eauto using Matches_length. lia.
  - destruct H as (y' & Ha & ->). eapply IHa; [exact Ha|]. done.
Qed.

Lemma execFrom_Some re : forall after before,
  is_Some (execFrom re before after) <->
  exists pre post y,
    after = pre ++ post /\
    Matches (flags re) (source re) (mkState (rev pre ++ before) post []) y.
Proof.
  induction after as [|ch rest IH]; intros before; simpl.
  - destruct (matcher _ _ _ _) eqn:E.
    + split; [intros _|done]. apply matcher_sound in E as (y & Hy & _).
      exists [], [], y. done.
    + split; [by intros []|]. intros (pre & post & y & Heq & Hm).
      symmetry in Heq. apply app_eq_nil in Heq as [-> ->]. simpl in Hm.
      eapply matcher_complete with (c := Some) in Hm; [|done].
      rewrite E in Hm. done.
  - destruct (matcher _ _ _ _) eqn:E.
    + split; [intros _|done]. apply matcher_sound in E as (y & Hy & _).
      exists [], (ch :: rest), y. done.
    + rewrite IH. split.
      * intros (pre & post & y & -> & Hm). exists (ch :: pre), post, y.
        split; [done|]. simpl. by rewrite <- app_assoc.
      * intros (pre & post & y & Heq & Hm). destruct pre as [|c pre].
        -- simpl in *. subst post.
           eapply matcher_complete with (c := Some) in Hm; [|done].
           rewrite E in Hm. by destruct Hm.
        -- simpl in Heq. inversion Heq; subst. exists pre, post, y.
           split; [done|]. simpl in Hm. by rewrite <- app_assoc in Hm.
Qed.

(** [test] is true exactly when the term matches from some index. *)
Theorem test_true re s :
  test re s = true <->
  exists pre post y,
    s = pre ++ post /\
    Matches (flags re) (source re) (mkState (rev pre) post []) y.
Proof.
  unfold test, exec. pose proof (execFrom_Some re s []) as H.
  setoid_rewrite app_nil_r in H. rewrite <- H.
  destruct (execFrom re [] s) as [[x y]|]; split; try done.
Qed.
End RegExpTheory.

Section JSTheory.
Import JS.

Lemma startsWith_app s p : startsWith (p ++ s) p = true.
Proof. induction p as [|a p IH]; simpl; [by destruct s|]. rewrite N.eqb_refl. exact IH. Qed.

Lemma startsWith_true s p : startsWith s p = true <-> exists r, s = p ++ r.
Proof.
  revert s. induction p as [|a p IH]; intros s; simpl.
  - split; [eauto|by destruct s].
  - destruct s as [|b s]; simpl; [split; [done|intros [r Hr]; done]|].
    rewrite andb_true_iff, N.eqb_eq, IH. split.
    + intros [-> [r ->]]. eauto.
    + intros [r Hr]. inversion Hr; subst. eauto.
Qed.

Lemma includes_singleton s c : includes s [c] = true <-> c ∈ s.
Proof.
  induction s as [|a s IH]; simpl.
  - split; [done|]. intros H. by apply elem_of_nil in H.
  - rewrite orb_true_iff, IH, andb_true_iff, N.eqb_eq, elem_of_cons.
    destruct s; simpl; intuition auto.
Qed.

Lemma split_nonempty s sep : split s sep <> [].
Proof.
  destruct s as [|a s]; simpl; [done|].
  destruct (a =? sep); [done|]. destruct (split s sep); done.
Qed.

(** Splitting and joining again. *)
Lemma split_join s sep :
  exists h t, split s sep = h :: t /\
              s = h ++ concat (map (cons sep) t) /\
              Forall (fun f => sep ∉ f) (h :: t).
Proof.
  induction s as [|a s (h & t & Hs & Hj & Hf)]; simpl.
  - exists [], []. split; [done|]. split; [done|].
    repeat constructor. apply not_elem_of_nil.
  - destruct (a =? sep) eqn:E.
    + apply N.eqb_eq in E. subst a. exists [], (h :: t). rewrite Hs.
      split; [done|]. split; [simpl; by rewrite <- Hj|].
      constructor; [apply not_elem_of_nil|done].
    + rewrite Hs. exists (a :: h), t. split; [done|]. split; [simpl; by rewrite <- Hj|].
      inversion Hf; subst. constructor; [|done].
      apply N.eqb_neq in E. rewrite elem_of_cons. intros [?|?]; done.
Qed.

Lemma split_of_join sep h t :
  sep ∉ h -> Forall (fun f => sep ∉ f) t ->
  split (h ++ concat (map (cons sep) t)) sep = h :: t.
Proof.
  revert h. induction t as [|g t IH]; intros h Hh Ht.
  - simpl. rewrite app_nil_r. induction h as [|a h IHh]; simpl; [done|].
    rewrite not_elem_of_cons in Hh. destruct Hh as [Hne Hh].
    apply not_eq_sym, N.eqb_neq in Hne. rewrite Hne, IHh; done.
  - inversion Ht; subst. induction h as [|a h IHh]; simpl.
    + rewrite N.eqb_refl. f_equal. by apply IH.
    + rewrite not_elem_of_cons in Hh. destruct Hh as [Hne Hh].
      apply not_eq_sym, N.eqb_neq in Hne. rewrite Hne.
      simpl in IHh. rewrite IHh; done.
Qed.

Lemma trimStart_suffix s : exists p, s = p ++ trimStart s.
Proof.
  induction s as [|a s [p Hp]]; simpl; [by exists []|].
  destruct (isTrimmable a); [|by exists []].
  exists (a :: p). simpl. by f_equal.
Qed.

Lemma trim_infix s : exists p q, s = p ++ trim s ++ q.
Proof.
  unfold trim, trimEnd. destruct (trimStart_suffix s) as [p Hp].
  destruct (trimStart_suffix (rev (trimStart s))) as [q Hq].
  exists p, (rev q). rewrite <- rev_app_distr, <- Hq, rev_involutive. done.
Qed.

Lemma elem_of_trim c s : c ∈ trim s -> c ∈ s.
Proof.
  destruct (trim_infix s) as (p & q & Hs). intros H. rewrite Hs.
  rewrite !elem_of_app. auto.
Qed.
End JSTheory.

Section NumberTheory.
Import JS JSSpec.

Lemma digits_value : forall f n acc,
  n < 10 ^ N.of_nat f ->
  decimalValue 0 (digits f n acc) = decimalValue n acc.
Proof.
  induction f as [|f IH]; intros n acc Hn.
  - simpl in Hn. assert (n = 0) as -> by lia. done.
  - cbn [digits]. pose proof (N.div_mod n 10 ltac:(done)) as Hdm.
    destruct (n / 10 =? 0) eqn:E.
    + apply N.eqb_eq in E. unfold decimalValue. cbn [fold_left].
      f_equal. rewrite E, N.mul_0_r, N.add_0_l in Hdm.
      rewrite N.mul_0_r, N.add_0_l, N.add_comm, N.add_sub. done.
    + rewrite IH.
      * unfold decimalValue. cbn [fold_left]. f_equal.
        rewrite (N.add_comm 48), N.add_sub. done.
      * rewrite Nat2N.inj_succ, N.pow_succ_r' in Hn.
        apply N.Div0.div_lt_upper_bound. lia.
Qed.

(** The rendering of a positive integer reads back as that integer. *)
Lemma numberToString_value p :
  decimalValue 0 (numberToString (Zpos p)) = Npos p.
Proof.
  unfold numberToString. rewrite digits_value; [done|].
  rewrite Nat2N.inj_succ, N2Nat.id.
  pose proof (N.log2_spec (Npos p) ltac:(done)) as [_ Hlt].
  eapply N.lt_le_trans; [exact Hlt|].
  apply N.pow_le_mono_l. lia.
Qed.
End NumberTheory.

Section JSONTheory.
Import JSON.

Lemma skipWhiteSpace_length s : (length (skipWhiteSpace s) <= length s)%nat.
Proof.
  induction s as [|c t IH]; simpl; [done|].
  destruct (isJSONWhiteSpace c); simpl; lia.
Qed.

Lemma skipDigits_length s : (length (skipDigits s) <= length s)%nat.
Proof.
  induction s as [|c t IH]; simpl; [done|].
  destruct (isDigit c); simpl; lia.
Qed.

Lemma stringBody_length : forall n s r,
  (length s <= n)%nat -> stringBody s = Some r -> (length r < length s)%nat.
Proof.
  induction n as [|n IH]; intros s r Hn H.
  - destruct s; [done | simpl in Hn; lia].
  - destruct s as [|c t]; [done|]. cbn [stringBody] in H. simpl in Hn.
    destruct (c =? 34).
    { inversion H; subst. simpl. lia. }
    destruct (c =? 92).
    + destruct t as [|e t1]; [done|]. simpl in Hn.
      destruct (isSimpleEscape e).
      { apply IH in H; simpl; lia. }
      destruct (e =? 117); [|done].
      destruct t1 as [|h1 [|h2 [|h3 [|h4 t2]]]]; try done.
      destruct (_ && _); [|done]. simpl in Hn. apply IH in H; simpl; lia.
    + destruct (c <? 32); [done|]. apply IH in H; simpl; lia.
Qed.

Lemma fractionAndExponent_length s r :
  fractionAndExponent s = Some r -> (length r <= length s)%nat.
Proof.
  unfold fractionAndExponent. intros H.
  remember (match s with [] => _ | _ => _ end) as o eqn:Eo in H.
  assert (Hfrac : forall s1, o = Some s1 -> (length s1 <= length s)%nat).
  { intros s1 Hs1. subst o. destruct s as [|c t]; [by inversion Hs1|].
    destruct (c =? 46).
    - destruct t as [|d t1]; [done|]. destruct (isDigit d); [|done].
      inversion Hs1; subst. pose proof (skipDigits_length t1). simpl. lia.
    - by inversion Hs1. }
  clear Eo. destruct o as [s1|]; [|done].
  specialize (Hfrac s1 eq_refl).
  destruct s1 as [|c t]; [inversion H; subst; simpl in *; lia|].
  destruct ((c =? 101) || (c =? 69)).
  - remember (match t with [] => _ | _ => _ end) as t1 eqn:Et1.
    assert (Ht1 : (length t1 <= length t)%nat).
    { subst t1. destruct t as [|g t']; [done|]. destruct (_ || _); simpl; lia. }
    clear Et1. destruct t1 as [|d t2]; [done|].
    destruct (isDigit d); [|done]. inversion H; subst.
    pose proof (skipDigits_length t2). simpl in *. lia.
  - inversion H; subst. done.
Qed.

Lemma number_length s r : number s = Some r -> (length r < length s)%nat.
Proof.
  unfold number. intros H.
  remember (match s with [] => _ | _ => _ end) as s1 eqn:Es1.
  assert (Hs1 : (length s1 <= length s)%nat).
  { subst s1. destruct s as [|c t]; [done|]. destruct (c =? 45); simpl; lia. }
  clear Es1. destruct s1 as [|d t]; [done|].
  simpl in Hs1. destruct (d =? 48).
  - apply fractionAndExponent_length in H. lia.
  - destruct (isDigit d); [|done]. apply fractionAndExponent_length in H.
    pose proof (skipDigits_length t). lia.
Qed.

Lemma startsWith_length s p : JS.startsWith s p = true -> (length p <= length s)%nat.
Proof.
  revert s. induction p as [|a p IH]; intros s H; [simpl; lia|].
  destruct s as [|b s]; [done|]. simpl in H. apply andb_true_iff in H as [_ H].
  apply IH in H. simpl. lia.
Qed.

(** Every construct consumes at least one code unit. *)
Lemma consumes : forall f,
  (forall s r, value f s = Some r -> (length r < length s)%nat) /\
  (forall s r, members f s = Some r -> (length r < length s)%nat) /\
  (forall s r, elements f s = Some r -> (length r < length s)%nat).
Proof.
  induction f as [|f (IHv & IHm & IHe)]; [by repeat split|].
  split; [|split]; intros s r H.
  - cbn [value] in H. destruct s as [|c t]; [done|].
    destruct (c =? 123).
    { pose proof (skipWhiteSpace_length t).
      destruct (skipWhiteSpace t) as [|c1 r1]; [done|].
      destruct (c1 =? 125).
      - inversion H; subst. simpl in *. lia.
      - apply IHm in H. simpl in *. lia. }
    destruct (c =? 91).
    { pose proof (skipWhiteSpace_length t).
      destruct (skipWhiteSpace t) as [|c1 r1]; [done|].
      destruct (c1 =? 93).
      - inversion H; subst. simpl in *. lia.
      - apply IHe in H. simpl in *. lia. }
    destruct (c =? 34).
    { apply (stringBody_length (length t)) in H; simpl; lia. }
    destruct (JS.startsWith (c :: t) (js "true")) eqn:E1.
    { inversion H; subst. apply startsWith_length in E1.
      rewrite length_drop. simpl in *. lia. }
    destruct (JS.startsWith (c :: t) (js "false")) eqn:E2.
    { inversion H; subst. apply startsWith_length in E2.
      rewrite length_drop. simpl in *. lia. }
    destruct (JS.startsWith (c :: t) (js "null")) eqn:E3.
    { inversion H; subst. apply startsWith_length in E3.
      rewrite length_drop. simpl in *. lia. }
    by apply number_length.
  - cbn [members] in H. destruct s as [|q t]; [done|].
    destruct (q =? 34); [|done].
    destruct (stringBody t) as [r0|] eqn:Es; [|done].
    apply (stringBody_length (length t)) in Es; [|lia].
    pose proof (skipWhiteSpace_length r0).
    destruct (skipWhiteSpace r0) as [|colon r1]; [done|].
    destruct (colon =? 58); [|done].
    pose proof (skipWhiteSpace_length r1).
    destruct (value f (skipWhiteSpace r1)) as [r2|] eqn:Ev; [|done].
    apply IHv in Ev. pose proof (skipWhiteSpace_length r2).
    destruct (skipWhiteSpace r2) as [|c r3]; [done|].
    pose proof (skipWhiteSpace_length r3).
    destruct (c =? 44).
    + apply IHm in H. simpl in *. lia.
    + destruct (c =? 125); [|done]. inversion H; subst. simpl in *. lia.
  - cbn [elements] in H.
    destruct (value f s) as [r0|] eqn:Ev; [|done]. apply IHv in Ev.
    pose proof (skipWhiteSpace_length r0).
    destruct (skipWhiteSpace r0) as [|c r1]; [done|].
    pose proof (skipWhiteSpace_length r1).
    destruct (c =? 44).
    + apply IHe in H. simpl in *. lia.
    + destruct (c =? 93); [|done]. inversion H; subst. simpl in *. lia.
Qed.

(** With two rounds per code unit the budget is never used up: more
    fuel gives the same answer. *)
Lemma fuel_enough : forall f,
  (forall s f', (2 * length s + 1 <= f)%nat -> (2 * length s + 1 <= f')%nat ->
                value f s = value f' s) /\
  (forall s f', (2 * length s + 2 <= f)%nat -> (2 * length s + 2 <= f')%nat ->
                members f s = members f' s) /\
  (forall s f', (2 * length s + 2 <= f)%nat -> (2 * length s + 2 <= f')%nat ->
                elements f s = elements f' s).
Proof.
  induction f as [|f (IHv & IHm & IHe)]; [repeat split; intros; lia|].
  split; [|split]; intros s [|f'] Hf Hf'; try lia.
  - cbn [value]. destruct s as [|c t]; [done|]. simpl in Hf, Hf'.
    destruct (c =? 123).
    { pose proof (skipWhiteSpace_length t).
      destruct (skipWhiteSpace t) as [|c1 r1]; [done|].
      destruct (c1 =? 125); [done|]. apply IHm; simpl in *; lia. }
    destruct (c =? 91); [|done].
    pose proof (skipWhiteSpace_length t).
    destruct (skipWhiteSpace t) as [|c1 r1]; [done|].
    destruct (c1 =? 93); [done|]. apply IHe; simpl in *; lia.
  - cbn [members]. destruct s as [|q t]; [done|]. simpl in Hf, Hf'.
    destruct (q =? 34); [|done].
    destruct (stringBody t) as [r0|] eqn:Es; [|done].
    apply (stringBody_length (length t)) in Es; [|lia].
    pose proof (skipWhiteSpace_length r0).
    destruct (skipWhiteSpace r0) as [|colon r1]; [done|].
    destruct (colon =? 58); [|done].
    pose proof (skipWhiteSpace_length r1).
    rewrite (IHv (skipWhiteSpace r1) f') by (simpl in *; lia).
    destruct (value f' (skipWhiteSpace r1)) as [r2|] eqn:Ev; [|done].
    apply (consumes f') in Ev. pose proof (skipWhiteSpace_length r2).
    destruct (skipWhiteSpace r2) as [|c r3]; [done|].
    pose proof (skipWhiteSpace_length r3).
    destruct (c =? 44); [|done]. apply IHm; simpl in *; lia.
  - cbn [elements]. rewrite (IHv s f') by lia.
    destruct (value f' s) as [r0|] eqn:Ev; [|done].
    apply (consumes f') in Ev. pose proof (skipWhiteSpace_length r0).
    destruct (skipWhiteSpace r0) as [|c r1]; [done|].
    pose proof (skipWhiteSpace_length r1).
    destruct (c =? 44); [|done]. apply IHe; simpl in *; lia.
Qed.

(** The budget of [JSON_parse_ok] is enough: a larger one changes
    nothing. *)
Theorem JSON_parse_fuel s f :
  (2 * length s + 2 <= f)%nat ->
  value f (skipWhiteSpace s) = value (2 * length s + 2) (skipWhiteSpace s).
Proof.
  intros Hf. pose proof (skipWhiteSpace_length s).
  apply (fuel_enough f); lia.
Qed.
End JSONTheory.

Section CsvPattern.
Import JS RegExp RegExpSpec Classifier ClassifierSpec Aux.


(** Iterations seen as chunks of input. *)
Lemma Rep_chunks_inv (R : MatchState -> MatchState -> Prop) (P : jsstring -> Prop) parens :
  (forall x y, R x y -> exists w, P w /\ remaining x = w ++ remaining y) ->
  forall min max x y, Rep R parens min max x y ->
    exists ws, Forall P ws /\ remaining x = concat ws ++ remaining y /\
               (max = None -> min <= length ws)%nat.
Proof.
  intros HR min max x y H.
  induction H as [min max x Hz | min max x y z Hmax Hxy Hne Hrep (ws & HP & Hrem & Hlen)].
  - exists []. split; [constructor|]. split; [done|].
    intros ->. destruct Hz as [-> | ?]; [simpl; lia | done].
  - apply HR in Hxy as (w & Hw & Hx).
    change (remaining (clearCaptures parens x)) with (remaining x) in Hx.
    exists (w :: ws). split; [by constructor|]. split.
    + simpl. rewrite Hx, Hrem, <- app_assoc. done.
    + intros ->. specialize (Hlen eq_refl). simpl. lia.
Qed.

Lemma Rep_chunks_intro (R : MatchState -> MatchState -> Prop) (P : jsstring -> Prop) :
  (forall w c r, P w -> R (mkState c (w ++ r) []) (mkState (rev w ++ c) r [])) ->
  forall ws min c r,
    Forall (fun w => P w /\ w <> []) ws -> (min <= length ws)%nat ->
    Rep R [] min None (mkState c (concat ws ++ r) [])
      (mkState (rev (concat ws) ++ c) r []).
Proof.
  intros HR. induction ws as [|w ws IH]; intros min c r Hws Hmin.
  - simpl in *. apply Rep_done. left. lia.
  - inversion Hws as [|? ? [HP Hne] Hws']; subst. simpl.
    eapply Rep_step with (y := mkState (rev w ++ c) (concat ws ++ r) []).
    + done.
    + rewrite <- app_assoc. apply HR, HP.
    + intros _. simpl. rewrite !length_app. destruct w; [done|]. simpl. lia.
    + rewrite rev_app_distr, <- app_assoc. apply IH; [done|]. simpl in Hmin. lia.
Qed.

Lemma cell_class c : classMatches csvFlags true [CChar COMMA; CChar LF] c = isCell c.
Proof.
  unfold classMatches, isCell, COMMA, LF. cbn [existsb atomMatches].
  unfold Canonicalize, csvFlags. cbn [ignoreCase andb].
  rewrite orb_false_r, (N.eqb_sym 44), (N.eqb_sym 10). done.
Qed.

Lemma Step_inv p x y :
  Step p x y -> exists ch, p ch = true /\ remaining x = [ch] ++ remaining y.
Proof. intros (ch & rest & Hx & Hp & ->). eauto. Qed.

Lemma Step_intro (p : cu -> bool) ch c r :
  p ch = true -> Step p (mkState c (ch :: r) []) (mkState (ch :: c) r []).
Proof. intros Hp. exists ch, r. done. Qed.

(** [[^,\n]+] and [[^,\n]*] *)
Lemma cells_inv min x y :
  Rep (Matches csvFlags cell) [] min None x y ->
  exists f, Forall (fun c => isCell c = true) f /\
            remaining x = f ++ remaining y /\ (min <= length f)%nat.
Proof.
  intros H.
  apply (Rep_chunks_inv _ (fun w => exists ch, w = [ch] /\ isCell ch = true)) in H
    as (ws & Hws & Hrem & Hlen).
  - exists (concat ws). split; [|split; [done|]].
    + clear -Hws. induction Hws as [|w ws (ch & -> & Hch) _ IH]; simpl; [constructor|].
      by constructor.
    + specialize (Hlen eq_refl). 
      assert (length (concat ws) = length ws) as ->; [|done].
      clear -Hws. induction Hws as [|w ws (ch & -> & Hch) _ IH]; simpl; [done|].
      by rewrite IH.
  - intros a b Hab. simpl in Hab. apply Step_inv in Hab as (ch & Hp & Hrem).
    rewrite cell_class in Hp. eauto.
Qed.

Lemma cells_intro min f c r :
  Forall (fun c => isCell c = true) f -> (min <= length f)%nat ->
  Rep (Matches csvFlags cell) [] min None (mkState c (f ++ r) []) (mkState (rev f ++ c) r []).
Proof.
  intros Hf Hmin.
  pose proof (Rep_chunks_intro (Matches csvFlags cell)
                (fun w => exists ch, w = [ch] /\ isCell ch = true)) as H.
  specialize (H ltac:(intros w c' r' (ch & -> & Hch); simpl;
                      apply Step_intro; by rewrite cell_class)).
  specialize (H (map (fun ch => [ch]) f) min c r).
  assert (Hc : concat (map (fun ch => [ch]) f) = f).
  { clear. induction f as [|a f IH]; simpl; [done|]. by rewrite IH. }
  rewrite Hc in H. apply H.
  - clear -Hf. induction Hf as [|a f Ha _ IH]; simpl; constructor; [|done].
    split; [eauto|done].
  - by rewrite length_map.
Qed.


Lemma csv_source :
  source csvLikePattern = RSeq RBol (RSeq (plus cell) (RSeq (star commaCells)
                             (RSeq (RChar LF) (RSeq (plus body) REol)))).
Proof. reflexivity. Qed.

Lemma char_inv ch x y :
  Matches csvFlags (RChar ch) x y -> remaining x = ch :: remaining y.
Proof.
  simpl. intros H. apply Step_inv in H as (a & Ha & Hrem).
  unfold Canonicalize, csvFlags in Ha. cbn [ignoreCase andb] in Ha.
  apply N.eqb_eq in Ha. by subst.
Qed.

Lemma char_intro ch c r :
  Matches csvFlags (RChar ch) (mkState c (ch :: r) []) (mkState (ch :: c) r []).
Proof. simpl. apply Step_intro. apply N.eqb_refl. Qed.


Lemma commaCells_inv x y :
  Matches csvFlags commaCells x y ->
  exists w, (exists g, w = COMMA :: g /\ CellRun g) /\ remaining x = w ++ remaining y.
Proof.
  intros (m & H1 & H2). apply char_inv in H1.
  apply cells_inv in H2 as (g & Hg & Hrem & Hlen).
  exists (COMMA :: g). split.
  - exists g. split; [done|]. split; [|done]. destruct g; [simpl in Hlen; lia | done].
  - rewrite H1, Hrem. done.
Qed.

Lemma commaCells_intro w c r :
  (exists g, w = COMMA :: g /\ CellRun g) ->
  Matches csvFlags commaCells (mkState c (w ++ r) []) (mkState (rev w ++ c) r []).
Proof.
  intros (g & -> & Hne & Hg). exists (mkState (COMMA :: c) (g ++ r) []). split.
  - apply char_intro.
  - simpl rev. rewrite <- app_assoc. simpl. apply cells_intro; [done|].
    destruct g; [done | simpl; lia].
Qed.

Lemma header_inv x y :
  Matches csvFlags header x y ->
  exists f gs, remaining x = f ++ concat (map (cons COMMA) gs) ++ LF :: remaining y /\
               CellRun f /\ Forall CellRun gs.
Proof.
  intros (m1 & H1 & m2 & H2 & H3).
  apply cells_inv in H1 as (f & Hf & Hrem1 & Hlen).
  apply (Rep_chunks_inv _ (fun w => exists g, w = COMMA :: g /\ CellRun g)) in H2
    as (ws & Hws & Hrem2 & _); [|apply commaCells_inv].
  apply char_inv in H3.
  assert (Hgs : exists gs, ws = map (cons COMMA) gs /\ Forall CellRun gs).
  { clear -Hws. induction Hws as [|w ws (g & -> & Hg) _ (gs & -> & Hgs)].
    - by exists [].
    - exists (g :: gs). split; [done|by constructor]. }
  destruct Hgs as (gs & -> & Hgs).
  exists f, gs. split; [|split; [|done]].
  - rewrite Hrem1, Hrem2, H3. done.
  - split; [|done]. destruct f; [simpl in Hlen; lia | done].
Qed.

Lemma header_intro f gs c r :
  CellRun f -> Forall CellRun gs ->
  exists c', Matches csvFlags header
               (mkState c (f ++ concat (map (cons COMMA) gs) ++ LF :: r) [])
               (mkState c' r []).
Proof.
  intros [Hne Hf] Hgs. eexists.
  eexists. split.
  { apply cells_intro; [done|]. destruct f; [done | simpl; lia]. }
  eexists. split.
  { apply (Rep_chunks_intro _ (fun w => exists g, w = COMMA :: g /\ CellRun g)).
    - intros w c' r' Hw. by apply commaCells_intro.
    - clear -Hgs. induction Hgs as [|g gs Hg _ IH]; simpl; constructor; [|done].
      split; [eauto | done].
    - lia. }
  apply char_intro.
Qed.

(** One more code unit can always be taken by one round of the
    second part of the pattern. *)
Lemma body_one ch c r :
  Matches csvFlags body (mkState c (ch :: r) []) (mkState (ch :: c) r []).
Proof.
  destruct (isCell ch) eqn:Ecell.
  - exists (mkState (ch :: c) r []). split.
    + apply (cells_intro 0 [ch]); [by repeat constructor | simpl; lia].
    + exists (mkState (ch :: c) r []). split; apply Rep_done; by left.
  - exists (mkState c (ch :: r) []). split; [apply Rep_done; by left|].
    unfold isCell in Ecell. apply negb_false_iff, orb_true_iff in Ecell.
    destruct Ecell as [E|E]; apply N.eqb_eq in E; subst ch.
    + exists (mkState (COMMA :: c) r []). split; [|apply Rep_done; by left].
      eapply Rep_step with (y := mkState (COMMA :: c) r []).
      * done.
      * exists (mkState (COMMA :: c) r []). split; [apply char_intro|].
        apply Rep_done; by left.
      * intros _. simpl. lia.
      * apply Rep_done; by left.
    + exists (mkState c (LF :: r) []). split; [apply Rep_done; by left|].
      eapply Rep_step with (y := mkState (LF :: c) r []).
      * done.
      * apply char_intro.
      * intros _. simpl. lia.
      * apply Rep_done; by right.
Qed.

Lemma body_empty c r :
  Matches csvFlags body (mkState c r []) (mkState c r []).
Proof.
  exists (mkState c r []). split; [apply Rep_done; by left|].
  exists (mkState c r []). split; apply Rep_done; by left.
Qed.

Lemma body_star_to_end : forall r c,
  exists c', Rep (Matches csvFlags body) [] 0 None (mkState c r []) (mkState c' [] []).
Proof.
  induction r as [|ch r IH]; intros c.
  - exists c. apply Rep_done; by left.
  - destruct (IH (ch :: c)) as [c' Hc']. exists c'.
    eapply Rep_step with (y := mkState (ch :: c) r []).
    + done.
    + apply body_one.
    + intros _. simpl. lia.
    + exact Hc'.
Qed.

Lemma tail_intro r c :
  exists y, Matches csvFlags (RSeq (plus body) REol) (mkState c r []) y.
Proof.
  destruct (body_star_to_end r c) as [c' Hc'].
  exists (mkState c' [] []), (mkState c' [] []). split; [|done].
  eapply Rep_step with (y := mkState c r []).
  - done.
  - apply body_empty.
  - intros ?; done.
  - exact Hc'.
Qed.

Lemma atBol_LineStart pre post :
  atBol csvFlags (mkState (rev pre) post []) = true <-> LineStart pre.
Proof.
  unfold atBol, LineStart. cbn [consumed]. destruct (rev pre) as [|ch q] eqn:E.
  - apply (f_equal (@rev N)) in E. rewrite rev_involutive in E. simpl in E.
    split; [by left|done].
  - apply (f_equal (@rev N)) in E. rewrite rev_involutive in E. simpl in E.
    cbn [multiline csvFlags andb]. split.
    + intros H. right. exists (rev q), ch. done.
    + intros [-> | (p & c & Hp & Hc)]; [by destruct (rev q)|].
      rewrite Hp in E. apply app_inj_tail in E as [_ ->]. done.
Qed.

Lemma headerLine_of_cells f gs :
  CellRun f -> Forall CellRun gs -> HeaderLine (f ++ concat (map (cons COMMA) gs)).
Proof.
  intros [Hne Hf] Hgs.
  assert (Hcell : forall g sep, Forall (fun c => isCell c = true) g ->
                    sep = COMMA \/ sep = LF -> sep ∉ g).
  { intros g sep Hg Hsep Hin. rewrite Forall_forall in Hg. apply Hg in Hin.
    unfold isCell in Hin. apply negb_true_iff, orb_false_iff in Hin as [H1 H2].
    apply N.eqb_neq in H1, H2. destruct Hsep; done. }
  split.
  - rewrite elem_of_app. intros [Hin|Hin]; [by eapply Hcell; eauto|].
    clear -Hin Hgs Hcell. induction Hgs as [|g gs [_ Hg] _ IH]; simpl in Hin.
    + by apply elem_of_nil in Hin.
    + rewrite elem_of_cons, elem_of_app in Hin. destruct Hin as [Hin|[Hin|Hin]].
      * done.
      * eapply Hcell; eauto.
      * auto.
  - rewrite split_of_join.
    + constructor; [done|]. eapply Forall_impl; [exact Hgs|]. by intros g [? _].
    + apply Hcell; auto.
    + eapply Forall_impl; [exact Hgs|]. intros g [_ Hg]. apply Hcell; auto.
Qed.

Lemma cells_of_headerLine line :
  HeaderLine line ->
  exists f gs, line = f ++ concat (map (cons COMMA) gs) /\ CellRun f /\ Forall CellRun gs.
Proof.
  intros [Hlf Hne]. destruct (split_join line COMMA) as (h & t & Hs & Hj & Hf).
  rewrite Hs in Hne.
  assert (Hcell : forall g, g ∈ h :: t -> g <> [] -> CellRun g).
  { intros g Hg Hgne. split; [done|]. apply Forall_forall. intros c Hc.
    unfold isCell. apply negb_true_iff, orb_false_iff.
    rewrite Forall_forall in Hf. split; apply N.eqb_neq; intros ->.
    - by apply (Hf g Hg).
    - apply Hlf. rewrite Hj. apply elem_of_cons in Hg as [->|Hg].
      + apply elem_of_app. by left.
      + apply elem_of_app. right. clear -Hg Hc.
        induction t as [|g' t IH]; [by apply elem_of_nil in Hg|].
        simpl. apply elem_of_cons in Hg as [->|Hg].
        * rewrite elem_of_cons, elem_of_app. auto.
        * rewrite elem_of_cons, elem_of_app. auto. }
  exists h, t. split; [done|]. rewrite Forall_forall in Hne. split.
  - apply Hcell; [by left|]. apply Hne. by left.
  - apply Forall_forall. intros g Hg. apply Hcell; [by right|]. apply Hne. by right.
Qed.

(** The pattern is found exactly in the texts that hold a header
    line at a line start and ended by a line feed. *)
Theorem csvLikePattern_test t :
  test csvLikePattern t = true <-> HasHeaderLine t.
Proof.
  rewrite test_true, csv_source. change (flags csvLikePattern) with csvFlags. split.
  - intros (pre & post & y & -> & (m0 & [Hbol ->] & Hrest)).
    apply atBol_LineStart in Hbol.
    assert (Hh : exists m, Matches csvFlags header (mkState (rev pre) post []) m).
    { destruct Hrest as (m1 & H1 & m2 & H2 & m3 & H3 & _).
      exists m3, m1. split; [done|]. exists m2. done. }
    destruct Hh as (m & Hh). apply header_inv in Hh as (f & gs & Hrem & Hf & Hgs).
    cbn [remaining] in Hrem.
    exists pre, (f ++ concat (map (cons COMMA) gs)), (remaining m).
    split; [by rewrite Hrem, <- app_assoc|]. split; [done|].
    by apply headerLine_of_cells.
  - intros (pre & line & post & -> & Hstart & Hline).
    apply cells_of_headerLine in Hline as (f & gs & -> & Hf & Hgs).
    destruct (header_intro f gs (rev pre) post Hf Hgs)
      as (c' & m1 & H1 & m2 & H2 & H3).
    destruct (tail_intro post c') as (y & m3 & H4 & H5).
    exists pre, ((f ++ concat (map (cons COMMA) gs)) ++ LF :: post), y.
    split; [done|].
    exists (mkState (rev pre) ((f ++ concat (map (cons COMMA) gs)) ++ LF :: post) []).
    split; [split; [by apply atBol_LineStart | done]|].
    rewrite <- app_assoc.
    exists m1. split; [done|]. exists m2. split; [done|].
    exists (mkState c' post []). split; [done|].
    exists m3. done.
Qed.
End CsvPattern.

Section FencePattern.
Import JS RegExp RegExpSpec Classifier ClassifierSpec Aux.



Lemma matcher_seq a b x c :
  matcher fenceFlags (RSeq a b) x c = matcher fenceFlags a x (fun y => matcher fenceFlags b y c).
Proof. reflexivity. Qed.

Lemma matcher_char ch x c :
  matcher fenceFlags (RChar ch) x c =
  if startsWithIgnoreCase (remaining x) [ch] then c (advance 1 x) else None.
Proof.
  cbn [matcher]. unfold CharacterSetMatcher, advance.
  destruct (remaining x) as [|b rest] eqn:E; [reflexivity|].
  cbn [startsWithIgnoreCase].
  change (Canonicalize fenceFlags b) with (upper b). change (Canonicalize fenceFlags ch) with (upper ch).
  destruct (upper ch =? upper b); [|reflexivity]. simpl. by destruct rest.
Qed.

Lemma advance_advance n m x : advance m (advance n x) = advance (n + m) x.
Proof.
  unfold advance. cbn [remaining consumed captures]. f_equal.
  - assert (H : forall l : jsstring, take (n + m) l = take n l ++ take m (drop n l)).
    { clear. induction n as [|n IH]; intros l; [done|].
      destruct l as [|a l]; simpl; [by destruct m|]. by rewrite IH. }
    by rewrite H, rev_app_distr, app_assoc.
  - by rewrite drop_drop.
Qed.

Lemma startsWithIgnoreCase_app s p q :
  startsWithIgnoreCase s (p ++ q) =
  startsWithIgnoreCase s p && startsWithIgnoreCase (drop (length p) s) q.
Proof.
  revert s. induction p as [|a p IH]; intros s; simpl.
  - by destruct s.
  - destruct s as [|b s]; simpl; [done|]. rewrite IH, andb_assoc. done.
Qed.

Lemma matcher_chars s : forall x c,
  matcher fenceFlags (chars s) x c =
  if startsWithIgnoreCase (remaining x) (js s) then c (advance (length (js s)) x) else None.
Proof.
  induction s as [|a s IH]; intros x c.
  - simpl. by destruct (remaining x).
  - destruct s as [|a' s'].
    + apply matcher_char.
    + change (chars (String a (String a' s')))
        with (RSeq (RChar (Ascii.N_of_ascii a)) (chars (String a' s'))).
      rewrite matcher_seq, matcher_char.
      change (js (String a (String a' s')))
        with ([Ascii.N_of_ascii a] ++ js (String a' s')).
      rewrite startsWithIgnoreCase_app.
      destruct (startsWithIgnoreCase (remaining x) [Ascii.N_of_ascii a]); [|done].
      rewrite IH. cbn [andb]. change (remaining (advance 1 x)) with (drop 1 (remaining x)).
      cbn [length app].
      destruct (startsWithIgnoreCase _ _); [|done].
      by rewrite advance_advance.
Qed.


Lemma caseless_LF : caseless LF.
Proof.
  intros b. unfold upper, LF.
  change (if (97 <=? 10) && (10 <=? 122) then 10 - 32 else 10) with 10.
  destruct (N.leb_spec 97 b), (N.leb_spec b 122); cbn [andb];
    destruct (N.eqb_spec 10 b), (N.eqb_spec 10 (b - 32)); try done; lia.
Qed.

Lemma caseless_backtick : caseless 96.
Proof.
  intros b. unfold upper.
  change (if (97 <=? 96) && (96 <=? 122) then 96 - 32 else 96) with 96.
  destruct (N.leb_spec 97 b), (N.leb_spec b 122); cbn [andb];
    destruct (N.eqb_spec 96 b), (N.eqb_spec 96 (b - 32)); try done; lia.
Qed.

Lemma startsWithIgnoreCase_caseless p :
  Forall caseless p -> forall s, startsWithIgnoreCase s p = startsWith s p.
Proof.
  induction 1 as [|a p Ha _ IH]; intros s; simpl; [by destruct s|].
  destruct s as [|b s]; simpl; [done|]. by rewrite Ha, IH.
Qed.

Lemma closingFence_caseless : Forall caseless closingFence.
Proof.
  repeat constructor; first [apply caseless_LF | apply caseless_backtick].
Qed.

Lemma matcher_close y :
  matcher fenceFlags (RSeq (RChar LF) (chars "```")) y Some =
  if startsWith (remaining y) closingFence then Some (advance 4 y) else None.
Proof.
  rewrite <- (startsWithIgnoreCase_caseless _ closingFence_caseless).
  rewrite matcher_seq, matcher_char.
  change closingFence with ([LF] ++ js "```"). rewrite startsWithIgnoreCase_app.
  destruct (startsWithIgnoreCase (remaining y) [LF]); [|done].
  rewrite matcher_chars. cbn [andb length].
  change (remaining (advance 1 y)) with (drop 1 (remaining y)).
  destruct (startsWithIgnoreCase _ _); [|done].
  by rewrite advance_advance.
Qed.

Lemma anything_matches c : classMatches fenceFlags false [CWhite; CNonWhite] c = true.
Proof.
  unfold classMatches. cbn [existsb atomMatches xorb].
  by destruct (isTrimmable c).
Qed.


Lemma lazy_anything K : forall rem bef fuel,
  (length rem < fuel)%nat ->
  RepeatMatcher (matcher fenceFlags anything) [] fuel 0 None false (mkState bef rem []) K
  = scan K bef rem.
Proof.
  induction rem as [|ch t IH]; intros bef fuel Hfuel;
    (destruct fuel as [|fuel]; [simpl in Hfuel; lia|]).
  - cbn [RepeatMatcher isZero negb andb scan].
    destruct (K _); [done|]. reflexivity.
  - cbn [RepeatMatcher isZero negb andb scan].
    destruct (K _); [done|].
    unfold anything at 1. cbn [matcher]. unfold CharacterSetMatcher.
    cbn [remaining clearCaptures consumed captures].
    rewrite anything_matches.
    cbn [remaining length].
    assert ((length t =? S (length t))%nat = false) as -> by (apply Nat.eqb_neq; lia).
    cbn [andb Init.Nat.pred fmap option_fmap option_map].
    apply IH. simpl in Hfuel. lia.
Qed.


Lemma scan_until cons3 rem3 : forall rem done bef,
  rem3 = done ++ rem ->
  captures <$> scan (closeK (mkState cons3 rem3 [])) bef rem
  = (fun inner => [(1%nat, done ++ inner)]) <$> untilClosingFence rem.
Proof.
  induction rem as [|ch t IH]; intros done bef Hrem.
  - cbn [scan untilClosingFence]. unfold closeK. rewrite matcher_close.
    cbn [setCapture remaining]. reflexivity.
  - cbn [scan]. unfold closeK at 1. rewrite matcher_close.
    cbn [setCapture remaining].
    assert (Hu : untilClosingFence (ch :: t) =
                 if startsWith (ch :: t) closingFence then Some []
                 else cons ch <$> untilClosingFence t) by reflexivity.
    rewrite Hu. destruct (startsWith (ch :: t) closingFence).
    + cbn [fmap option_fmap option_map advance captures setCapture length].
      cbn. f_equal. f_equal. f_equal. rewrite Hrem, length_app, app_nil_r. cbn.
      replace (length done + S (length t) - S (length t))%nat with (length done) by lia.
      by rewrite take_app_length.
    + rewrite (IH (done ++ [ch]) (ch :: bef)); [|by rewrite <- app_assoc].
      destruct (untilClosingFence t); simpl; [|done]. by rewrite <- app_assoc.
Qed.


Lemma matcher_alts tags : tags <> [] -> forall x c,
  matcher fenceFlags (alts tags) x c =
  firstTag tags (fun tag =>
    if startsWithIgnoreCase (remaining x) (js tag)
    then c (advance (length (js tag)) x) else None).
Proof.
  induction tags as [|t ts IH]; intros Hne x c; [done|].
  destruct ts as [|t' ts'].
  - change (alts [t]) with (chars t). rewrite matcher_chars. cbn [firstTag].
    by destruct (if startsWithIgnoreCase _ _ then _ else _).
  - change (alts (t :: t' :: ts')) with (RAlt (chars t) (alts (t' :: ts'))).
    cbn [matcher firstTag]. rewrite matcher_chars.
    destruct (if startsWithIgnoreCase _ _ then _ else _); [done|].
    by apply IH.
Qed.

Lemma fence_source tags :
  source (fence tags) =
  RSeq (chars "```") (RSeq (alts tags) (RSeq (RChar LF)
    (RSeq (RGroup 1 (lazyStar anything)) (RSeq (RChar LF) (chars "```"))))).
Proof. reflexivity. Qed.

Lemma blockAt_no_fence tags s :
  startsWithIgnoreCase s (js "```") = false -> blockAt tags s = None.
Proof.
  intros H. induction tags as [|t ts IH]; [done|]. cbn [blockAt].
  unfold opener. rewrite startsWithIgnoreCase_app, H. exact IH.
Qed.

Lemma matcher_group n a x c :
  matcher fenceFlags (RGroup n a) x c = matcher fenceFlags a x (fun y => c (setCapture n x y)).
Proof. reflexivity. Qed.

Lemma matcher_lazyStar a x c :
  matcher fenceFlags (lazyStar a) x c =
  RepeatMatcher (matcher fenceFlags a) (groups a) (0 + length (remaining x) + 1)
    0 None false x c.
Proof. reflexivity. Qed.

(** What follows the tag: the line feed, the block and its closing
    fence. *)
Lemma fence_rest bef rem :
  captures <$> matcher fenceFlags
    (RSeq (RChar LF) (RSeq (RGroup 1 (lazyStar anything))
       (RSeq (RChar LF) (chars "```")))) (mkState bef rem []) Some
  = if startsWithIgnoreCase rem [LF]
    then (fun inner => [(1%nat, inner)]) <$> untilClosingFence (drop 1 rem)
    else None.
Proof.
  rewrite matcher_seq, matcher_char.
  change (remaining (mkState bef rem [])) with rem.
  destruct (startsWithIgnoreCase rem [LF]); [|done].
  rewrite matcher_seq, matcher_group, matcher_lazyStar.
  unfold advance. change (remaining (mkState bef rem [])) with rem.
  change (consumed (mkState bef rem [])) with bef.
  change (captures (mkState bef rem [])) with (@nil (nat * jsstring)).
  change (groups anything) with (@nil nat).
  rewrite lazy_anything by (cbn; lia).
  apply (scan_until (rev (take 1 rem) ++ bef) (drop 1 rem) (drop 1 rem) []
           (rev (take 1 rem) ++ bef) eq_refl).
Qed.

(** One attempt of the pattern at a given index. *)
Lemma fence_attempt tags before after :
  tags <> [] ->
  captures <$> matcher fenceFlags (source (fence tags)) (mkState before after []) Some
  = (fun inner => [(1%nat, inner)]) <$> blockAt tags after.
Proof.
  intros Hne. rewrite fence_source, matcher_seq, matcher_chars.
  change (remaining (mkState before after [])) with after.
  destruct (startsWithIgnoreCase after (js "```")) eqn:Efence;
    [|by rewrite blockAt_no_fence].
  cbv beta. rewrite matcher_seq, (matcher_alts tags Hne).
  change (remaining (advance (length (js "```")) (mkState before after [])))
    with (drop 3 after).
  clear Hne. induction tags as [|t ts IH]; [done|].
  cbn [firstTag blockAt]. unfold opener at 1.
  rewrite !startsWithIgnoreCase_app, Efence. cbn [andb].
  change (length (js "```")) with 3%nat.
  destruct (startsWithIgnoreCase (drop 3 after) (js t)) eqn:Etag; [|exact IH].
  rewrite advance_advance.
  pose proof (fence_rest (rev (take (3 + length (js t)) after) ++ before)
                (drop (3 + length (js t)) after)) as Hrest.
  change (mkState (rev (take (3 + length (js t)) after) ++ before)
            (drop (3 + length (js t)) after) [])
    with (advance (3 + length (js t)) (mkState before after [])) in Hrest.
  assert (Hlen : length (js "```" ++ js t ++ [LF]) = (3 + length (js t) + 1)%nat).
  { rewrite !length_app. simpl. lia. }
  unfold opener. rewrite Hlen. rewrite drop_drop in Hrest. rewrite drop_drop.
  cbn [andb].
  destruct (startsWithIgnoreCase (drop (3 + length (js t)) after) [LF]).
  - destruct (matcher fenceFlags _ (advance _ _) Some) as [y|];
      destruct (untilClosingFence _) as [inner|]; try done.
  - destruct (matcher fenceFlags _ (advance _ _) Some) as [y|]; [done|]. exact IH.
Qed.

Lemma fence_execFrom tags : tags <> [] -> forall after before,
  (fun xy => captures xy.2) <$> execFrom (fence tags) before after
  = (fun inner => [(1%nat, inner)]) <$> firstBlock tags after.
Proof.
  intros Hne. induction after as [|ch t IH]; intros before.
  - cbn [execFrom firstBlock].
    pose proof (fence_attempt tags before [] Hne) as H.
    change (flags (fence tags)) with fenceFlags.
    destruct (matcher _ _ _ _); destruct (blockAt tags []); done.
  - cbn [execFrom firstBlock].
    pose proof (fence_attempt tags before (ch :: t) Hne) as H.
    change (flags (fence tags)) with fenceFlags.
    destruct (matcher _ _ _ _); destruct (blockAt tags (ch :: t)); done.
Qed.

Lemma groups_chars s : groups (chars s) = [].
Proof.
  induction s as [|a s IH]; [done|]. destruct s; [done|].
  change (groups (RChar (Ascii.N_of_ascii a)) ++ groups (chars (String a0 s)) = []).
  by rewrite IH.
Qed.

Lemma groups_alts tags : groups (alts tags) = [].
Proof.
  induction tags as [|t ts IH]; [done|]. destruct ts.
  - apply groups_chars.
  - change (groups (chars t) ++ groups (alts (s :: ts)) = []).
    by rewrite groups_chars, IH.
Qed.

Lemma groups_fence tags : groups (source (fence tags)) = [1%nat].
Proof.
  rewrite fence_source. cbn [groups]. by rewrite !groups_chars, groups_alts.
Qed.

(** One round of the loop of the source, against the direct search. *)
Theorem tryPattern_fence text ty tags ext mime :
  tags <> [] ->
  tryPattern text (mkPattern ty (fence tags) ext mime) =
  match firstBlock tags text with
  | Some inner =>
      if truthy inner
      then Some (mkFileInfo true (trim inner) (js "analysis_result." ++ ext)
                   ext mime ty)
      else None
  | None => None
  end.
Proof.
  intros Hne. unfold tryPattern, String_match, exec. cbn [p_pattern].
  pose proof (fence_execFrom tags Hne text []) as H.
  rewrite groups_fence. cbn [length seq map].
  destruct (execFrom (fence tags) [] text) as [[x y]|];
    destruct (firstBlock tags text) as [inner|]; try done.
  cbn in H. injection H as H. unfold lookupCapture. rewrite H. cbn. done.
Qed.
End FencePattern.

Section FenceSearch.
Import JS ClassifierSpec Aux.

Lemma startsWithIgnoreCase_true s p :
  startsWithIgnoreCase s p = true <->
  exists p' r, s = p' ++ r /\ map upper p' = map upper p.
Proof.
  revert s. induction p as [|a p IH]; intros s.
  - split.
    + intros _. by exists [], s.
    + intros _. by destruct s.
  - destruct s as [|b s]; cbn [startsWithIgnoreCase].
    + split; [done|]. intros (p' & r & Hs & Hp). destruct p'; done.
    + rewrite andb_true_iff, N.eqb_eq, IH. split.
      * intros (Hab & p' & r & -> & Hp). exists (b :: p'), r.
        split; [done|]. simpl. by rewrite Hab, Hp.
      * intros (p' & r & Hs & Hp). destruct p' as [|b' p']; [done|].
        simpl in Hs, Hp. inversion Hs; subst. inversion Hp.
        split; [done|]. eauto.
Qed.

Lemma caseless_eq a b : caseless a -> upper b = upper a -> b = a.
Proof.
  intros Ha Hb. specialize (Ha b). rewrite Hb, N.eqb_refl in Ha.
  symmetry in Ha. by apply N.eqb_eq in Ha.
Qed.

Lemma map_upper_caseless p : Forall caseless p ->
  forall p', map upper p' = map upper p -> p' = p.
Proof.
  induction 1 as [|a p Ha _ IH]; intros p' Hp; destruct p' as [|b p']; try done.
  simpl in Hp. inversion Hp. f_equal; [by apply caseless_eq | by apply IH].
Qed.

Lemma map_app_inv (f : cu -> cu) (l a b : jsstring) :
  map f l = map f a ++ map f b ->
  exists a' b', l = a' ++ b' /\ map f a' = map f a /\ map f b' = map f b.
Proof.
  revert l. induction a as [|x a IH]; intros l H.
  - by exists [], l.
  - destruct l as [|y l]; [done|]. simpl in H. inversion H.
    destruct (IH l) as (a' & b' & -> & Ha & Hb); [done|].
    exists (y :: a'), b'. split; [done|]. split; [|done]. simpl. by f_equal.
Qed.

Lemma untilClosingFence_Some s inner :
  untilClosingFence s = Some inner ->
  exists post, s = inner ++ closingFence ++ post.
Proof.
  revert inner. induction s as [|ch t IH]; intros inner H.
  - cbn in H. done.
  - assert (Hu : untilClosingFence (ch :: t) =
                 if startsWith (ch :: t) closingFence then Some []
                 else cons ch <$> untilClosingFence t) by reflexivity.
    rewrite Hu in H. destruct (startsWith (ch :: t) closingFence) eqn:E.
    + inversion H; subst. apply startsWith_true in E as [r Hr]. by exists r.
    + destruct (untilClosingFence t) as [i|]; [|done]. inversion H; subst.
      destruct (IH i eq_refl) as [post ->]. by exists post.
Qed.

Lemma untilClosingFence_app inner post :
  is_Some (untilClosingFence (inner ++ closingFence ++ post)).
Proof.
  induction inner as [|ch t IH].
  - cbn [app]. unfold closingFence at 1. cbn [app].
    assert (Hu : forall ch t, untilClosingFence (ch :: t) =
                 if startsWith (ch :: t) closingFence then Some []
                 else cons ch <$> untilClosingFence t) by reflexivity.
    rewrite Hu. change (LF :: js "```" ++ post) with (closingFence ++ post).
    by rewrite startsWith_app.
  - assert (Hu : untilClosingFence (ch :: t ++ closingFence ++ post) =
                 if startsWith (ch :: t ++ closingFence ++ post) closingFence
                 then Some []
                 else cons ch <$> untilClosingFence (t ++ closingFence ++ post))
      by reflexivity.
    cbn [app]. rewrite Hu. destruct (startsWith _ _); [done|].
    destruct IH as [i ->]. done.
Qed.


Lemma opener_split o tag :
  map upper o = map upper (opener tag) ->
  exists tag', o = js "```" ++ tag' ++ [LF] /\ map upper tag' = map upper (js tag).
Proof.
  unfold opener. rewrite map_app. intros H.
  apply map_app_inv in H as (a' & r & -> & Ha & Hr).
  rewrite map_app in Hr.
  apply map_app_inv in Hr as (b' & c' & -> & Hb & Hc).
  apply map_upper_caseless in Ha;
    [|repeat constructor; apply caseless_backtick].
  apply map_upper_caseless in Hc; [|repeat constructor; apply caseless_LF].
  subst. by exists b'.
Qed.

Lemma blockAt_Some tags s inner :
  blockAt tags s = Some inner ->
  exists tag tag' post,
    tag ∈ tags /\ map upper tag' = map upper (js tag) /\
    s = js "```" ++ tag' ++ [LF] ++ inner ++ closingFence ++ post.
Proof.
  induction tags as [|t ts IH]; [done|]. cbn [blockAt].
  destruct (startsWithIgnoreCase s (opener t)) eqn:E.
  - destruct (untilClosingFence _) as [i|] eqn:Eu.
    + intros H. inversion H; subst.
      apply startsWithIgnoreCase_true in E as (o & r & -> & Ho).
      assert (Hlen : length o = length (opener t)).
      { apply (f_equal length) in Ho. by rewrite !length_map in Ho. }
      rewrite <- Hlen, drop_app_length in Eu.
      apply untilClosingFence_Some in Eu as [post ->].
      apply opener_split in Ho as (tag' & -> & Htag).
      exists t, tag', post. split; [by left|]. split; [done|].
      by rewrite <- !app_assoc.
    + intros H. destruct (IH H) as (tag & tag' & post & Hin & Ht & Hs).
      exists tag, tag', post. split; [by right|done].
  - intros H. destruct (IH H) as (tag & tag' & post & Hin & Ht & Hs).
    exists tag, tag', post. split; [by right|done].
Qed.

Theorem firstBlock_sound tags text inner :
  firstBlock tags text = Some inner -> HasBlock tags text inner.
Proof.
  induction text as [|ch t IH]; cbn [firstBlock].
  - destruct (blockAt tags []) eqn:E; [|done]. intros H. inversion H; subst.
    apply blockAt_Some in E as (tag & tag' & post & ? & ? & ?).
    by exists [], tag, tag', post.
  - destruct (blockAt tags (ch :: t)) eqn:E.
    + intros H. inversion H; subst.
      apply blockAt_Some in E as (tag & tag' & post & ? & ? & ?).
      by exists [], tag, tag', post.
    + intros H. destruct (IH H) as (pre & tag & tag' & post & ? & ? & ->).
      by exists (ch :: pre), tag, tag', post.
Qed.

Lemma blockAt_complete tags tag tag' inner post :
  tag ∈ tags -> map upper tag' = map upper (js tag) ->
  is_Some (blockAt tags (js "```" ++ tag' ++ [LF] ++ inner ++ closingFence ++ post)).
Proof.
  intros Hin Htag. induction tags as [|t ts IH]; [by apply elem_of_nil in Hin|].
  cbn [blockAt].
  destruct (if startsWithIgnoreCase _ (opener t) then _ else _) eqn:E; [done|].
  apply elem_of_cons in Hin as [->|Hin]; [|by apply IH].
  exfalso.
  assert (Hsw : startsWithIgnoreCase
            (js "```" ++ tag' ++ [LF] ++ inner ++ closingFence ++ post)
            (opener t) = true).
  { apply startsWithIgnoreCase_true.
    exists (js "```" ++ tag' ++ [LF]), (inner ++ closingFence ++ post).
    split; [by rewrite <- !app_assoc|]. unfold opener.
    by rewrite !map_app, Htag. }
  rewrite Hsw in E.
  assert (Hlen : length (opener t) = length (js "```" ++ tag' ++ [LF])).
  { unfold opener. rewrite !length_app. f_equal. f_equal.
    apply (f_equal length) in Htag. by rewrite !length_map in Htag. }
  rewrite Hlen in E.
  replace (js "```" ++ tag' ++ [LF] ++ inner ++ closingFence ++ post)
    with ((js "```" ++ tag' ++ [LF]) ++ inner ++ closingFence ++ post) in E
    by (by rewrite <- !app_assoc).
  rewrite drop_app_length in E.
  destruct (untilClosingFence_app inner post) as [i Hi]. by rewrite Hi in E.
Qed.

Lemma firstBlock_of_blockAt tags s :
  is_Some (blockAt tags s) -> is_Some (firstBlock tags s).
Proof. intros [i Hi]. destruct s; cbn [firstBlock]; by rewrite Hi. Qed.

Theorem firstBlock_complete tags text inner :
  HasBlock tags text inner -> is_Some (firstBlock tags text).
Proof.
  intros (pre & tag & tag' & post & Hin & Htag & ->).
  induction pre as [|ch pre IH].
  - apply firstBlock_of_blockAt. by apply (blockAt_complete tags tag).
  - cbn [app firstBlock]. destruct (blockAt tags _); [done|]. exact IH.
Qed.
End FenceSearch.

Section TrimTheory.
Import JS.

Lemma trimStart_split s :
  exists p, s = p ++ trimStart s /\ Forall (fun c => isTrimmable c = true) p.
Proof.
  induction s as [|a s (p & Hp & Hall)]; simpl; [by exists []|].
  destruct (isTrimmable a) eqn:E; [|by exists []].
  exists (a :: p). split; [simpl; by f_equal | by constructor].
Qed.

Lemma trimStart_head s c : head (trimStart s) = Some c -> isTrimmable c = false.
Proof.
  induction s as [|a s IH]; simpl; [done|].
  destruct (isTrimmable a) eqn:E; [done|]. simpl. by intros [= <-].
Qed.

Lemma trimStart_id s c : head s = Some c -> isTrimmable c = false -> trimStart s = s.
Proof. destruct s as [|a s]; [done|]. simpl. intros [= ->] ->. done. Qed.

Lemma last_rev_head (s : jsstring) : last (rev s) = head s.
Proof. destruct s as [|a s]; [done|]. simpl. by rewrite last_snoc. Qed.

Lemma trimEnd_last s c : last (trimEnd s) = Some c -> isTrimmable c = false.
Proof. unfold trimEnd. rewrite last_rev_head. apply trimStart_head. Qed.

Lemma trimEnd_head s c :
  head s = Some c -> isTrimmable c = false -> head (trimEnd s) = Some c.
Proof.
  intros Hh Hc. unfold trimEnd.
  destruct (trimStart_split (rev s)) as (p & Hp & Hall).
  apply (f_equal (@rev N)) in Hp. rewrite rev_involutive, rev_app_distr in Hp.
  destruct (rev (trimStart (rev s))) as [|d q] eqn:E.
  - simpl in Hp. subst s. rewrite <- last_rev_head, rev_involutive in Hh.
    apply last_Some_elem_of in Hh. rewrite Forall_forall in Hall.
    apply Hall in Hh. congruence.
  - subst s. simpl in Hh. done.
Qed.

(** The trimmed text neither starts nor ends with white space. *)
Theorem trim_clean s :
  (forall c, head (trim s) = Some c -> isTrimmable c = false) /\
  (forall c, last (trim s) = Some c -> isTrimmable c = false).
Proof.
  unfold trim. split; [|apply trimEnd_last].
  intros c Hc. destruct (head (trimStart s)) as [d|] eqn:E.
  - pose proof (trimStart_head _ _ E) as Hd.
    rewrite (trimEnd_head _ _ E Hd) in Hc. by inversion Hc; subst.
  - destruct (trimStart s); [|done]. done.
Qed.

Lemma trim_id s c d :
  head s = Some c -> last s = Some d ->
  isTrimmable c = false -> isTrimmable d = false -> trim s = s.
Proof.
  intros Hc Hd Hcf Hdf. unfold trim. rewrite (trimStart_id s c) by done.
  unfold trimEnd. rewrite (trimStart_id (rev s) d), rev_involutive; try done.
  by rewrite <- (rev_involutive s), last_rev_head in Hd.
Qed.

Lemma includes_app a s b : includes (a ++ s ++ b) s = true.
Proof.
  induction a as [|x a IH].
  - cbn [app]. destruct (s ++ b) eqn:E; cbn [includes]; rewrite <- E;
      by rewrite startsWith_app.
  - cbn [app includes]. rewrite IH. apply orb_true_r.
Qed.
End TrimTheory.

Section ServeTheory.
Import EdgeFunction ServeSpec.

Lemma readFiles_spec env uid : forall names acc log,
  readFiles env uid names acc log =
  (acc ++ sections env uid names, log ++ skipped env uid names).
Proof.
  induction names as [|n names IH]; intros acc log.
  - unfold sections, skipped. simpl. by rewrite !app_nil_r.
  - cbn [readFiles]. unfold download, sections, skipped, resolve. cbn [map concat].
    fold (resolve env uid).
    destruct (bucket env !! farmDataPath uid n) as [t|] eqn:E1; cbn.
    + rewrite IH. unfold sections, skipped. by rewrite <- app_assoc.
    + destruct (bucket env !! certificationPath uid n) as [t|] eqn:E2; cbn.
      * rewrite IH. unfold sections, skipped. by rewrite <- app_assoc.
      * rewrite IH. unfold sections, skipped. by rewrite <- app_assoc.
Qed.

Lemma sections_empty env uid names :
  JS.truthy (sections env uid names) = false <->
  Forall (fun n => resolve env uid n = None) names.
Proof.
  induction names as [|n names IH].
  - split; [constructor|done].
  - unfold sections. cbn [map concat]. fold (sections env uid names).
    destruct (resolve env uid n) as [t|] eqn:E.
    + split; [done|]. intros H. inversion H; subst. congruence.
    + cbn [app]. rewrite IH. split.
      * intros H. by constructor.
      * intros H. by inversion H.
Qed.

Lemma orString_truthy s d : s <> [] -> orString (Some s) d = s.
Proof. by destruct s. Qed.

(** What [serve] does once the request is authenticated. *)
Lemma serve_authenticated env request uid :
  Authenticated env request uid ->
  serve env request =
  let r := body request in
  let fileContents := sections env uid (selectedFiles r) in
  let log := skipped env uid (selectedFiles r) in
  if negb (JS.truthy fileContents) then (log, noReadableContent)
  else
    let sent := buildRequestBody r (fullPrompt (prompt r) fileContents) in
    let response := openai env sent in
    if negb (ok response) then
      (log ++ [Fetch sent; ConsoleError (errorText response)],
       ErrorResponse (status response)
         (js "OpenAI API error: " ++ JS.numberToString (status response)
            ++ js " - " ++ errorText response))
    else
      (log ++ [Fetch sent],
       ResultResponse (assembleResult env r sent (data response))).
Proof.
  intros (Hm & (key & Hkey & Hk) & (h & Hh & Hne & Hu)).
  unfold serve. rewrite bool_decide_eq_false_2 by done.
  rewrite Hkey, orString_truthy by done.
  destruct key as [|k0 key]; [done|]. cbn [JS.truthy negb].
  rewrite Hh. destruct h as [|h0 h]; [done|]. cbn [JS.truthy negb].
  rewrite Hu, readFiles_spec. cbn [app]. reflexivity.
Qed.

Lemma providerCalls_skipped env uid names :
  providerCalls (skipped env uid names) = [].
Proof.
  unfold skipped. induction names as [|n names IH]; [done|].
  cbn [map concat]. unfold providerCalls in *. rewrite List.filter_app, IH.
  by destruct (resolve env uid n).
Qed.

Lemma providerCalls_app l1 l2 :
  providerCalls (l1 ++ l2) = providerCalls l1 ++ providerCalls l2.
Proof. apply List.filter_app. Qed.
End ServeTheory.

Section RequestAdapter.
Import EdgeFunction.

(** The two shapes of the outbound request. *)
Lemma request_adapter_shape (req : AnalysisRequest) (fp : jsstring) :
  (isGPT5OrNewer (model req) = true ->
     b_temperature (buildRequestBody req fp) = None /\
     b_max_tokens (buildRequestBody req fp) = None /\
     b_max_completion_tokens (buildRequestBody req fp)
       = Some (Z.max (orInt (maxTokens req) 2000) 1000)) /\
  (isGPT5OrNewer (model req) = false ->
     b_max_completion_tokens (buildRequestBody req fp) = None /\
     b_max_tokens (buildRequestBody req fp) = Some (orInt (maxTokens req) 2000) /\
     b_temperature (buildRequestBody req fp)
       = Some (orNumber (temperature req) (7 # 10))).
Proof.
  unfold buildRequestBody. split; intros ->; done.
Qed.

(** C2, at the inputs where the code leaves the claim: an explicit
    temperature of 0 on a legacy model is sent as 0.7, and a request
    without a model is sent under the default gpt-5 model name in the
    legacy shape. *)
Lemma request_adapter_failing_inputs :
  let zero := mkAnalysisRequest [js "a.csv"] (js "p") (Some 0%Q) (Some 500%Z)
                (Some (js "gpt-4o")) in
  let nomodel := mkAnalysisRequest [js "a.csv"] (js "p") (Some (1 # 2)%Q)
                   (Some 500%Z) None in
  (isGPT5OrNewer (model zero) = false /\
   b_temperature (buildRequestBody zero (js "p")) = Some (7 # 10)%Q /\
   b_max_tokens (buildRequestBody zero (js "p")) = Some 500%Z) /\
  (b_model (buildRequestBody nomodel (js "p")) = js "gpt-5-2025-08-07" /\
   isGPT5OrNewer (Some (b_model (buildRequestBody nomodel (js "p")))) = true /\
   b_temperature (buildRequestBody nomodel (js "p")) = Some (1 # 2)%Q /\
   b_max_tokens (buildRequestBody nomodel (js "p")) = Some 500%Z /\
   b_max_completion_tokens (buildRequestBody nomodel (js "p")) = None).
Proof. vm_compute. repeat split. Qed.

(** C10: on the legacy branch a temperature of 0 is replaced by 0.7. *)
Theorem legacy_zero_temperature_defaults (req : AnalysisRequest) (fp : jsstring) (t : Q) :
  isGPT5OrNewer (model req) = false ->
  temperature req = Some t ->
  (t == 0)%Q ->
  b_temperature (buildRequestBody req fp) = Some (7 # 10)%Q.
Proof.
  intros Hlegacy Ht Hz. unfold buildRequestBody. rewrite Hlegacy, Ht.
  cbn [b_temperature orNumber]. apply Qeq_bool_iff in Hz. by rewrite Hz.
Qed.

Lemma legacy_zero_temperature_witness :
  let req := mkAnalysisRequest [js "a.csv"] (js "p") (Some 0%Q) (Some 500%Z)
               (Some (js "gpt-4o")) in
  isGPT5OrNewer (model req) = false /\
  temperature req = Some 0%Q /\
  (0 == 0)%Q /\
  b_temperature (buildRequestBody req (js "p")) = Some (7 # 10)%Q.
Proof.
  cbv zeta. split; [reflexivity|]. split; [reflexivity|]. split; [reflexivity|].
  apply (legacy_zero_temperature_defaults _ (js "p") 0%Q); reflexivity.
Defined.
End RequestAdapter.

Section UsageNormalization.
Import EdgeFunction Samples.

(** C5: the statistics of a result, field by field. *)
Theorem usage_normalization (env : Env) (req : AnalysisRequest)
    (sent : OpenAIRequestBody) (d : ProviderData) :
  let u := default emptyUsage (usage d) in
  let s := statistics (assembleResult env req sent d) in
  inputTokens s = default (default 0%Z (prompt_tokens u)) (input_tokens u) /\
  outputTokens s = default (default 0%Z (completion_tokens u)) (output_tokens u) /\
  reasoningTokens s =
    default (default 0%Z (completion_tokens_details u ≫= d_reasoning_tokens))
      (reasoning_tokens u) /\
  totalTokens s = default (inputTokens s + outputTokens s)%Z (total_tokens u) /\
  totalTokens (statistics (assembleResult env req sent
                 (mkData (ContentString (js "ok")) ContentOther None (Some usage15))))
    = 15%Z.
Proof.
  cbv zeta. unfold assembleResult, normalizeUsage, nullish.
  destruct (usage d) as [u|]; cbn; repeat split.
Qed.
End UsageNormalization.

Section Validation.
Import EdgeFunction ServeSpec Samples.

Lemma serve_no_files_no_call env request :
  selectedFiles (body request) = [] -> providerCalls (serve env request).1 = [].
Proof.
  intros Hnil. unfold serve. rewrite Hnil.
  destruct (bool_decide _); [done|].
  destruct (negb _); [done|].
  destruct (authorization request) as [h|]; [|done].
  destruct (negb _); [done|].
  destruct (getUser env h); done.
Qed.

Lemma serve_ignores_prompt env m a files p p' t mt mo :
  providerCalls
    (serve env (mkRequest m a (mkAnalysisRequest files p t mt mo))).1 = [] <->
  providerCalls
    (serve env (mkRequest m a (mkAnalysisRequest files p' t mt mo))).1 = [].
Proof.
  unfold serve. cbn [method authorization body selectedFiles prompt].
  destruct (bool_decide _); [done|].
  destruct (negb (JS.truthy (orString _ _))); [done|].
  destruct a as [h|]; [|done].
  destruct (negb (JS.truthy h)); [done|].
  destruct (getUser env h) as [uid|]; [|done].
  rewrite readFiles_spec. cbn [app].
  destruct (negb (JS.truthy (sections env uid files))); [done|].
  destruct (negb (ok _)), (negb (ok _)); cbn [fst];
    rewrite !providerCalls_app, !providerCalls_skipped; split; discriminate.
Qed.

(** C7: the page turns down a submission without files or with a
    blank prompt: [handleAnalyze] does not invoke the edge function,
    so no provider is called.  The edge function on its own calls no
    provider and returns no result for a request without files; it
    never looks at the prompt: whether it calls the provider is the
    same for every prompt. *)
Theorem validation_before_call (env : Env) :
  (forall st : Client.PageState,
     Client.selectedFiles st = [] \/ JS.trim (Client.prompt st) = [] ->
     Client.dispatch env st (Client.handleAnalyze st) = [] /\
     Client.analyze env st = [] /\
     exists msg, Client.handleAnalyze st = [Client.ToastError msg]) /\
  (forall request,
     selectedFiles (body request) = [] ->
     providerCalls (serve env request).1 = [] /\
     forall res, (serve env request).2 <> ResultResponse res) /\
  (forall m a files p p' t mt mo,
     providerCalls
       (serve env (mkRequest m a (mkAnalysisRequest files p t mt mo))).1 = [] <->
     providerCalls
       (serve env (mkRequest m a (mkAnalysisRequest files p' t mt mo))).1 = []).
Proof.
  split; [|split].
  - intros st H.
    assert (Hh : exists msg, Client.handleAnalyze st = [Client.ToastError msg]).
    { unfold Client.handleAnalyze. destruct H as [H|H].
      - rewrite H. cbn. eauto.
      - destruct (length (Client.selectedFiles st) =? 0)%nat; [eauto|].
        rewrite H. cbn. eauto. }
    destruct Hh as [msg Hmsg]. unfold Client.analyze. rewrite Hmsg. cbn.
    repeat split; eauto.
  - intros request Hnil. split; [by apply serve_no_files_no_call|].
    intros res. unfold serve. rewrite Hnil.
    destruct (bool_decide _); [done|].
    destruct (negb _); [done|].
    destruct (authorization request) as [h|]; [|done].
    destruct (negb _); [done|].
    destruct (getUser env h); done.
  - apply serve_ignores_prompt.
Qed.

Lemma validation_before_call_witness :
  let st := page0 [js "a.csv"] (js "   ") in
  (Client.selectedFiles st = [] \/ JS.trim (Client.prompt st) = []) /\
  Client.analyze (env0 (reply (js "ok") usage15)) st = [].
Proof.
  cbv zeta. split; [right; reflexivity|].
  apply (proj1 (validation_before_call (env0 (reply (js "ok") usage15)))
           (page0 [js "a.csv"] (js "   "))).
  right. reflexivity.
Defined.

(** C7 as stated fails for a request that reaches the edge function
    itself: it does not look at the prompt, so a blank prompt with a
    file that resolves reaches the provider and is answered with a
    result. *)
Remark serve_blank_prompt_reaches_provider :
  let env := env0 (reply (js "ok") usage15) in
  let request := post (mkAnalysisRequest [js "a.csv"] (js "   ") None None None) in
  JS.trim (prompt (body request)) = [] /\
  exists sent res,
    serve env request = ([Fetch sent], ResultResponse res) /\
    providerCalls (serve env request).1 = [Fetch sent].
Proof. cbv zeta. split; [reflexivity|]. eexists _, _. split; vm_compute; reflexivity. Qed.
End Validation.

Section FileResolution.
Import EdgeFunction ServeSpec Samples.

Lemma noReadable_not_provider_error st msg :
  ErrorResponse st (js "OpenAI API error: " ++ msg) <> noReadableContent.
Proof. unfold noReadableContent. intros H. inversion H. Qed.

Lemma readFiles_literal env uid : forall names acc log,
  readFiles env uid names acc log =
  (acc ++ concat (map (fun n =>
       match bucket env !! (uid ++ js "/farm-data/" ++ n) with
       | Some text =>
           [JS.LF; JS.LF] ++ js "=== File: " ++ n ++ js " ===" ++ [JS.LF] ++ text
       | None =>
           match bucket env !! (uid ++ js "/certification-requirements/" ++ n) with
           | Some text =>
               [JS.LF; JS.LF] ++ js "=== File: " ++ n ++ js " ===" ++ [JS.LF] ++ text
           | None => []
           end
       end) names),
   log ++ concat (map (fun n =>
       match bucket env !! (uid ++ js "/farm-data/" ++ n),
             bucket env !! (uid ++ js "/certification-requirements/" ++ n) with
       | None, None => [ConsoleError n]
       | _, _ => []
       end) names)).
Proof.
  intros names acc log. rewrite readFiles_spec. unfold sections, skipped, resolve.
  f_equal; f_equal; f_equal; apply map_ext; intros n;
    change (farmDataPath uid n) with (uid ++ js "/farm-data/" ++ n);
    change (certificationPath uid n)
      with (uid ++ js "/certification-requirements/" ++ n);
    destruct (bucket env !! (uid ++ js "/farm-data/" ++ n));
    destruct (bucket env !! (uid ++ js "/certification-requirements/" ++ n));
    reflexivity.
Qed.

(** C8: for every selected name the object user/farm-data/name is
    tried first and its text is the one used, whatever the other
    folder holds; only when it is missing is
    user/certification-requirements/name tried; a name found in
    neither is logged and skipped.  The request fails with the
    no-content error, without any provider call, exactly when every
    name is missing from both folders; otherwise the provider receives
    the texts so chosen. *)
Theorem file_resolution_order (env : Env) (request : Request) (uid : jsstring) :
  Authenticated env request uid ->
  (forall name rest acc log text,
      bucket env !! (uid ++ js "/farm-data/" ++ name) = Some text ->
      readFiles env uid (name :: rest) acc log
      = readFiles env uid rest
          (acc ++ [JS.LF; JS.LF] ++ js "=== File: " ++ name ++ js " ==="
               ++ [JS.LF] ++ text) log) /\
  (forall name rest acc log text,
      bucket env !! (uid ++ js "/farm-data/" ++ name) = None ->
      bucket env !! (uid ++ js "/certification-requirements/" ++ name) = Some text ->
      readFiles env uid (name :: rest) acc log
      = readFiles env uid rest
          (acc ++ [JS.LF; JS.LF] ++ js "=== File: " ++ name ++ js " ==="
               ++ [JS.LF] ++ text) log) /\
  (forall name rest acc log,
      bucket env !! (uid ++ js "/farm-data/" ++ name) = None ->
      bucket env !! (uid ++ js "/certification-requirements/" ++ name) = None ->
      readFiles env uid (name :: rest) acc log
      = readFiles env uid rest acc (log ++ [ConsoleError name])) /\
  ((serve env request).2 =
     ErrorResponse 400 (js "No file contents could be read from the selected files") <->
   Forall (fun name =>
             bucket env !! (uid ++ js "/farm-data/" ++ name) = None /\
             bucket env !! (uid ++ js "/certification-requirements/" ++ name) = None)
     (selectedFiles (body request))) /\
  ((serve env request).2 =
     ErrorResponse 400 (js "No file contents could be read from the selected files") ->
   providerCalls (serve env request).1 = []) /\
  (~ Forall (fun name =>
               bucket env !! (uid ++ js "/farm-data/" ++ name) = None /\
               bucket env !! (uid ++ js "/certification-requirements/" ++ name) = None)
       (selectedFiles (body request)) ->
   exists sent,
     providerCalls (serve env request).1 = [Fetch sent] /\
     b_messages sent =
       [ mkMessage (js "system") systemMessage;
         mkMessage (js "user")
           (prompt (body request) ++ [JS.LF; JS.LF]
            ++ js "Here are the contents of the selected data files:" ++ [JS.LF]
            ++ concat (map (fun n =>
                 match bucket env !! (uid ++ js "/farm-data/" ++ n) with
                 | Some text =>
                     [JS.LF; JS.LF] ++ js "=== File: " ++ n ++ js " ==="
                       ++ [JS.LF] ++ text
                 | None =>
                     match bucket env
                           !! (uid ++ js "/certification-requirements/" ++ n) with
                     | Some text =>
                         [JS.LF; JS.LF] ++ js "=== File: " ++ n ++ js " ==="
                           ++ [JS.LF] ++ text
                     | None => []
                     end
                 end) (selectedFiles (body request)))
            ++ [JS.LF; JS.LF]
            ++ js "Please analyze this data according to the prompt above.") ]).
Proof.
  intros Hauth.
  assert (Hnone : Forall (fun name => resolve env uid name = None)
                    (selectedFiles (body request)) <->
                  Forall (fun name =>
                      bucket env !! (uid ++ js "/farm-data/" ++ name) = None /\
                      bucket env !! (uid ++ js "/certification-requirements/" ++ name)
                        = None)
                    (selectedFiles (body request))).
  { apply Forall_iff. intros n. unfold resolve.
    change (farmDataPath uid n) with (uid ++ js "/farm-data/" ++ n).
    change (certificationPath uid n)
      with (uid ++ js "/certification-requirements/" ++ n).
    destruct (bucket env !! (uid ++ js "/farm-data/" ++ n));
      [split; [done | by intros [? _]] | split; [done | by intros [_ ?]]]. }
  split; [|split; [|split; [|split; [|split]]]].
  - intros name rest acc log text H. cbn [readFiles]. unfold download.
    change (farmDataPath uid name) with (uid ++ js "/farm-data/" ++ name).
    by rewrite H.
  - intros name rest acc log text H1 H2. cbn [readFiles]. unfold download.
    change (farmDataPath uid name) with (uid ++ js "/farm-data/" ++ name).
    change (certificationPath uid name)
      with (uid ++ js "/certification-requirements/" ++ name).
    by rewrite H1, H2.
  - intros name rest acc log H1 H2. cbn [readFiles]. unfold download.
    change (farmDataPath uid name) with (uid ++ js "/farm-data/" ++ name).
    change (certificationPath uid name)
      with (uid ++ js "/certification-requirements/" ++ name).
    by rewrite H1, H2.
  - rewrite <- Hnone. rewrite (serve_authenticated _ _ _ Hauth). cbv zeta.
    rewrite <- sections_empty.
    destruct (JS.truthy (sections env uid _)); cbn [negb].
    + split; [|done]. destruct (negb (ok _)); cbn [snd]; [|done].
      intros H. by apply noReadable_not_provider_error in H.
    + done.
  - rewrite (serve_authenticated _ _ _ Hauth). cbv zeta.
    destruct (JS.truthy (sections env uid _)); cbn [negb].
    + destruct (negb (ok _)); cbn [snd]; [|done].
      intros H. by apply noReadable_not_provider_error in H.
    + intros _. apply providerCalls_skipped.
  - intros Hsome. rewrite <- Hnone, <- sections_empty in Hsome.
    apply not_false_iff_true in Hsome.
    rewrite (serve_authenticated _ _ _ Hauth). cbv zeta. rewrite Hsome. cbn [negb].
    pose proof (readFiles_literal env uid (selectedFiles (body request)) [] []) as Hlit.
    rewrite readFiles_spec in Hlit. cbn [app] in Hlit.
    injection Hlit as Hsec _.
    eexists. split.
    + destruct (negb (ok _)); cbn [fst];
        rewrite providerCalls_app, providerCalls_skipped; reflexivity.
    + unfold buildRequestBody.
      destruct (isGPT5OrNewer _); cbn [b_messages]; unfold fullPrompt;
        by rewrite Hsec.
Qed.

Lemma file_resolution_order_witness :
  let env := env0 (reply (js "ok") usage15) in
  let request := post (mkAnalysisRequest [js "a.csv"; js "zz.csv"] (js "p")
                         None None None) in
  Authenticated env request uid0 /\
  bucket env !! js "u1/farm-data/a.csv" = Some (js "k,v") /\
  bucket env !! js "u1/certification-requirements/a.csv" = Some (js "old") /\
  readFiles env uid0 [js "a.csv"] [] []
    = ([JS.LF; JS.LF] ++ js "=== File: a.csv ===" ++ [JS.LF] ++ js "k,v", []) /\
  readFiles env uid0 [js "zz.csv"] [] [] = ([], [ConsoleError (js "zz.csv")]) /\
  exists sent,
    providerCalls (serve env request).1 = [Fetch sent] /\
    b_messages sent =
      [ mkMessage (js "system") systemMessage;
        mkMessage (js "user")
          (js "p" ++ [JS.LF; JS.LF]
           ++ js "Here are the contents of the selected data files:" ++ [JS.LF]
           ++ ([JS.LF; JS.LF] ++ js "=== File: a.csv ===" ++ [JS.LF] ++ js "k,v")
           ++ [JS.LF; JS.LF]
           ++ js "Please analyze this data according to the prompt above.") ].
Proof.
  cbv zeta.
  assert (Hauth : Authenticated (env0 (reply (js "ok") usage15))
            (post (mkAnalysisRequest [js "a.csv"; js "zz.csv"] (js "p")
                     None None None)) uid0).
  { split; [vm_compute; discriminate|]. split.
    - exists (js "sk-test"). split; [reflexivity | vm_compute; discriminate].
    - exists token0. split; [reflexivity|]. split; [vm_compute; discriminate|].
      reflexivity. }
  split; [exact Hauth|].
  split; [vm_compute; reflexivity|]. split; [vm_compute; reflexivity|].
  destruct (file_resolution_order _ _ _ Hauth) as (H1 & _ & H3 & _ & _ & H6).
  split; [|split].
  - apply (H1 (js "a.csv") [] [] [] (js "k,v")). vm_compute. reflexivity.
  - apply (H3 (js "zz.csv") [] [] []); vm_compute; reflexivity.
  - destruct H6 as (sent & Hcalls & Hmsg).
    + intros HF. apply Forall_inv in HF. destruct HF as [HF _].
      vm_compute in HF. discriminate.
    + exists sent. split; [exact Hcalls|]. rewrite Hmsg. vm_compute. reflexivity.
Defined.
End FileResolution.

Section PromptAssembly.
Import EdgeFunction ServeSpec Samples.

Lemma sections_all_resolved env uid names :
  Forall (fun n => is_Some (resolve env uid n)) names ->
  sections env uid names =
  concat (map (fun n => [JS.LF; JS.LF] ++ js "=== File: " ++ n ++ js " ==="
                        ++ [JS.LF] ++ default [] (resolve env uid n)) names).
Proof.
  unfold sections. induction 1 as [|n names [t Ht] _ IH]; [done|].
  cbn [map concat]. rewrite IH, Ht. done.
Qed.

(** C9: one delimited section per selected file, in the order of the
    request, inside the user message that is sent. *)
Theorem prompt_sections_in_caller_order (env : Env) (request : Request)
    (uid : jsstring) :
  Authenticated env request uid ->
  selectedFiles (body request) <> [] ->
  Forall (fun n => is_Some (resolve env uid n)) (selectedFiles (body request)) ->
  exists sent,
    providerCalls (serve env request).1 = [Fetch sent] /\
    b_messages sent =
      [ mkMessage (js "system") systemMessage;
        mkMessage (js "user")
          (prompt (body request) ++ [JS.LF; JS.LF]
           ++ js "Here are the contents of the selected data files:" ++ [JS.LF]
           ++ concat (map (fun n => [JS.LF; JS.LF] ++ js "=== File: " ++ n
                                    ++ js " ===" ++ [JS.LF]
                                    ++ default [] (resolve env uid n))
                        (selectedFiles (body request)))
           ++ [JS.LF; JS.LF]
           ++ js "Please analyze this data according to the prompt above.") ].
Proof.
  intros Hauth Hne Hall.
  rewrite (serve_authenticated _ _ _ Hauth). cbv zeta.
  assert (Htruthy : JS.truthy (sections env uid (selectedFiles (body request))) = true).
  { destruct (JS.truthy _) eqn:E; [done|]. apply sections_empty in E.
    destruct (selectedFiles (body request)) as [|n ns]; [done|].
    inversion E as [|? ? Hn _]; subst. inversion Hall as [|? ? [t Ht] _]; subst.
    congruence. }
  rewrite Htruthy. cbn [negb].
  set (sent := buildRequestBody _ _).
  exists sent. split.
  - destruct (negb (ok _)); cbn [fst]; rewrite providerCalls_app,
      providerCalls_skipped; reflexivity.
  - subst sent. rewrite sections_all_resolved by done.
    unfold buildRequestBody. by destruct (isGPT5OrNewer _).
Qed.

Lemma prompt_sections_witness :
  let env := env0 (reply (js "ok") usage15) in
  let request := post (mkAnalysisRequest [js "b.csv"; js "a.csv"] (js "p")
                         None None None) in
  Authenticated env request uid0 /\
  selectedFiles (body request) <> [] /\
  Forall (fun n => is_Some (resolve env uid0 n)) (selectedFiles (body request)) /\
  exists sent,
    providerCalls (serve env request).1 = [Fetch sent] /\
    b_messages sent =
      [ mkMessage (js "system") systemMessage;
        mkMessage (js "user")
          (js "p" ++ [JS.LF; JS.LF]
           ++ js "Here are the contents of the selected data files:" ++ [JS.LF]
           ++ ([JS.LF; JS.LF] ++ js "=== File: b.csv ===" ++ [JS.LF] ++ js "x,y")
           ++ ([JS.LF; JS.LF] ++ js "=== File: a.csv ===" ++ [JS.LF] ++ js "k,v")
           ++ [JS.LF; JS.LF]
           ++ js "Please analyze this data according to the prompt above.") ].
Proof.
  cbv zeta.
  assert (Hauth : Authenticated (env0 (reply (js "ok") usage15))
            (post (mkAnalysisRequest [js "b.csv"; js "a.csv"] (js "p")
                     None None None)) uid0).
  { split; [vm_compute; discriminate|]. split.
    - exists (js "sk-test"). split; [reflexivity | vm_compute; discriminate].
    - exists token0. split; [reflexivity|]. split; [vm_compute; discriminate|].
      reflexivity. }
  assert (Hall : Forall (fun n => is_Some (resolve (env0 (reply (js "ok") usage15)) uid0 n))
                   [js "b.csv"; js "a.csv"]).
  { repeat constructor; vm_compute; eauto. }
  split; [exact Hauth|]. split; [discriminate|]. split; [exact Hall|].
  destruct (prompt_sections_in_caller_order _ _ _ Hauth ltac:(discriminate) Hall)
    as (sent & Hcalls & Hmsgs).
  exists sent. split; [exact Hcalls|]. rewrite Hmsgs. vm_compute. reflexivity.
Defined.
End PromptAssembly.

Section EmptyText.
Import EdgeFunction ServeSpec Samples.

Lemma reasoningMessage_trim r mt :
  JS.trim (reasoningMessage r mt) = reasoningMessage r mt.
Proof.
  unfold reasoningMessage.
  set (tail := js ") may be too low for this complex analysis. Try increasing to 4000+ tokens or simplifying your prompt.").
  apply (trim_id _ 84 46); try reflexivity.
  rewrite !app_assoc. 
  change tail with (js ") may be too low for this complex analysis. Try increasing to 4000+ tokens or simplifying your prompt" ++ [46]).
  rewrite app_assoc. apply last_snoc.
Qed.

Lemma Fetch_not_skipped env uid names sent : Fetch sent ∉ skipped env uid names.
Proof.
  unfold skipped. induction names as [|n names IH]; cbn [map concat].
  - apply not_elem_of_nil.
  - rewrite elem_of_app. intros [H|H]; [|done].
    destruct (resolve env uid n); [by apply elem_of_nil in H|].
    apply list_elem_of_singleton in H. done.
Qed.

(** An exit of the handler before the provider is called leaves no
    [Fetch] among the events. *)
Ltac early_exit Hserve Hin :=
  inversion Hserve; subst;
  first [ by apply elem_of_nil in Hin | by apply Fetch_not_skipped in Hin ].

(** A provider call that completed is answered with a result. *)
Lemma serve_completed env request events response sent :
  serve env request = (events, response) ->
  Fetch sent ∈ events ->
  ok (openai env sent) = true ->
  response = ResultResponse
               (assembleResult env (body request) sent (data (openai env sent))).
Proof.
  unfold serve. intros Hserve Hin Hok.
  destruct (bool_decide _); [early_exit Hserve Hin|].
  destruct (negb (JS.truthy (orString _ _))); [early_exit Hserve Hin|].
  destruct (authorization request) as [h|]; [|early_exit Hserve Hin].
  destruct (negb (JS.truthy h)); [early_exit Hserve Hin|].
  destruct (getUser env h) as [uid|]; [|early_exit Hserve Hin].
  rewrite readFiles_spec in Hserve. cbn [app] in Hserve.
  destruct (negb (JS.truthy _)); [early_exit Hserve Hin|].
  set (sent' := buildRequestBody _ _) in Hserve.
  assert (Hsent : sent = sent').
  { destruct (negb (ok (openai env sent'))); inversion Hserve; subst events;
      apply elem_of_app in Hin as [Hin|Hin];
      try (by apply Fetch_not_skipped in Hin).
    - apply elem_of_cons in Hin as [Hin|Hin]; [by inversion Hin|].
      apply list_elem_of_singleton in Hin. done.
    - apply list_elem_of_singleton in Hin. by inversion Hin. }
  subst sent'. rewrite <- Hsent in Hserve. rewrite Hok in Hserve.
  cbn [negb] in Hserve. by inversion Hserve.
Qed.

Lemma reasoningMessage_names r mt :
  JS.includes (reasoningMessage r mt) (JS.numberToString (orInt mt 2000)) = true.
Proof.
  unfold reasoningMessage. rewrite !app_assoc. rewrite <- app_assoc.
  apply includes_app.
Qed.

Lemma reasoningMessage_nonempty r mt : reasoningMessage r mt <> [].
Proof. done. Qed.

(** C6, as the code has it: an empty text with used tokens is
    replaced by a non-empty message, the statistics are the
    normalised ones, and the message names the requested maximum
    (default 2000) when reasoning tokens were used. *)
Theorem empty_text_fallback (env : Env) (request : Request)
    (events : list Event) (response : Response) (sent : OpenAIRequestBody)
    (i o r t : Z) :
  serve env request = (events, response) ->
  Fetch sent ∈ events ->
  ok (openai env sent) = true ->
  extractGeneratedText (data (openai env sent)) = [] ->
  normalizeUsage (usage (data (openai env sent))) = (i, o, r, t) ->
  (0 < r \/ 0 < o)%Z ->
  exists res,
    response = ResultResponse res /\
    generatedText res <> [] /\
    statistics res = mkStatistics (processingTime env) i o r t (b_model sent) /\
    ((0 < r)%Z ->
       generatedText res = reasoningMessage r (maxTokens (body request)) /\
       JS.includes (generatedText res)
         (JS.numberToString (orInt (maxTokens (body request)) 2000)) = true) /\
    ((r <= 0)%Z -> generatedText res = emptyContentMessage).
Proof.
  intros Hserve Hin Hok Hempty Husage Htokens.
  rewrite (serve_completed _ _ _ _ _ Hserve Hin Hok).
  eexists. split; [reflexivity|].
  unfold assembleResult. rewrite Husage, Hempty. cbn [generatedText statistics].
  unfold substituteEmpty. cbn [JS.truthy negb andb].
  destruct (0 <? r)%Z eqn:Er.
  - cbn [orb]. rewrite reasoningMessage_trim.
    split; [apply reasoningMessage_nonempty|]. split; [done|]. split.
    + intros _. split; [done|]. apply reasoningMessage_names.
    + intros Hr. apply Z.ltb_lt in Er. lia.
  - cbn [orb]. assert (Ho : (0 <? o)%Z = true).
    { apply Z.ltb_lt. apply Z.ltb_ge in Er. lia. }
    rewrite Ho. split; [done|]. split; [done|]. split.
    + intros Hr. apply Z.ltb_ge in Er. lia.
    + intros _. reflexivity.
Qed.

Lemma empty_text_fallback_witness :
  let env := env0 (reply [] usageReasoning) in
  let request := post (mkAnalysisRequest [js "a.csv"] (js "p") None None None) in
  exists sent res,
    Fetch sent ∈ (serve env request).1 /\
    (serve env request).2 = ResultResponse res /\
    generatedText res <> [] /\
    reasoningTokens (statistics res) = 42%Z /\
    JS.includes (generatedText res) (js "2000") = true.
Proof.
  cbv zeta.
  set (env := env0 (reply [] usageReasoning)).
  set (request := post (mkAnalysisRequest [js "a.csv"] (js "p") None None None)).
  set (sent := buildRequestBody (body request)
                 (fullPrompt (js "p") (fileSection (js "a.csv") (js "k,v")))).
  assert (Hserve : serve env request = ((serve env request).1, (serve env request).2))
    by (by destruct (serve env request)).
  assert (Hin : Fetch sent ∈ (serve env request).1).
  { vm_compute. apply list_elem_of_here. }
  destruct (empty_text_fallback env request _ _ sent 10 42 42 52 Hserve Hin
              eq_refl eq_refl eq_refl ltac:(left; reflexivity))
    as (res & Hres & Hne & Hstats & Hreason & _).
  exists sent, res. split; [exact Hin|]. split; [exact Hres|].
  split; [exact Hne|]. split; [by rewrite Hstats|].
  destruct (Hreason eq_refl) as [_ Hinc]. exact Hinc.
Defined.

(** C6 as stated fails when only output tokens were used: the message
    then names no number at all. *)
Lemma empty_text_message_without_maximum :
  let env := env0 (reply [] usage15) in
  let request := post (mkAnalysisRequest [js "a.csv"] (js "p") None None None) in
  exists sent res,
    serve env request = ([Fetch sent], ResultResponse res) /\
    extractGeneratedText (data (openai env sent)) = [] /\
    outputTokens (statistics res) = 5%Z /\
    reasoningTokens (statistics res) = 0%Z /\
    b_max_tokens sent = Some 2000%Z /\
    generatedText res = emptyContentMessage /\
    JS.includes (generatedText res) (JS.numberToString 2000) = false.
Proof. cbv zeta. eexists. eexists. vm_compute. repeat split. Qed.
End EmptyText.

Section Rules.
Import JS RegExp Classifier ClassifierSpec Aux.

Lemma hd_split_elem c t sep : c ∈ hd [] (split t sep) -> c ∈ t.
Proof.
  destruct (split_join t sep) as (h & tl & Hs & Hj & _). rewrite Hs. cbn [hd].
  intros H. rewrite Hj. apply elem_of_app. by left.
Qed.

(** C3, as the code has it: the rule returns the csv artifact exactly
    for the texts whose trimmed form holds a header line at a line
    start, has two lines or more and a comma in its first line. *)
Theorem csv_like_rule_exact (text : jsstring) (fi : FileInfo) :
  csvLikeRule text = Some fi <->
  CsvLike (trim text) /\ fi = csvArtifact (trim text).
Proof.
  unfold csvLikeRule, CsvLike.
  destruct (test csvLikePattern (trim text)) eqn:Etest.
  - apply csvLikePattern_test in Etest.
    destruct (includes text [COMMA]) eqn:Einc; cbn [andb].
    + destruct (1 <? length (split (trim text) LF))%nat eqn:Elen; cbn [andb].
      * destruct (includes (hd [] (split (trim text) LF)) [COMMA]) eqn:Ehd.
        -- apply Nat.ltb_lt in Elen. apply includes_singleton in Ehd.
           split.
           ++ intros [= <-]. repeat split; try done.
           ++ intros [_ ->]. done.
        -- split; [done|]. intros [(_ & _ & H) _].
           apply includes_singleton in H. congruence.
      * split; [done|]. intros [(_ & H & _) _]. apply Nat.ltb_ge in Elen. lia.
    + split; [done|]. intros [(_ & _ & H) _].
      apply hd_split_elem, elem_of_trim, includes_singleton in H. congruence.
  - cbn [andb]. split; [done|]. intros [(H & _) _].
    apply csvLikePattern_test in H. congruence.
Qed.

Lemma csv_like_rule_witness :
  csvLikeRule (js "a,b" ++ [LF] ++ js "1,2")
  = Some (csvArtifact (js "a,b" ++ [LF] ++ js "1,2")).
Proof.
  apply (csv_like_rule_exact (js "a,b" ++ [LF] ++ js "1,2")). split; [|reflexivity].
  change (trim (js "a,b" ++ [LF] ++ js "1,2")) with (js "a,b" ++ [LF] ++ js "1,2").
  split; [|split].
  - exists [], (js "a,b"), (js "1,2"). split; [reflexivity|]. split; [by left|].
    split.
    + vm_compute. intros H. repeat (apply elem_of_cons in H as [H|H]; [done|]).
      by apply elem_of_nil in H.
    + vm_compute. repeat constructor; done.
  - vm_compute. lia.
  - vm_compute. apply list_elem_of_further, list_elem_of_here.
Defined.

(** C3 as stated fails in both directions. *)
Lemma csv_like_rule_not_every_line :
  (csvLikeRule (js "a,b" ++ [LF] ++ js "hello")
     = Some (csvArtifact (js "a,b" ++ [LF] ++ js "hello")) /\
   ~ SpecCsvLike (trim (js "a,b" ++ [LF] ++ js "hello"))) /\
  (csvLikeRule (js "a,,b" ++ [LF] ++ js "1,2") = None /\
   SpecCsvLike (trim (js "a,,b" ++ [LF] ++ js "1,2"))).
Proof.
  split; split.
  - vm_compute. reflexivity.
  - intros [H _]. vm_compute in H. inversion H as [|? ? _ H2]; subst.
    inversion H2 as [|? ? H3 _]; subst.
    repeat (apply elem_of_cons in H3 as [H3|H3]; [done|]).
    by apply elem_of_nil in H3.
  - vm_compute. reflexivity.
  - split; [|split].
    + vm_compute. repeat constructor.
    + vm_compute. apply list_elem_of_further, list_elem_of_here.
    + vm_compute. lia.
Qed.

Lemma codeBlockRule_rules text fi : forall rules,
  Forall (fun r => r_tags r <> []) rules ->
  codeBlockRule text (map patternOf rules) = Some fi <->
  exists earlier rule later inner,
    rules = earlier ++ rule :: later /\
    firstBlock (r_tags rule) text = Some inner /\ inner <> [] /\
    Forall (NoContent text) earlier /\
    fi = blockArtifact rule inner.
Proof.
  induction rules as [|r rules IH]; intros Htags.
  - cbn. split; [done|]. intros (e & ? & ? & ? & H & _). by destruct e.
  - inversion Htags as [|? ? Hr Hrs]; subst. cbn [map codeBlockRule].
    unfold patternOf at 1. rewrite tryPattern_fence by done.
    destruct (firstBlock (r_tags r) text) as [inner|] eqn:Eb.
    + destruct inner as [|c inner]; cbn [truthy].
      * rewrite (IH Hrs). split.
        -- intros (e & rule & l & i & -> & ? & ? & ? & ->).
           exists (r :: e), rule, l, i. repeat split; try done.
           constructor; [by right | done].
        -- intros (e & rule & l & i & He & Hb & Hne & Hall & ->).
           destruct e as [|r0 e]; cbn in He; inversion He; subst.
           ++ congruence.
           ++ exists e, rule, l, i. inversion Hall; subst. done.
      * split.
        -- intros [= <-]. exists [], r, rules, (c :: inner). done.
        -- intros (e & rule & l & i & He & Hb & Hne & Hall & ->).
           destruct e as [|r0 e]; cbn in He; inversion He; subst.
           ++ rewrite Hb in Eb. by inversion Eb.
           ++ inversion Hall as [|? ? [Hn|Hn] _]; subst; congruence.
    + rewrite (IH Hrs). split.
      * intros (e & rule & l & i & -> & ? & ? & ? & ->).
        exists (r :: e), rule, l, i. repeat split; try done.
        constructor; [by left | done].
      * intros (e & rule & l & i & He & Hb & Hne & Hall & ->).
        destruct e as [|r0 e]; cbn in He; inversion He; subst.
        -- congruence.
        -- exists e, rule, l, i. inversion Hall; subst. done.
Qed.

(** C4, as the code has it: the tags are tried in the order of the
    table, and the first one whose leftmost block has a non-empty
    inner content gives the artifact, its content being that inner
    content trimmed. *)
Theorem code_block_rule_first_content (text : jsstring) (fi : FileInfo) :
  (codeBlockRule text patterns = Some fi <->
   exists earlier rule later inner,
     fenceRules = earlier ++ rule :: later /\
     firstBlock (r_tags rule) text = Some inner /\ inner <> [] /\
     Forall (NoContent text) earlier /\
     fi = blockArtifact rule inner) /\
  (forall tags inner, firstBlock tags text = Some inner -> HasBlock tags text inner) /\
  (forall tags inner, HasBlock tags text inner -> is_Some (firstBlock tags text)) /\
  (forall s c, head (trim s) = Some c \/ last (trim s) = Some c ->
               isTrimmable c = false) /\
  detectDownloadableContent
    (js "```json" ++ [LF] ++ js "{" ++ [QUOTE] ++ js "a" ++ [QUOTE] ++ js ":1}"
       ++ [LF] ++ js "```")
  = Some (mkFileInfo true (js "{" ++ [QUOTE] ++ js "a" ++ [QUOTE] ++ js ":1}")
            (js "analysis_result.json") (js "json") (js "application/json")
            (js "json")).
Proof.
  split; [|split; [|split; [|split]]].
  - change patterns with (map patternOf fenceRules).
    apply codeBlockRule_rules. repeat constructor; discriminate.
  - intros tags inner. apply firstBlock_sound.
  - intros tags inner. apply firstBlock_complete.
  - intros s c [H|H]; [by apply (proj1 (trim_clean s)) | by apply (proj2 (trim_clean s))].
  - vm_compute. reflexivity.
Qed.

Lemma code_block_rule_witness :
  codeBlockRule (js "```SQL" ++ [LF] ++ js " select 1 " ++ [LF] ++ js "```") patterns
  = Some (mkFileInfo true (js "select 1") (js "analysis_result.sql") (js "sql")
            (js "text/plain") (js "sql")).
Proof.
  apply (code_block_rule_first_content
           (js "```SQL" ++ [LF] ++ js " select 1 " ++ [LF] ++ js "```")).
  exists (take 4 fenceRules),
         (mkFenceRule ["sql"] (js "sql") (js "sql") (js "text/plain")),
         (drop 5 fenceRules), (js " select 1 ").
  split; [reflexivity|]. split; [vm_compute; reflexivity|].
  split; [discriminate|]. split; [|vm_compute; reflexivity].
  repeat constructor; left; vm_compute; reflexivity.
Defined.

(** C4 as stated fails on an empty block: the csv block is there,
    the json block wins. *)
Lemma empty_block_does_not_win :
  let text := js "```csv" ++ [LF] ++ [] ++ [LF] ++ js "```" ++ [LF]
              ++ js "```json" ++ [LF] ++ js "{}" ++ [LF] ++ js "```" in
  HasBlock ["csv"] text [] /\
  codeBlockRule text patterns
    = Some (mkFileInfo true (js "{}") (js "analysis_result.json") (js "json")
              (js "application/json") (js "json")) /\
  detectDownloadableContent text = codeBlockRule text patterns.
Proof.
  cbv zeta. split; [|split; vm_compute; reflexivity].
  exists [], "csv"%string, (js "csv"),
    ([LF] ++ js "```json" ++ [LF] ++ js "{}" ++ [LF] ++ js "```").
  split; [apply list_elem_of_here|]. split; reflexivity.
Qed.

(** C1, as the code has it: an earlier rule that answers decides, and
    the bare-JSON rule is reached only when both have not. *)
Theorem classifier_precedence (text : jsstring) :
  (forall fi, csvLikeRule text = Some fi ->
              detectDownloadableContent text = Some fi) /\
  (csvLikeRule text = None ->
   forall fi, codeBlockRule text patterns = Some fi ->
              detectDownloadableContent text = Some fi) /\
  (csvLikeRule text = None -> codeBlockRule text patterns = None ->
   detectDownloadableContent text =
     if bracketed (trim text) && JSON.JSON_parse_ok (trim text)
     then Some (jsonArtifact (trim text)) else None) /\
  detectDownloadableContent (js "a,b" ++ [LF] ++ js "1,2")
    = Some (csvArtifact (js "a,b" ++ [LF] ++ js "1,2")) /\
  detectDownloadableContent (js "{" ++ [QUOTE] ++ js "x" ++ [QUOTE] ++ js ":1}")
    = Some (jsonArtifact (js "{" ++ [QUOTE] ++ js "x" ++ [QUOTE] ++ js ":1}")) /\
  detectDownloadableContent (js "{not valid json") = None.
Proof.
  split; [|split; [|split; [|repeat split]]].
  - intros fi H. unfold detectDownloadableContent.
    destruct text as [|c t]; [by vm_compute in H|]. cbn [truthy negb]. by rewrite H.
  - intros H1 fi H2. unfold detectDownloadableContent.
    destruct text as [|c t]; [by vm_compute in H2|]. cbn [truthy negb].
    by rewrite H1, H2.
  - intros H1 H2. unfold detectDownloadableContent.
    destruct text as [|c t]; [by vm_compute|]. cbn [truthy negb].
    rewrite H1, H2. unfold bareJsonRule, bracketed, jsonArtifact.
    destruct (_ || _); [|done]. cbn [andb]. by destruct (JSON.JSON_parse_ok _).
Qed.

Lemma classifier_precedence_witness :
  csvLikeRule (js "x" ++ [LF] ++ js "[1]") = None /\
  codeBlockRule (js "x" ++ [LF] ++ js "[1]") patterns = None /\
  detectDownloadableContent (js "x" ++ [LF] ++ js "[1]") = None.
Proof.
  split; [reflexivity|]. split; [reflexivity|].
  destruct (classifier_precedence (js "x" ++ [LF] ++ js "[1]")) as (_ & _ & H & _).
  rewrite H; reflexivity.
Defined.

(** C1 as stated fails for valid JSON whose first line is a header
    line: the CSV-like rule answers first. *)
Lemma valid_json_taken_for_csv :
  let text := js "{" ++ [QUOTE] ++ js "a" ++ [QUOTE] ++ js ":1," ++ [QUOTE]
              ++ js "b" ++ [QUOTE] ++ js ":2" ++ [LF] ++ js "}" in
  startsWith (trim text) (js "{") = true /\
  endsWith (trim text) (js "}") = true /\
  JSON.JSON_parse_ok (trim text) = true /\
  detectDownloadableContent text = Some (csvArtifact text) /\
  detectDownloadableContent text <> Some (jsonArtifact (trim text)).
Proof. cbv zeta. vm_compute. repeat split. discriminate. Qed.
End Rules.

Section HandlerEdges.
Import EdgeFunction ServeSpec Samples.


Lemma truthy_true (s : jsstring) : JS.truthy s = true <-> s <> [].
Proof. by destruct s. Qed.

Lemma serve_cases env request :
  (exists uid, Authenticated env request uid) \/
  ((serve env request).1 = [] /\
   ((serve env request).2 = Preflight \/
    (serve env request).2 =
      ErrorResponse 500
        (js "OpenAI API key not configured. Please add your OPENAI_API_KEY to Supabase Edge Functions secrets.") \/
    (serve env request).2 = ErrorResponse 401 (js "No authorization header") \/
    (serve env request).2 = ErrorResponse 401 (js "Unauthorized"))).
Proof.
  unfold serve, Authenticated.
  case_bool_decide as Hm; [right; split; [done | by left] |].
  destruct (OPENAI_API_KEY env) as [key|] eqn:Hk; cbn [orString].
  2: { right. split; [done | right; by left]. }
  destruct key as [|k0 key]; cbn [JS.truthy negb].
  { right. split; [done | right; by left]. }
  destruct (authorization request) as [h|] eqn:Ha.
  2: { right. split; [done | right; right; by left]. }
  destruct h as [|h0 h]; cbn [JS.truthy negb].
  { right. split; [done | right; right; by left]. }
  destruct (getUser env (h0 :: h)) as [uid|] eqn:Hu.
  2: { right. split; [done | right; right; by right]. }
  left. exists uid. split; [done|]. split; [by eexists | by eexists].
Qed.

(** X1: a request with a parsed body that fails a check made before
    the files are read (the preflight method, the API key, the
    authorization header, the user lookup) is answered by the
    preflight response, by 500 with the message about the key, or by
    401 with one of the two messages about authorization; it writes
    no console.error entry and calls no provider. *)
Theorem unauthenticated_request_turned_down (env : Env) (request : Request) :
  (forall uid, ~ Authenticated env request uid) ->
  (forall about, ConsoleError about ∉ (serve env request).1) /\
  (forall sent, Fetch sent ∉ (serve env request).1) /\
  ((serve env request).2 = Preflight \/
   (serve env request).2 =
     ErrorResponse 500
       (js "OpenAI API key not configured. Please add your OPENAI_API_KEY to Supabase Edge Functions secrets.") \/
   (serve env request).2 = ErrorResponse 401 (js "No authorization header") \/
   (serve env request).2 = ErrorResponse 401 (js "Unauthorized")).
Proof.
  intros Hno. destruct (serve_cases env request) as [[uid Hu]|[Hnil H]].
  - by destruct (Hno uid).
  - rewrite Hnil. split; [intros about; apply not_elem_of_nil|].
    split; [intros sent; apply not_elem_of_nil | exact H].
Qed.

Lemma unauthenticated_request_witness :
  let env := mkEnv (Some (js "sk-test")) (fun _ => None) bucket0
               (fun _ => reply (js "ok") usage15) (1 # 2) in
  let request := post (mkAnalysisRequest [js "a.csv"] (js "p") None None None) in
  (forall sent, Fetch sent ∉ (serve env request).1) /\
  (serve env request).2 = ErrorResponse 401 (js "Unauthorized").
Proof.
  intros env request.
  destruct (unauthenticated_request_turned_down env request) as (_ & H & _).
  - intros uid (_ & _ & h & _ & _ & Hu). simpl in Hu. discriminate.
  - split; [exact H | reflexivity].
Defined.

Lemma serve_events env request uid :
  Authenticated env request uid ->
  let r := body request in
  let fileContents := sections env uid (selectedFiles r) in
  let sent := buildRequestBody r (fullPrompt (prompt r) fileContents) in
  (serve env request).1 =
    skipped env uid (selectedFiles r)
    ++ (if JS.truthy fileContents
        then Fetch sent ::
             (if ok (openai env sent) then []
              else [ConsoleError (errorText (openai env sent))])
        else []).
Proof.
  intros Hu. rewrite (serve_authenticated _ _ _ Hu). cbv zeta.
  destruct (JS.truthy _); cbn [negb]; [|by rewrite app_nil_r].
  by destruct (ok _).
Qed.

Lemma serve_fetch env request sent :
  Fetch sent ∈ (serve env request).1 ->
  exists uid,
    Authenticated env request uid /\
    JS.truthy (sections env uid (selectedFiles (body request))) = true /\
    sent = buildRequestBody (body request)
             (fullPrompt (prompt (body request))
                (sections env uid (selectedFiles (body request)))).
Proof.
  intros Hin.
  destruct (serve_cases env request) as [[uid Hu]|[Hnil _]];
    [|rewrite Hnil in Hin; by apply elem_of_nil in Hin].
  rewrite (serve_events _ _ _ Hu) in Hin. cbv zeta in Hin.
  apply elem_of_app in Hin as [Hin|Hin]; [by apply Fetch_not_skipped in Hin|].
  destruct (JS.truthy _) eqn:Ht; [|by apply elem_of_nil in Hin].
  exists uid. split; [done|]. split; [done|].
  apply elem_of_cons in Hin as [Hin|Hin]; [by inversion Hin|].
  destruct (ok _); [by apply elem_of_nil in Hin|].
  apply list_elem_of_singleton in Hin. discriminate.
Qed.

(** X2: whatever the environment and the request, the handler calls
    the provider at most once. *)
Theorem at_most_one_provider_call (env : Env) (request : Request) :
  (length (providerCalls (serve env request).1) <= 1)%nat.
Proof.
  destruct (serve_cases env request) as [[uid Hu]|[-> _]]; [|simpl; lia].
  rewrite (serve_events _ _ _ Hu). cbv zeta.
  rewrite providerCalls_app, providerCalls_skipped.
  destruct (JS.truthy _); [|simpl; lia].
  destruct (ok _); simpl; lia.
Qed.

(** X3: the provider is called exactly for the requests that passed
    the checks and selected at least one file that resolves; the body
    sent is the one built from the request and the sections of its
    files. *)
Theorem provider_call_needs_user_and_file (env : Env) (request : Request)
    (sent : OpenAIRequestBody) :
  Fetch sent ∈ (serve env request).1 <->
  exists uid name,
    Authenticated env request uid /\
    name ∈ selectedFiles (body request) /\
    is_Some (resolve env uid name) /\
    sent = buildRequestBody (body request)
             (fullPrompt (prompt (body request))
                (sections env uid (selectedFiles (body request)))).
Proof.
  split.
  - intros Hin. apply serve_fetch in Hin as (uid & Hu & Ht & Hsent).
    assert (Hex : Exists (fun n => resolve env uid n <> None)
                    (selectedFiles (body request))).
    { apply not_Forall_Exists; [intros n; apply _|].
      intros HF. apply sections_empty in HF. congruence. }
    apply Exists_exists in Hex as (name & Hname & Hres).
    exists uid, name. split; [done|]. split; [done|]. split; [|done].
    destruct (resolve env uid name); [by eexists | done].
  - intros (uid & name & Hu & Hname & [text Hres] & ->).
    rewrite (serve_events _ _ _ Hu). cbv zeta.
    destruct (JS.truthy (sections env uid (selectedFiles (body request)))) eqn:Ht.
    + apply elem_of_app. right. apply list_elem_of_here.
    + apply sections_empty in Ht. rewrite Forall_forall in Ht.
      apply Ht in Hname. congruence.
Qed.

Lemma provider_call_witness :
  let env := env0 (reply (js "ok") usage15) in
  let request := post (mkAnalysisRequest [js "zz.csv"; js "a.csv"] (js "p") None None None) in
  exists sent,
    Fetch sent ∈ (serve env request).1 /\
    Authenticated env request uid0 /\
    is_Some (resolve env uid0 (js "a.csv")).
Proof.
  intros env request. eexists.
  split; [|split; [|by eexists]].
  - apply (provider_call_needs_user_and_file env request).
    exists uid0, (js "a.csv").
    split; [|split; [|split; [by eexists | reflexivity]]].
    + split; [discriminate|]. split; eexists; repeat split; discriminate.
    + apply list_elem_of_further, list_elem_of_here.
  - split; [discriminate|]. split; eexists; repeat split; discriminate.
Defined.

(** X4: when the provider answers with a failure whose status a
    response with a body may carry (200 to 599, except 204, 205 and
    304), the response of the handler carries that status unchanged
    and the provider's body inside the message, and the body is the
    last thing written with console.error. *)
Theorem provider_failure_passed_on (env : Env) (request : Request)
    (sent : OpenAIRequestBody) :
  Fetch sent ∈ (serve env request).1 ->
  ok (openai env sent) = false ->
  admitsBody (status (openai env sent)) = true ->
  (serve env request).2 =
    ErrorResponse (status (openai env sent))
      (js "OpenAI API error: " ++ JS.numberToString (status (openai env sent))
         ++ js " - " ++ errorText (openai env sent)) /\
  last (serve env request).1 = Some (ConsoleError (errorText (openai env sent))).
Proof.
  intros Hin Hok _. apply serve_fetch in Hin as (uid & Hu & Ht & Hsent).
  rewrite (serve_authenticated _ _ _ Hu). cbv zeta.
  rewrite Ht, <- Hsent, Hok. cbn [negb fst snd]. split; [done|].
  change [Fetch sent; ConsoleError (errorText (openai env sent))]
    with ([Fetch sent] ++ [ConsoleError (errorText (openai env sent))]).
  by rewrite app_assoc, last_snoc.
Qed.

Lemma provider_failure_witness :
  let env := env0 (mkProviderResponse false 429 (js "slow down")
                     (mkData ContentOther ContentOther None None)) in
  let request := post (mkAnalysisRequest [js "a.csv"] (js "p") None None None) in
  admitsBody 429 = true /\
  (serve env request).2 =
    ErrorResponse 429 (js "OpenAI API error: 429 - slow down").
Proof.
  intros env request. split; [reflexivity|].
  assert (Hin : Fetch (buildRequestBody (body request)
             (fullPrompt (prompt (body request))
                (sections env uid0 (selectedFiles (body request)))))
          ∈ (serve env request).1).
  { vm_compute. apply list_elem_of_here. }
  destruct (provider_failure_passed_on env request _ Hin) as [H _];
    [reflexivity | reflexivity |].
  exact H.
Defined.

End HandlerEdges.

Section TrimMore.
Import JS ServeSpec.

Lemma trimStart_blank_app p x : Blank p -> trimStart (p ++ x) = trimStart x.
Proof.
  induction 1 as [|c p Hc _ IH]; [done|].
  cbn [app trimStart]. by rewrite Hc.
Qed.

Lemma trimStart_nil s : trimStart s = [] <-> Blank s.
Proof.
  split.
  - induction s as [|c s IH]; [constructor|].
    cbn [trimStart]. destruct (isTrimmable c) eqn:Hc; [|done].
    intros H. constructor; [done | by apply IH].
  - intros H. rewrite <- (app_nil_r s). by rewrite trimStart_blank_app.
Qed.

Lemma trimStart_app s q : trimStart s <> [] -> trimStart (s ++ q) = trimStart s ++ q.
Proof.
  induction s as [|c s IH]; [done|].
  cbn [app trimStart]. destruct (isTrimmable c); [exact IH | done].
Qed.

Lemma Blank_rev s : Blank s -> Blank (rev s).
Proof. apply List.Forall_rev. Qed.

Lemma Blank_app p q : Blank p -> Blank q -> Blank (p ++ q).
Proof. apply Forall_app_2. Qed.

Lemma trimEnd_app_blank x q : Blank q -> trimEnd (x ++ q) = trimEnd x.
Proof.
  intros Hq. unfold trimEnd. rewrite rev_app_distr.
  by rewrite trimStart_blank_app by by apply Blank_rev.
Qed.

Lemma trim_surround p s q : Blank p -> Blank q -> trim (p ++ s ++ q) = trim s.
Proof.
  intros Hp Hq. unfold trim. rewrite trimStart_blank_app by done.
  destruct (trimStart s) as [|c t] eqn:Hs.
  - apply trimStart_nil in Hs.
    by rewrite (proj2 (trimStart_nil (s ++ q)) (Blank_app _ _ Hs Hq)).
  - rewrite trimStart_app by by rewrite Hs.
    rewrite Hs. by apply trimEnd_app_blank.
Qed.

Lemma trim_split s : exists p q, s = p ++ trim s ++ q /\ Blank p /\ Blank q.
Proof.
  destruct (trimStart_split s) as (p & Hs & Hp).
  destruct (trimStart_split (rev (trimStart s))) as (q & Hr & Hq).
  exists p, (rev q). split; [|split; [done | by apply Blank_rev]].
  unfold trim, trimEnd. rewrite <- rev_app_distr, <- Hr, rev_involutive. exact Hs.
Qed.

Lemma trim_idemp s : trim (trim s) = trim s.
Proof.
  destruct (trim_split s) as (p & q & Hs & Hp & Hq).
  rewrite Hs at 2. by rewrite trim_surround.
Qed.

Lemma trim_nil s : trim s = [] <-> Blank s.
Proof.
  split.
  - intros H. destruct (trim_split s) as (p & q & Hs & Hp & Hq).
    rewrite H in Hs. rewrite Hs. by apply Blank_app.
  - intros H. unfold trim. by rewrite (proj2 (trimStart_nil s) H).
Qed.

End TrimMore.

Section HandlerResult.
Import EdgeFunction ServeSpec Samples.

(** X5: the loop over the selected names puts every name in exactly
    one of its two outputs, in the order of the list: a section for a
    name that resolves, a logged error for one that does not. *)
Theorem readFiles_partition (env : Env) (uid : jsstring) (names : list jsstring)
    (acc : jsstring) (log : list Event) :
  readFiles env uid names acc log =
  (acc ++ concat ((fun n => fileSection n (default [] (resolve env uid n)))
                    <$> filter (fun n => is_Some (resolve env uid n)) names),
   log ++ (ConsoleError <$> filter (fun n => resolve env uid n = None) names)).
Proof.
  rewrite readFiles_spec. f_equal; f_equal.
  - unfold sections. induction names as [|n names IH]; [done|].
    cbn [map concat]. rewrite IH. rewrite filter_cons.
    destruct (resolve env uid n) as [text|] eqn:Hn.
    + rewrite decide_True by by eexists. cbn [fmap list_fmap concat]. by rewrite Hn.
    + rewrite decide_False by by intros [? ?]. done.
  - unfold skipped. induction names as [|n names IH]; [done|].
    cbn [map concat]. rewrite IH. rewrite filter_cons.
    destruct (resolve env uid n) as [text|] eqn:Hn.
    + rewrite decide_False by done. done.
    + rewrite decide_True by done. done.
Qed.


Lemma emptyContentMessage_trim : JS.trim emptyContentMessage = emptyContentMessage.
Proof. by vm_compute. Qed.

(** X8: the text of a result is empty exactly when the extracted text
    holds nothing but white space and, if it is empty, neither
    reasoning nor output tokens were counted. *)
Theorem returned_text_empty (env : Env) (req : AnalysisRequest)
    (sent : OpenAIRequestBody) (d : ProviderData) (i o r t : Z) :
  normalizeUsage (usage d) = (i, o, r, t) ->
  generatedText (assembleResult env req sent d) = [] <->
  Blank (extractGeneratedText d) /\
  (extractGeneratedText d = [] -> (r <= 0)%Z /\ (o <= 0)%Z).
Proof.
  intros Hu. unfold assembleResult. rewrite Hu. cbn [generatedText].
  unfold substituteEmpty.
  destruct (extractGeneratedText d) as [|c s] eqn:Hx; cbn [JS.truthy negb andb].
  - destruct (0 <? r)%Z eqn:Hr; cbn [orb].
    + rewrite reasoningMessage_trim. split.
      * intros H. by apply reasoningMessage_nonempty in H.
      * intros [_ H]. destruct (H eq_refl). lia.
    + destruct (0 <? o)%Z eqn:Ho.
      * rewrite emptyContentMessage_trim. split; [done|].
        intros [_ H]. destruct (H eq_refl). lia.
      * split; [|done]. intros _. split; [constructor|]. intros _. lia.
  - rewrite trim_nil. split; [by intros H | by intros [H _]].
Qed.

Lemma returned_text_empty_witness :
  let d := mkData (ContentString (js "  ")) ContentOther None (Some usage15) in
  generatedText (assembleResult (env0 (reply (js "  ") usage15))
                   (mkAnalysisRequest [js "a.csv"] (js "p") None None None)
                   (buildRequestBody (mkAnalysisRequest [js "a.csv"] (js "p") None None None) [])
                   d) = [].
Proof.
  intros d.
  apply (returned_text_empty _ _ _ d 10 5 0 15); [reflexivity|].
  split; [by repeat constructor | discriminate].
Defined.

End HandlerResult.

Section PageToProvider.
Import EdgeFunction ServeSpec Samples.

Lemma isGPT5OrNewer_None : isGPT5OrNewer None = false.
Proof. reflexivity. Qed.

Lemma fixed_serve_fetch env request sent :
  Fetch sent ∈ (FixedModel.serve env request).1 ->
  exists fp, sent = FixedModel.buildRequestBody (body request) fp.
Proof.
  unfold FixedModel.serve.
  destruct (bool_decide _); [intros H; by apply elem_of_nil in H|].
  destruct (negb (JS.truthy (orString _ _))); [intros H; by apply elem_of_nil in H|].
  destruct (authorization request) as [h|]; [|intros H; by apply elem_of_nil in H].
  destruct (negb (JS.truthy h)); [intros H; by apply elem_of_nil in H|].
  destruct (getUser env h) as [uid|]; [|intros H; by apply elem_of_nil in H].
  rewrite readFiles_spec. cbn [app].
  destruct (negb (JS.truthy _)); cbn [fst].
  { intros H. by apply Fetch_not_skipped in H. }
  destruct (negb (ok _)); cbn [fst]; intros H;
    apply elem_of_app in H as [H|H]; try (by apply Fetch_not_skipped in H).
  - apply elem_of_cons in H as [H|H]; [inversion H; eauto|].
    apply list_elem_of_singleton in H. discriminate.
  - apply list_elem_of_singleton in H. inversion H. eauto.
Qed.

(** X18: every provider call caused by a click on Analyze comes from
    a submission with files and a non-blank prompt and names
    gpt-5-2025-08-07, whichever revision of the function answers the
    page.  Through functions/analyze-data/index.ts the call carries
    [max_completion_tokens], the larger of 1000 and the page's
    maxTokens (2000 for 0), and neither [max_tokens] nor
    [temperature]: the temperature of the page is not sent.  Through
    the revision that reads [model], which the page does not send,
    the call carries [max_tokens] and [temperature] and no
    [max_completion_tokens]. *)
Theorem page_request_shape (env : Env) (st : Client.PageState)
    (sent : OpenAIRequestBody) :
  (Fetch sent ∈ FixedModel.analyze env st ->
   Client.selectedFiles st <> [] /\
   JS.trim (Client.prompt st) <> [] /\
   b_model sent = js "gpt-5-2025-08-07" /\
   b_max_completion_tokens sent =
     Some (Z.max (if (Client.maxTokens st =? 0)%Z then 2000%Z
                  else Client.maxTokens st) 1000) /\
   b_max_tokens sent = None /\
   b_temperature sent = None) /\
  (Fetch sent ∈ Client.analyze env st ->
   Client.selectedFiles st <> [] /\
   JS.trim (Client.prompt st) <> [] /\
   b_model sent = js "gpt-5-2025-08-07" /\
   b_max_completion_tokens sent = None /\
   b_max_tokens sent = Some (if (Client.maxTokens st =? 0)%Z then 2000%Z
                             else Client.maxTokens st) /\
   b_temperature sent = Some (if Qeq_bool (Client.temperature st) 0 then (7 # 10)%Q
                              else Client.temperature st)).
Proof.
  split.
  - unfold FixedModel.analyze, Client.handleAnalyze.
    destruct (Client.selectedFiles st) as [|f fs] eqn:Hf; cbn [length Nat.eqb].
    { intros H. by apply elem_of_nil in H. }
    destruct (JS.trim (Client.prompt st)) as [|c p] eqn:Hp; cbn [JS.truthy negb].
    { intros H. by apply elem_of_nil in H. }
    cbn [FixedModel.dispatch map concat]. rewrite app_nil_r. intros Hin.
    apply fixed_serve_fetch in Hin as (fp & ->). cbn [body].
    unfold FixedModel.buildRequestBody.
    cbn [maxTokens b_model b_max_completion_tokens b_max_tokens b_temperature orInt].
    done.
  - unfold Client.analyze, Client.handleAnalyze.
    destruct (Client.selectedFiles st) as [|f fs] eqn:Hf; cbn [length Nat.eqb].
    { intros H. by apply elem_of_nil in H. }
    destruct (JS.trim (Client.prompt st)) as [|c p] eqn:Hp; cbn [JS.truthy negb].
    { intros H. by apply elem_of_nil in H. }
    cbn [Client.dispatch map concat]. rewrite app_nil_r. intros Hin.
    apply serve_fetch in Hin as (uid & _ & _ & ->). cbn [body].
    unfold buildRequestBody. cbn [model maxTokens temperature].
    rewrite isGPT5OrNewer_None.
    cbn [b_model b_max_completion_tokens b_max_tokens b_temperature
         orString orInt orNumber].
    done.
Qed.

Lemma page_request_shape_witness :
  let env := env0 (reply (js "ok") usage15) in
  let st := page0 [js "a.csv"] (js "p") in
  exists sent,
    Fetch sent ∈ FixedModel.analyze env st /\
    b_model sent = js "gpt-5-2025-08-07" /\
    b_max_completion_tokens sent = Some 1000%Z /\
    b_temperature sent = None.
Proof.
  intros env st.
  assert (Hin : Fetch (FixedModel.buildRequestBody
             (mkAnalysisRequest [js "a.csv"] (js "p") (Some (7 # 10)%Q) (Some 1000%Z) None)
             (fullPrompt (js "p") (sections env uid0 [js "a.csv"])))
          ∈ FixedModel.analyze env st).
  { vm_compute. apply list_elem_of_here. }
  destruct (proj1 (page_request_shape env st _) Hin) as (_ & _ & H1 & H2 & _ & H3).
  eexists. split; [exact Hin|]. split; [exact H1|]. split; [exact H2 | exact H3].
Defined.

End PageToProvider.

Section ClassifierWhitespace.
Import JS RegExp Classifier ClassifierSpec Aux ServeSpec.

Lemma Blank_no_backtick q : Blank q -> 96 ∉ q.
Proof.
  intros Hq Hin. unfold Blank in Hq. rewrite Forall_forall in Hq.
  apply Hq in Hin. by vm_compute in Hin.
Qed.

Lemma Blank_no_comma q : Blank q -> COMMA ∉ q.
Proof.
  intros Hq Hin. unfold Blank in Hq. rewrite Forall_forall in Hq.
  apply Hq in Hin. by vm_compute in Hin.
Qed.

Lemma startsWith_trailing (c : cu) : forall p r q, c ∉ q ->
  startsWith (r ++ q) (p ++ [c]) = startsWith r (p ++ [c]).
Proof.
  induction p as [|x p IH]; intros r q Hc.
  - destruct r as [|a r]; [|cbn [app startsWith]; by destruct r, q].
    destruct q as [|b q]; [done|]. cbn [app startsWith].
    destruct (N.eqb_spec c b) as [->|]; [|done].
    destruct Hc. apply list_elem_of_here.
  - destruct r as [|a r]; cbn [app startsWith].
    + destruct q as [|b q]; [done|].
      assert (E : startsWith ([] ++ q) (p ++ [c]) = startsWith [] (p ++ [c])).
      { apply IH. intros H; apply Hc; by apply list_elem_of_further. }
      change ([] ++ q) with q in E. cbn [startsWith]. rewrite E.
      destruct p; cbn [app startsWith]; by rewrite andb_false_r.
    + by rewrite IH.
Qed.

Lemma closingFence_snoc : closingFence = [LF; 96; 96] ++ [96].
Proof. reflexivity. Qed.

Lemma untilClosingFence_trailing q : 96 ∉ q -> forall r,
  untilClosingFence (r ++ q) = untilClosingFence r.
Proof.
  intros Hq. induction r as [|a r IH].
  - cbn [app]. clear -Hq. induction q as [|b q IH]; [done|].
    cbn [untilClosingFence].
    assert (Hs : startsWith (b :: q) closingFence = false).
    { rewrite closingFence_snoc. rewrite <- (app_nil_l (b :: q)).
      by rewrite (startsWith_trailing 96 _ [] (b :: q) Hq). }
    rewrite Hs. rewrite IH; [done|].
    intros H; apply Hq; by apply list_elem_of_further.
  - cbn [app untilClosingFence].
    change (a :: r ++ q) with ((a :: r) ++ q).
    rewrite closingFence_snoc, (startsWith_trailing 96 _ _ q Hq), <- closingFence_snoc.
    by rewrite IH.
Qed.

Lemma startsWithIgnoreCase_longer q : forall o s,
  startsWithIgnoreCase (s ++ q) o = true ->
  startsWithIgnoreCase s o = true \/ (length s < length o)%nat.
Proof.
  induction o as [|a o IH]; intros s H; [left; by destruct s|].
  destruct s as [|b s]; [right; simpl; lia|].
  cbn [app startsWithIgnoreCase] in *.
  apply andb_true_iff in H as [H1 H2]. rewrite H1.
  destruct (IH _ H2) as [H|H]; [by left | right; simpl; lia].
Qed.

Lemma startsWithIgnoreCase_shorter q : forall o s,
  startsWithIgnoreCase s o = true ->
  startsWithIgnoreCase (s ++ q) o = true /\ (length o <= length s)%nat.
Proof.
  induction o as [|a o IH]; intros s H; [split; [by destruct s, q | simpl; lia]|].
  destruct s as [|b s]; [done|].
  cbn [app startsWithIgnoreCase] in *.
  apply andb_true_iff in H as [H1 H2]. rewrite H1.
  destruct (IH _ H2) as [H3 H4]. split; [done | simpl; lia].
Qed.

Lemma not_elem_of_drop (c : cu) n q : c ∉ q -> c ∉ drop n q.
Proof.
  intros H Hin. apply H. rewrite <- (take_drop n q). apply elem_of_app. by right.
Qed.

Lemma blockAt_trailing q : 96 ∉ q -> forall tags s,
  blockAt tags (s ++ q) = blockAt tags s.
Proof.
  intros Hq tags s. induction tags as [|tag tags IH]; [done|].
  cbn [blockAt]. rewrite IH.
  destruct (startsWithIgnoreCase s (opener tag)) eqn:Hs.
  - destruct (startsWithIgnoreCase_shorter q _ _ Hs) as [-> Hlen].
    rewrite drop_app_le by done. by rewrite untilClosingFence_trailing.
  - destruct (startsWithIgnoreCase (s ++ q) (opener tag)) eqn:Hsq; [|done].
    destruct (startsWithIgnoreCase_longer q _ _ Hsq) as [H|H]; [congruence|].
    rewrite drop_app_ge by lia.
    rewrite <- (app_nil_l (drop _ q)).
    rewrite untilClosingFence_trailing by by apply not_elem_of_drop.
    done.
Qed.

Lemma blockAt_blank_head c s tags : isTrimmable c = true -> blockAt tags (c :: s) = None.
Proof.
  intros Hc. apply blockAt_no_fence.
  change (js "```") with [96; 96; 96]. cbn [startsWithIgnoreCase].
  rewrite caseless_backtick.
  destruct (N.eqb_spec 96 c) as [<-|]; [by vm_compute in Hc | done].
Qed.

Lemma firstBlock_leading tags p x : Blank p -> firstBlock tags (p ++ x) = firstBlock tags x.
Proof.
  induction 1 as [|c p Hc _ IH]; [done|].
  cbn [app firstBlock]. by rewrite blockAt_blank_head.
Qed.

Lemma firstBlock_trailing tags q : Blank q -> forall s,
  firstBlock tags (s ++ q) = firstBlock tags s.
Proof.
  intros Hq. induction s as [|a s IH].
  - cbn [app]. rewrite <- (app_nil_r q). by rewrite firstBlock_leading.
  - cbn [app firstBlock].
    change (a :: s ++ q) with ((a :: s) ++ q).
    rewrite blockAt_trailing by by apply Blank_no_backtick.
    by rewrite IH.
Qed.

Lemma firstBlock_surround tags p s q :
  Blank p -> Blank q -> firstBlock tags (p ++ s ++ q) = firstBlock tags s.
Proof. intros Hp Hq. by rewrite firstBlock_leading, firstBlock_trailing. Qed.

Lemma codeBlockRule_firstBlock t1 t2 :
  (forall tags, firstBlock tags t1 = firstBlock tags t2) ->
  codeBlockRule t1 patterns = codeBlockRule t2 patterns.
Proof.
  intros H. unfold patterns. cbn [codeBlockRule].
  rewrite !tryPattern_fence by done. by rewrite !H.
Qed.

Lemma includes_comma_surround p s q :
  Blank p -> Blank q -> includes (p ++ s ++ q) [COMMA] = includes s [COMMA].
Proof.
  intros Hp Hq. apply Blank_no_comma in Hp, Hq.
  destruct (includes s [COMMA]) eqn:Hs.
  - apply includes_singleton. apply includes_singleton in Hs.
    apply elem_of_app. right. apply elem_of_app. by left.
  - destruct (includes (p ++ s ++ q) [COMMA]) eqn:Hps; [|done].
    apply includes_singleton in Hps.
    apply elem_of_app in Hps as [H|H]; [done|].
    apply elem_of_app in H as [H|H]; [|done].
    apply includes_singleton in H. congruence.
Qed.

Lemma csvLikeRule_surround p s q :
  Blank p -> Blank q -> csvLikeRule (p ++ s ++ q) = csvLikeRule s.
Proof.
  intros Hp Hq. unfold csvLikeRule.
  by rewrite trim_surround, includes_comma_surround.
Qed.

Lemma bareJsonRule_surround p s q :
  Blank p -> Blank q -> bareJsonRule (p ++ s ++ q) = bareJsonRule s.
Proof. intros Hp Hq. unfold bareJsonRule. by rewrite trim_surround. Qed.

Lemma rules_blank s :
  Blank s ->
  csvLikeRule s = None /\ codeBlockRule s patterns = None /\ bareJsonRule s = None.
Proof.
  intros Hs.
  assert (Hnil : Blank []) by constructor.
  pose proof (csvLikeRule_surround s [] [] Hs Hnil) as E1.
  pose proof (bareJsonRule_surround s [] [] Hs Hnil) as E3.
  cbn [app] in E1, E3. rewrite app_nil_r in E1, E3. rewrite E1, E3.
  split; [by vm_compute|]. split; [|by vm_compute].
  rewrite (codeBlockRule_firstBlock _ []); [by vm_compute|].
  intros tags. rewrite <- (app_nil_r s) at 1. by apply firstBlock_leading.
Qed.

Lemma detect_rules s :
  s <> [] ->
  detectDownloadableContent s =
  match csvLikeRule s with
  | Some fi => Some fi
  | None => match codeBlockRule s patterns with
            | Some fi => Some fi
            | None => bareJsonRule s
            end
  end.
Proof. intros Hs. unfold detectDownloadableContent. by destruct s. Qed.

Lemma detect_blank s : Blank s -> detectDownloadableContent s = None.
Proof.
  intros Hs. destruct s as [|c s]; [done|].
  rewrite detect_rules by done.
  destruct (rules_blank _ Hs) as (-> & -> & ->). done.
Qed.

Lemma detect_surround p s q :
  Blank p -> Blank q ->
  detectDownloadableContent (p ++ s ++ q) = detectDownloadableContent s.
Proof.
  intros Hp Hq. destruct s as [|c s].
  - cbn [app]. by rewrite detect_blank by by apply Blank_app.
  - rewrite !detect_rules; [|done|by destruct p].
    rewrite csvLikeRule_surround, bareJsonRule_surround by done.
    rewrite (codeBlockRule_firstBlock _ (c :: s)); [done|].
    intros tags. by apply firstBlock_surround.
Qed.

(** X10: white space before and after a text does not change what the
    classifier returns for it. *)
Theorem classification_ignores_surrounding_whitespace (p s q : jsstring) :
  Blank p -> Blank q ->
  detectDownloadableContent (p ++ s ++ q) = detectDownloadableContent s.
Proof. apply detect_surround. Qed.

Lemma classification_whitespace_witness :
  detectDownloadableContent ([LF; 32] ++ (js "a,b" ++ [LF] ++ js "1,2") ++ [32; LF])
  = detectDownloadableContent (js "a,b" ++ [LF] ++ js "1,2").
Proof.
  apply classification_ignores_surrounding_whitespace;
    repeat constructor.
Defined.

(** X11: a text of white space only gives no artifact. *)
Theorem blank_text_gives_no_artifact (s : jsstring) :
  Blank s -> detectDownloadableContent s = None.
Proof. apply detect_blank. Qed.

Lemma blank_text_witness : detectDownloadableContent [32; LF; TAB] = None.
Proof. apply blank_text_gives_no_artifact. repeat constructor. Defined.

Lemma detect_trim s :
  detectDownloadableContent (trim s) = detectDownloadableContent s.
Proof.
  destruct (trim_split s) as (p & q & Hs & Hp & Hq).
  rewrite Hs at 2. by rewrite detect_surround.
Qed.

End ClassifierWhitespace.

Section ResultConsistency.
Import EdgeFunction Classifier ServeSpec Samples.

(** X9: in every result, the artifact is the one the classifier gives
    for the returned text itself (although it is computed before the
    text is trimmed), and the returned text has no white space around
    it. *)
Theorem result_artifact_of_returned_text (env : Env) (request : Request)
    (res : AnalysisResult) :
  (serve env request).2 = ResultResponse res ->
  fileInfo res = detectDownloadableContent (generatedText res) /\
  JS.trim (generatedText res) = generatedText res.
Proof.
  intros Hres.
  assert (Hex : exists req sent d, res = assembleResult env req sent d).
  { revert Hres. unfold serve.
    repeat (match goal with
            | |- context [if ?b then _ else _] => destruct b
            | |- context [match ?x with _ => _ end] => destruct x
            end; cbn [snd]; try discriminate).
    intros [= <-]. by eexists _, _, _. }
  destruct Hex as (req & sent & d & ->).
  unfold assembleResult. destruct (normalizeUsage (usage d)) as [[[i o] r] t].
  cbn [fileInfo generatedText]. by rewrite detect_trim, trim_idemp.
Qed.

Lemma result_artifact_witness :
  let env := env0 (reply ([JS.LF] ++ js "a,b" ++ [JS.LF] ++ js "1,2" ++ [JS.LF]) usage15) in
  let request := post (mkAnalysisRequest [js "a.csv"] (js "p") None None None) in
  exists res,
    (serve env request).2 = ResultResponse res /\
    fileInfo res = detectDownloadableContent (generatedText res) /\
    generatedText res = js "a,b" ++ [JS.LF] ++ js "1,2".
Proof.
  intros env request.
  eexists. split; [reflexivity|].
  split; [|reflexivity].
  apply (result_artifact_of_returned_text env request). reflexivity.
Defined.

End ResultConsistency.

Section Artifacts.
Import JS RegExp Classifier ClassifierSpec Aux ServeSpec.

Lemma fenceRules_tags : Forall (fun r => r_tags r <> []) fenceRules.
Proof. by repeat constructor. Qed.

Lemma patterns_fenceRules : patterns = map patternOf fenceRules.
Proof. reflexivity. Qed.

Lemma fenceRules_kinds r :
  r ∈ fenceRules -> (r_type r, r_extension r, r_mimeType r) ∈ kinds.
Proof.
  unfold fenceRules, kinds. rewrite !elem_of_cons.
  intros H. repeat (destruct H as [->|H]; [cbn; set_solver|]).
  by apply elem_of_nil in H.
Qed.

Lemma detect_Some text fi :
  detectDownloadableContent text = Some fi ->
  (fi = csvArtifact (trim text)) \/
  (exists rule inner, rule ∈ fenceRules /\
      firstBlock (r_tags rule) text = Some inner /\ fi = blockArtifact rule inner) \/
  (fi = jsonArtifact (trim text)).
Proof.
  unfold detectDownloadableContent.
  destruct (truthy text); cbn [negb]; [|done].
  destruct (csvLikeRule text) as [fi1|] eqn:H1.
  { intros [= <-]. left. revert H1. unfold csvLikeRule.
    repeat (match goal with |- context [if ?b then _ else _] => destruct b end; try done).
    by intros [= <-]. }
  destruct (codeBlockRule text patterns) as [fi2|] eqn:H2.
  { intros [= <-]. right; left. rewrite patterns_fenceRules in H2.
    apply codeBlockRule_rules in H2 as (earlier & rule & later & inner & E & Hb & _ & _ & ->);
      [|apply fenceRules_tags].
    exists rule, inner. split; [|done].
    rewrite E. apply elem_of_app. right. apply list_elem_of_here. }
  intros H3. right; right. revert H3. unfold bareJsonRule.
  repeat (match goal with |- context [if ?b then _ else _] => destruct b end; try done).
  by intros [= <-].
Qed.

(** X12: every artifact is marked as a file, is named
    analysis_result.<its extension>, and its type, extension and MIME
    type form one of the seven rows of the table. *)
Theorem artifact_fields_consistent (text : jsstring) (fi : FileInfo) :
  detectDownloadableContent text = Some fi ->
  hasFile fi = true /\
  filename fi = js "analysis_result." ++ extension fi /\
  (type fi, extension fi, mimeType fi) ∈ kinds.
Proof.
  intros H. apply detect_Some in H as [->|[(rule & inner & Hr & _ & ->)| ->]].
  - split; [done|]. split; [done|]. cbn. set_solver.
  - split; [done|]. split; [done|]. cbn [type extension mimeType blockArtifact].
    by apply fenceRules_kinds.
  - split; [done|]. split; [done|]. cbn. set_solver.
Qed.

Lemma artifact_fields_witness :
  exists fi,
    detectDownloadableContent (js "```python" ++ [LF] ++ js "print(1)" ++ [LF] ++ js "```")
      = Some fi /\
    filename fi = js "analysis_result.py" /\
    (type fi, extension fi, mimeType fi) ∈ kinds.
Proof.
  eexists. split; [vm_compute; reflexivity|].
  split; [reflexivity|].
  eapply (artifact_fields_consistent
            (js "```python" ++ [LF] ++ js "print(1)" ++ [LF] ++ js "```")).
  vm_compute. reflexivity.
Defined.

(** X13: the content of an artifact is a contiguous part of the text
    it was found in, and has no white space around it. *)
Theorem artifact_content_from_text (text : jsstring) (fi : FileInfo) :
  detectDownloadableContent text = Some fi ->
  (exists pre post, text = pre ++ content fi ++ post) /\
  trim (content fi) = content fi.
Proof.
  intros H. apply detect_Some in H as [->|[(rule & inner & Hr & Hb & ->)| ->]];
    cbn [content csvArtifact blockArtifact jsonArtifact];
    (split; [|apply trim_idemp]).
  - apply trim_infix.
  - apply firstBlock_sound in Hb as (pre & tag & tag' & post & _ & _ & ->).
    destruct (trim_infix inner) as (p & q & Hinner).
    exists (pre ++ js "```" ++ tag' ++ [LF] ++ p), (q ++ closingFence ++ post).
    rewrite Hinner at 1. by rewrite <- !app_assoc.
  - apply trim_infix.
Qed.

Lemma artifact_content_witness :
  exists fi,
    detectDownloadableContent
      (js "see:" ++ [LF] ++ js "```sql" ++ [LF] ++ js " select 1 " ++ [LF] ++ js "```")
      = Some fi /\
    content fi = js "select 1" /\
    trim (content fi) = content fi.
Proof.
  eexists. split; [vm_compute; reflexivity|].
  split; [reflexivity|].
  eapply (artifact_content_from_text
            (js "see:" ++ [LF] ++ js "```sql" ++ [LF] ++ js " select 1 " ++ [LF] ++ js "```")).
  vm_compute. reflexivity.
Defined.

End Artifacts.

Section Selection.
Import EdgeFunction Client ClientSpec Samples.

Lemma filter_absent (name : jsstring) (l : list jsstring) :
  name ∉ l -> filter (fun f => f <> name) l = l.
Proof.
  induction l as [|a l IH]; [done|]. intros H.
  apply not_elem_of_cons in H as [H1 H2].
  rewrite filter_cons_True by done. by rewrite IH.
Qed.

(** X14: the row's handler tests the list of its render and updates
    the list the state holds.  When the two agree about the name, the
    click flips whether the name is selected, leaves every other name
    as it was, and keeps a list without duplicates free of them.
    When a selection of the same name was queued from the same render
    just before it, as by the [onCheckedChange] of the checkbox inside
    the row, the name is appended a second time; a deselection queued
    before it is repeated without effect. *)
Theorem row_click_against_render (name other : jsstring)
    (rendered prev : list jsstring) :
  ((name ∈ rendered <-> name ∈ prev) ->
   (name ∈ rowClick name rendered prev <-> name ∉ prev) /\
   (other <> name -> (other ∈ rowClick name rendered prev <-> other ∈ prev)) /\
   (NoDup prev -> NoDup (rowClick name rendered prev))) /\
  (name ∉ rendered ->
   rowClick name rendered (handleFileSelection name true prev)
   = prev ++ [name; name]) /\
  (name ∈ rendered ->
   rowClick name rendered (handleFileSelection name false prev)
   = handleFileSelection name false prev).
Proof.
  unfold rowClick, handleFileSelection. split; [|split].
  - intros Hagree. destruct (decide (name ∈ rendered)) as [Hin|Hin].
    + rewrite bool_decide_eq_true_2 by done. cbn [negb].
      apply Hagree in Hin. split; [|split].
      * rewrite list_elem_of_filter. tauto.
      * intros Ho. rewrite list_elem_of_filter. tauto.
      * apply NoDup_filter.
    + rewrite bool_decide_eq_false_2 by done. cbn [negb].
      assert (Hp : name ∉ prev) by (intros H; by apply Hagree in H).
      split; [|split].
      * split; [done|]. intros _. apply elem_of_app. right. apply list_elem_of_here.
      * intros Ho. rewrite elem_of_app, list_elem_of_singleton. tauto.
      * intros Hnd. apply NoDup_app. split; [done|]. split; [|apply NoDup_singleton].
        intros x Hx Hx'. apply list_elem_of_singleton in Hx'. by subst.
  - intros Hin. rewrite bool_decide_eq_false_2 by done. cbn [negb].
    by rewrite <- app_assoc.
  - intros Hin. rewrite bool_decide_eq_true_2 by done. cbn [negb].
    apply filter_absent. rewrite list_elem_of_filter. tauto.
Qed.

Lemma row_click_witness :
  rowClick (js "b.csv") [] (handleFileSelection (js "b.csv") true [])
  = [js "b.csv"; js "b.csv"].
Proof.
  apply (proj1 (proj2 (row_click_against_render (js "b.csv") (js "b.csv") [] []))).
  apply not_elem_of_nil.
Defined.

(** X15: deselecting a name removes every copy of it; after a
    selection it gives back the list without the name, which is the
    original list when the name was not in it. *)
Theorem deselect_after_select (name : jsstring) (prev : list jsstring) :
  handleFileSelection name false (handleFileSelection name true prev)
    = filter (fun f => f <> name) prev /\
  (name ∉ prev ->
   handleFileSelection name false (handleFileSelection name true prev) = prev) /\
  name ∉ handleFileSelection name false prev.
Proof.
  unfold handleFileSelection. rewrite filter_app.
  rewrite filter_cons_False by (by intros H; apply H).
  rewrite filter_nil, app_nil_r. split; [done|]. split; [apply filter_absent|].
  rewrite list_elem_of_filter. tauto.
Qed.

Lemma updates_surviving : forall calls prev,
  updates calls prev =
  filter (fun f => (f, false) ∉ calls) prev ++ surviving calls.
Proof.
  unfold updates. induction calls as [|[n sel] calls IH]; intros prev.
  - cbn [foldl surviving]. rewrite app_nil_r.
    symmetry. induction prev as [|f prev IH]; [done|].
    rewrite filter_cons_True by apply not_elem_of_nil. by rewrite IH.
  - cbn [foldl fst snd]. rewrite IH. unfold handleFileSelection.
    destruct sel; cbn [surviving].
    + rewrite filter_app, <- app_assoc. f_equal.
      * apply list_filter_iff. intros f. rewrite elem_of_cons.
        split; [|tauto]. intros H [[= _ ?]|?]; tauto.
      * case_bool_decide as Hin.
        -- by rewrite filter_cons_False by tauto.
        -- by rewrite filter_cons_True by done.
    + f_equal. rewrite list_filter_filter. apply list_filter_iff. intros f.
      rewrite elem_of_cons. split.
      * intros [H1 H2] [[= ->]|H]; tauto.
      * intros H. split; [tauto|]. intros ->. tauto.
Qed.

(** X16: after any sequence of calls of [handleFileSelection], starting
    from an empty selection, the selection holds the names selected
    and not deselected afterwards, in the order of their selections,
    one entry for each such selection; [handleAnalyze] submits exactly
    this list. *)
Theorem files_submitted_in_selection_order (calls : list (jsstring * bool))
    (st : PageState) :
  Client.selectedFiles st = updates calls [] ->
  surviving calls <> [] ->
  JS.trim (Client.prompt st) <> [] ->
  Client.selectedFiles st = surviving calls /\
  exists toast,
    handleAnalyze st =
      [toast;
       Invoke (js "analyze-data")
         (mkAnalysisRequest (surviving calls) (Client.prompt st)
            (Some (Client.temperature st)) (Some (Client.maxTokens st)) None)].
Proof.
  intros Hsel Hne Hp. rewrite updates_surviving in Hsel.
  rewrite filter_nil in Hsel. cbn [app] in Hsel. split; [done|].
  unfold handleAnalyze. rewrite Hsel.
  destruct (surviving calls) as [|n names]; [done|]. cbn [length Nat.eqb].
  destruct (JS.trim (Client.prompt st)); [done|]. cbn [JS.truthy negb].
  by eexists.
Qed.

Lemma files_submitted_witness :
  let calls := [(js "b.csv", true); (js "a.csv", true); (js "c.csv", true);
                (js "a.csv", false); (js "b.csv", true)] in
  exists toast,
    handleAnalyze (page0 (updates calls []) (js "p")) =
      [toast;
       Invoke (js "analyze-data")
         (mkAnalysisRequest [js "b.csv"; js "c.csv"; js "b.csv"] (js "p")
            (Some (7 # 10)%Q) (Some 1000%Z) None)].
Proof.
  intros calls.
  refine (proj2 (files_submitted_in_selection_order calls
                   (page0 (updates calls []) (js "p")) _ _ _)).
  - reflexivity.
  - vm_compute. discriminate.
  - vm_compute. discriminate.
Defined.

End Selection.

Section ModelFamily.
Import JS EdgeFunction ServeSpec.

Lemma includes_true s sub :
  includes s sub = true <-> exists a b, s = a ++ sub ++ b.
Proof.
  split.
  - induction s as [|c s IH]; cbn [includes].
    + rewrite orb_false_r. intros H. apply startsWith_true in H as [r ->].
      by exists [], r.
    + intros H. apply orb_true_iff in H as [H|H].
      * apply startsWith_true in H as [r ->]. by exists [], r.
      * destruct (IH H) as (a & b & ->). by exists (c :: a), b.
  - intros (a & b & ->). apply includes_app.
Qed.

(** X17: a model identifier is taken for the newer family exactly
    when one of gpt-5, o3, o4, gpt-4.1 occurs somewhere in it, in this
    very spelling. *)
Theorem model_family_by_containment (m : jsstring) :
  isGPT5OrNewer (Some m) = true <->
  exists marker a b, marker ∈ markers /\ m = a ++ js marker ++ b.
Proof.
  unfold isGPT5OrNewer.
  assert (Hm : orString (Some m) [] = m) by by destruct m.
  rewrite Hm. rewrite !orb_true_iff, !includes_true. unfold markers. split.
  - intros [[[(a & b & H)|(a & b & H)]|(a & b & H)]|(a & b & H)];
      eexists _, a, b; (split; [|exact H]); set_solver.
  - intros (marker & a & b & Hin & H).
    rewrite !elem_of_cons in Hin.
    destruct Hin as [->|[->|[->|[->|Hin]]]]; [| | | |by apply elem_of_nil in Hin].
    + left; left; left. by exists a, b.
    + left; left; right. by exists a, b.
    + left; right. by exists a, b.
    + right. by exists a, b.
Qed.

End ModelFamily.

Section UploadAndAnalyze.
Import EdgeFunction ServeSpec Upload Samples.

Lemma uploadPath_farm uid now name :
  uploadPath uid FarmData now name = farmDataPath uid (objectName now name).
Proof.
  reflexivity.
Qed.

Lemma uploadPath_certification uid now name :
  uploadPath uid CertificationRequirements now name
  = certificationPath uid (objectName now name).
Proof.
  reflexivity.
Qed.

Lemma deletePath_farm uid name :
  uid ++ js "/" ++ folderName FarmData ++ js "/" ++ name = farmDataPath uid name.
Proof. reflexivity. Qed.

Lemma deletePath_certification uid name :
  uid ++ js "/" ++ folderName CertificationRequirements ++ js "/" ++ name
  = certificationPath uid name.
Proof. reflexivity. Qed.

Lemma farm_not_certification uid n n' : farmDataPath uid n <> certificationPath uid n'.
Proof.
  unfold farmDataPath, certificationPath. intros H.
  apply app_inv_head in H. discriminate.
Qed.

Lemma farmDataPath_inj uid n n' : farmDataPath uid n = farmDataPath uid n' -> n = n'.
Proof.
  unfold farmDataPath. intros H. apply app_inv_head in H. by apply app_inv_head in H.
Qed.

Lemma certificationPath_inj uid n n' :
  certificationPath uid n = certificationPath uid n' -> n = n'.
Proof.
  unfold certificationPath. intros H. apply app_inv_head in H. by apply app_inv_head in H.
Qed.

Lemma handleUpload_Success b user file fileType now b' msg :
  handleUpload b user file fileType now = (b', Success msg) ->
  exists uid f, user = Some uid /\ file = Some f /\
    b !! uploadPath uid fileType now (f_name f) = None /\
    b' = <[ uploadPath uid fileType now (f_name f) := f_text f ]> b.
Proof.
  unfold handleUpload, storageUpload.
  destruct file as [f|]; [|done]. destruct user as [uid|]; [|done].
  destruct (b !! _) eqn:Hb; [done|]. intros [= <- _].
  by exists uid, f.
Qed.

(** X19: after a successful upload of a file whose name holds only
    letters, digits, [-], [.] and [_], by a user whose id does, the
    analysis resolves the listed name of the object to the uploaded
    text (for the requirements folder: unless the farm-data folder
    holds an object of that name), and resolves every other such name
    as before. *)
Theorem uploaded_file_resolves (env : Env) (b b' : gmap jsstring jsstring)
    (uid : jsstring) (f : File) (fileType : FileType) (now : Z) (msg : jsstring) :
  forallb isPlain uid = true ->
  forallb isPlain (f_name f) = true ->
  handleUpload b (Some uid) (Some f) fileType now = (b', Success msg) ->
  (fileType = CertificationRequirements ->
   b !! farmDataPath uid (objectName now (f_name f)) = None) ->
  resolve (withBucket env b') uid (objectName now (f_name f)) = Some (f_text f) /\
  (forall other, forallb isPlain other = true ->
     other <> objectName now (f_name f) ->
     resolve (withBucket env b') uid other = resolve (withBucket env b) uid other).
Proof.
  intros _ _ Hup Hfree.
  apply handleUpload_Success in Hup as (uid' & f' & [= <-] & [= <-] & Hnone & ->).
  unfold resolve. cbn [bucket withBucket].
  destruct fileType.
  - rewrite uploadPath_farm in *. split.
    + by rewrite lookup_insert_eq.
    + intros other _ Ho.
      rewrite lookup_insert_ne by (intros H; by apply farmDataPath_inj in H).
      rewrite lookup_insert_ne by apply farm_not_certification. done.
  - rewrite uploadPath_certification in *. split.
    + rewrite lookup_insert_ne by (intros H; symmetry in H; by apply farm_not_certification in H).
      rewrite Hfree by done. by rewrite lookup_insert_eq.
    + intros other _ Ho.
      rewrite lookup_insert_ne by (intros H; symmetry in H; by apply farm_not_certification in H).
      rewrite lookup_insert_ne by (intros H; by apply certificationPath_inj in H). done.
Qed.

Lemma uploaded_file_witness :
  let env := env0 (reply (js "ok") usage15) in
  let f := mkFile (js "c.csv") (js "m,n") in
  exists b',
    forallb isPlain uid0 = true /\
    forallb isPlain (f_name f) = true /\
    handleUpload bucket0 (Some uid0) (Some f) CertificationRequirements 1700000000000
      = (b', Success (js "File uploaded successfully!")) /\
    resolve (withBucket env b') uid0 (js "1700000000000_c.csv") = Some (js "m,n").
Proof.
  intros env f. eexists. split; [reflexivity|]. split; [reflexivity|].
  split; [reflexivity|].
  refine (proj1 (uploaded_file_resolves env bucket0 _ uid0 f CertificationRequirements
                   1700000000000 _ _ _ _ _)).
  - reflexivity.
  - reflexivity.
  - reflexivity.
  - intros _. reflexivity.
Defined.

(** X20: deleting the listed entry of a successful upload gives back
    the bucket as it was before the upload. *)
Theorem delete_undoes_upload (b b' : gmap jsstring jsstring) (uid : jsstring)
    (f : File) (fileType : FileType) (now : Z) (msg : jsstring) :
  handleUpload b (Some uid) (Some f) fileType now = (b', Success msg) ->
  (handleDelete b' (Some uid) (mkUploaded (objectName now (f_name f)) fileType)).1 = b.
Proof.
  intros Hup.
  apply handleUpload_Success in Hup as (uid' & f' & [= <-] & [= <-] & Hnone & ->).
  unfold handleDelete, storageRemove. cbn [fst u_type u_name].
  assert (E : uid ++ js "/" ++ folderName fileType ++ js "/" ++ objectName now (f_name f)
              = uploadPath uid fileType now (f_name f)).
  { reflexivity. }
  rewrite E. by apply delete_insert_id.
Qed.

Lemma delete_undoes_upload_witness :
  let f := mkFile (js "c.csv") (js "m,n") in
  exists b',
    handleUpload bucket0 (Some uid0) (Some f) FarmData 1700000000000
      = (b', Success (js "File uploaded successfully!")) /\
    (handleDelete b' (Some uid0) (mkUploaded (js "1700000000000_c.csv") FarmData)).1
      = bucket0.
Proof.
  intros f. eexists. split; [reflexivity|].
  refine (delete_undoes_upload bucket0 _ uid0 f FarmData 1700000000000 _ _).
  reflexivity.
Defined.

(** X21: after a deletion the name resolves to what the other folder
    holds under it, and all other names resolve as before. *)
Theorem delete_leaves_other_folder (env : Env) (b : gmap jsstring jsstring)
    (uid name : jsstring) (fileType : FileType) :
  let b' := (handleDelete b (Some uid) (mkUploaded name fileType)).1 in
  resolve (withBucket env b') uid name =
    match fileType with
    | FarmData => b !! certificationPath uid name
    | CertificationRequirements => b !! farmDataPath uid name
    end /\
  (forall other, other <> name ->
     resolve (withBucket env b') uid other = resolve (withBucket env b) uid other).
Proof.
  unfold handleDelete, storageRemove, resolve. cbn [fst u_type u_name bucket withBucket].
  destruct fileType.
  - rewrite deletePath_farm. split.
    + rewrite lookup_delete_eq.
      by rewrite lookup_delete_ne by apply farm_not_certification.
    + intros other Ho.
      rewrite lookup_delete_ne by (intros H; by apply farmDataPath_inj in H).
      by rewrite lookup_delete_ne by apply farm_not_certification.
  - rewrite deletePath_certification. split.
    + rewrite lookup_delete_ne by (intros H; symmetry in H; by apply farm_not_certification in H).
      rewrite lookup_delete_eq. by destruct (b !! farmDataPath uid name).
    + intros other Ho.
      rewrite lookup_delete_ne by (intros H; symmetry in H; by apply farm_not_certification in H).
      by rewrite lookup_delete_ne by (intros H; by apply certificationPath_inj in H).
Qed.

End UploadAndAnalyze.
